(** * Fleet Commander ([fleet_ops.py]): model and verification

    [fleet_ops.py] is an interactive script that scans one directory for Git
    repositories, shows their state and commits, pulls and pushes them through
    the GitPython binding.  Everything interesting happens in the order of the
    calls it makes and in which of its [try] blocks guards which call.

    The development has five parts:
    - the host the script runs on (file system, terminal, GitPython), as an
      interface whose operations may raise;
    - a small state-and-exception monad with an event log, in which the
      functions of the script are written line by line;
    - a simulated host, used to run the functions on concrete scenarios;
    - the properties of the status inspector, the sync executor, the scan and
      the dashboard entry;
    - further properties of the same functions and of the rest of the
      script: the table, the commands of the menu and the setup tools, the
      latter on a simulated disk.

    Conventions.  A string is the sequence of its bytes in UTF-8, so that
    comparing strings compares character codes, as Python does.  A function
    of the script with local variables that it assigns to takes them as the
    state of the monad ([status] in [get_git_status], [repos_found] in the
    dashboard), so that what was assigned before an exception is still there
    in the handler.  The log of a run holds what was printed and asked, and
    the GitPython calls that open, change or contact a repository, each
    logged when it is made, whether or not it then raises.  [show_git_log]
    is never called (and names a module, [time], that the script does not
    import); it is left out. *)

From Stdlib Require Import DecimalString.
From stdpp Require Import base list strings sorting numbers.

Local Open Scope string_scope.
Local Open Scope Z_scope.

(** ** Python exceptions *)

(** The exception classes that the script's [except] clauses tell apart.
    [GitCommandError] and [InvalidGitRepositoryError] are GitPython's;
    [KeyboardInterrupt] and [SystemExit] derive from [BaseException] only. *)
Inductive exc_class :=
  | GitCommandError
  | InvalidGitRepositoryError
  | AttributeError
  | TypeError
  | ValueError
  | IndexError
  | EOFError
  | OSError
  | FileNotFoundError
  | KeyboardInterrupt
  | SystemExit.

(** An exception: its class and [str(e)]. *)
Record exn := Exn { exn_class : exc_class; exn_str : string }.

(** [except Exception] *)
Definition is_Exception (e : exn) : bool :=
  match exn_class e with
  | KeyboardInterrupt | SystemExit => false
  | _ => true
  end.

(** [except OSError] *)
Definition is_OSError (e : exn) : bool :=
  match exn_class e with
  | OSError | FileNotFoundError => true
  | _ => false
  end.

(** [except FileNotFoundError] *)
Definition is_FileNotFoundError (e : exn) : bool :=
  match exn_class e with
  | FileNotFoundError => true
  | _ => false
  end.

(** a bare [except:] *)
Definition any_exception (e : exn) : bool := true.

(** What the lookup of a missing attribute [origin] raises.  Class and
    text are GitPython's, not the script's: the script only prints the
    text, and catches the class as an [Exception]. *)
Definition no_origin_error : exn :=
  Exn AttributeError "'IterableList' object has no attribute 'origin'".

(** The result of an operation that may raise. *)
Inductive outcome (A : Type) :=
  | Ok (a : A)
  | Raise (e : exn).
Arguments Ok {A} a.
Arguments Raise {A} e.

Definition is_Ok {A} (o : outcome A) : Prop :=
  match o with Ok _ => True | Raise _ => False end.

Definition is_Raise {A} (o : outcome A) : Prop :=
  match o with Ok _ => False | Raise _ => True end.

(** ** Strings and paths *)

Definition nl : string := String (Ascii.ascii_of_nat 10) "".
Definition dquote : string := String (Ascii.ascii_of_nat 34) "".
Definition sep : Ascii.ascii := Ascii.ascii_of_nat 47.

(** [needle in hay] on strings *)
Fixpoint str_in (needle hay : string) : bool :=
  String.prefix needle hay ||
  match hay with
  | "" => false
  | String _ hay' => str_in needle hay'
  end.

(** [str(n)] for an integer *)
Definition str_int (n : Z) : string := NilZero.string_of_int (Z.to_int n).

Definition startswith_sep (b : string) : bool :=
  match b with
  | String c _ => Ascii.eqb c sep
  | "" => false
  end.

Fixpoint endswith_sep (a : string) : bool :=
  match a with
  | "" => false
  | String c "" => Ascii.eqb c sep
  | String _ a' => endswith_sep a'
  end.

(** [os.path.join(a, b)] of [posixpath]: an absolute [b] replaces [a]; a
    separator is inserted unless [a] is empty or already ends with one. *)
Definition os_path_join (a b : string) : string :=
  if startswith_sep b then b
  else if String.eqb a "" || endswith_sep a then a +:+ b
  else a +:+ String sep b.

(** [p[p.rfind('/') + 1:]]: [acc] is what follows the last separator seen. *)
Fixpoint basename_from (acc p : string) : string :=
  match p with
  | "" => acc
  | String c p' => if Ascii.eqb c sep then basename_from p' p' else basename_from acc p'
  end.

(** [os.path.basename(p)] *)
Definition os_path_basename (p : string) : string := basename_from p p.

Fixpoint has_sep (s : string) : bool :=
  match s with
  | "" => false
  | String c s' => Ascii.eqb c sep || has_sep s'
  end.

(** [sorted(names)] on strings: the order is the lexicographic one on
    character codes, [String.le]. *)
Definition sorted (names : list string) : list string := merge_sort String.le names.

(** ** Module constants *)

(** [DEVICE_NAME] and [ROOT_DIR] are chosen once, from the environment
    variable [PREFIX] ([os.environ.get("PREFIX", "")]). *)
Definition in_termux (PREFIX : string) : bool := str_in "com.termux" PREFIX.

Definition DEVICE_NAME (PREFIX : string) : string :=
  if in_termux PREFIX then "Pixel 8a (Mobile)" else "Laptop (Base)".

Definition ROOT_DIR (PREFIX : string) : string :=
  if in_termux PREFIX then "/storage/emulated/0/pixel8a/unexusi/"
  else "/home/sauron/unexusi/".

Definition DEFAULT_IGNORE : string :=
  nl +:+ "__pycache__/" +:+ nl +:+ "*.pyc" +:+ nl +:+ ".DS_Store" +:+ nl +:+
  ".vscode/" +:+ nl +:+ "env/" +:+ nl +:+ "venv/" +:+ nl.

Definition AUTO_MESSAGE : string := "Auto-sync via Fleet Commander".
Definition UPDATE_MESSAGE : string := "Update via Fleet Commander".

(** ** Data model *)

(** A [git.Repo] object; the script only ever reads its working directory and
    hands it back to GitPython. *)
Record RepoObj := { working_dir : string }.

(** A [git.Remote] of a repository. *)
Record Remote := { remote_repo : RepoObj; remote_name : string }.

(** The status dictionary built by [get_git_status]. *)
Record status := {
  path : string;
  name : string;
  dirty : bool;
  ahead : Z;
  behind : Z;
  repo : RepoObj;
  branch : string
}.

Definition set_branch (b : string) (st : status) : status :=
  {| path := path st; name := name st; dirty := dirty st; ahead := ahead st;
     behind := behind st; repo := repo st; branch := b |}.
Definition set_dirty (d : bool) (st : status) : status :=
  {| path := path st; name := name st; dirty := d; ahead := ahead st;
     behind := behind st; repo := repo st; branch := branch st |}.
Definition set_behind (n : Z) (st : status) : status :=
  {| path := path st; name := name st; dirty := dirty st; ahead := ahead st;
     behind := n; repo := repo st; branch := branch st |}.
Definition set_ahead (n : Z) (st : status) : status :=
  {| path := path st; name := name st; dirty := dirty st; ahead := n;
     behind := behind st; repo := repo st; branch := branch st |}.

(** One entry of the list that [remote.push()] returns, GitPython's
    [PushInfo]: the bit set [flags] and the [summary] of one reference.  A
    push that the remote refuses raises nothing; the refusal is the bit
    [ERROR] of an entry. *)
Record PushInfo := { push_flags : Z; push_summary : string }.



(** ** What the script does to the outside *)

(** The GitPython calls that are logged: opening a repository and the calls
    that change it or talk to a remote. *)
Inductive git_call :=
  | RepoOpen (repo_path : string)
  | Fetch (r : Remote)
  | AddAll (r : RepoObj)
  | Commit (r : RepoObj) (message : string)
  | Pull (r : Remote)
  | Push (r : Remote).

(** One line of the repository table: the fields of the f-string
    [" {n}. {icon} {name:<18} [{branch}] | {msg}"]. *)
Record row := { row_index : nat; row_icon : string; row_name : string;
                row_branch : string; row_msg : string }.

Inductive event :=
  | Print (line : string)
  | PrintRow (r : row)
  | Prompt (text : string)
  | Clear
  | Git (c : git_call).

Global Instance exc_class_eq_dec : EqDecision exc_class.
Proof. solve_decision. Defined.
Global Instance exn_eq_dec : EqDecision exn.
Proof. solve_decision. Defined.
Global Instance RepoObj_eq_dec : EqDecision RepoObj.
Proof. solve_decision. Defined.
Global Instance Remote_eq_dec : EqDecision Remote.
Proof. solve_decision. Defined.
Global Instance git_call_eq_dec : EqDecision git_call.
Proof. solve_decision. Defined.
Global Instance row_eq_dec : EqDecision row.
Proof. solve_decision. Defined.
Global Instance event_eq_dec : EqDecision event.
Proof. solve_decision. Defined.

(** ** The host *)

(** Everything the script asks of its surroundings, as functions of a world
    [W].  Queries leave the world alone; actions return the next world, also
    when they raise.  Repositories are addressed by their [RepoObj]. *)
Class Host (W : Type) := {
  (** [os.path.exists], [os.path.isdir]: never raise *)
  os_path_exists : string -> W -> bool;
  os_path_isdir : string -> W -> bool;
  (** [os.listdir]: the entries, or the text of the [OSError] *)
  os_listdir : string -> W -> string + list string;
  (** [os.path.expanduser("~/.bashrc")] and [os.path.abspath(__file__)] *)
  bashrc_path : string;
  script_path : string;
  (** [open(p).read()], [open(p, "a").write(s)], [open(p, "w").write(s)] *)
  file_read : string -> W -> outcome string;
  file_append : string -> string -> W -> outcome unit * W;
  file_write : string -> string -> W -> outcome unit * W;
  (** [input()]: the next line typed by the operator *)
  stdin_readline : W -> outcome string * W;
  (** [str.lower], [str.isdigit], [int(str)] *)
  str_lower : string -> string;
  str_isdigit : string -> bool;
  int_of_str : string -> outcome Z;
  (** [Repo(path)]: raises when [path] is not a repository *)
  git_Repo : string -> W -> outcome unit;
  (** [repo.active_branch.name]: raises on a detached HEAD *)
  git_active_branch : RepoObj -> W -> outcome string;
  (** [repo.is_dirty(untracked_files=True)] *)
  git_is_dirty : RepoObj -> W -> outcome bool;
  (** the names of [repo.remotes] *)
  git_remotes : RepoObj -> W -> outcome (list string);
  (** [branch.tracking_branch()]: the name of the remote reference, if any *)
  git_tracking_branch : RepoObj -> string -> W -> outcome (option string);
  (** the number of commits of [repo.iter_commits(rev)] *)
  git_count_commits : RepoObj -> string -> W -> outcome nat;
  (** the [a_path]s of [repo.index.diff(None)], and [repo.untracked_files] *)
  git_index_diff : RepoObj -> W -> outcome (list string);
  git_untracked_files : RepoObj -> W -> outcome (list string);
  (** [remote.fetch()], [repo.git.add(all=True)], [repo.index.commit(msg)],
      [remote.pull()]: the script uses none of their values *)
  git_fetch : Remote -> W -> outcome unit * W;
  git_add_all : RepoObj -> W -> outcome unit * W;
  git_index_commit : RepoObj -> string -> W -> outcome unit * W;
  git_pull : Remote -> W -> outcome unit * W;
  (** [remote.push()]: raises when the remote cannot be reached, and
      otherwise returns one [PushInfo] for each reference, refused or not *)
  git_push : Remote -> W -> outcome (list PushInfo) * W
}.

(** ** The monad *)

Section Script.
Context {W : Type} `{HostW : Host W}.

(** A run: how it ended, the local variables and the world it left, and what
    it printed and called, in order. *)
Record Run (L A : Type) := mkRun {
  res : outcome A;
  store : L;
  world : W;
  out : list event
}.
Arguments mkRun {L A} _ _ _ _.
Arguments res {L A} _.
Arguments store {L A} _.
Arguments world {L A} _.
Arguments out {L A} _.

(** A piece of script with local variables of type [L]. *)
Definition M (L A : Type) : Type := L -> W -> Run L A.

Definition ret {L A} (a : A) : M L A := fun s w => mkRun (Ok a) s w [].

Definition raise {L A} (e : exn) : M L A := fun s w => mkRun (Raise e) s w [].

Definition bind {L A B} (m : M L A) (k : A -> M L B) : M L B :=
  fun s w =>
    match m s w with
    | mkRun (Ok a) s1 w1 o1 =>
        match k a s1 w1 with
        | mkRun r s2 w2 o2 => mkRun r s2 w2 (o1 ++ o2)
        end
    | mkRun (Raise e) s1 w1 o1 => mkRun (Raise e) s1 w1 o1
    end.

(** [try: m  except <catches> as e: handler e].  Assignments and output made
    before the exception stay. *)
Definition try_except {L A} (m : M L A) (catches : exn -> bool)
    (handler : exn -> M L A) : M L A :=
  fun s w =>
    match m s w with
    | mkRun (Ok a) s1 w1 o1 => mkRun (Ok a) s1 w1 o1
    | mkRun (Raise e) s1 w1 o1 =>
        if catches e then
          match handler e s1 w1 with
          | mkRun r s2 w2 o2 => mkRun r s2 w2 (o1 ++ o2)
          end
        else mkRun (Raise e) s1 w1 o1
    end.

Definition get {L} : M L L := fun s w => mkRun (Ok s) s w [].
Definition put {L} (s : L) : M L unit := fun _ w => mkRun (Ok tt) s w [].
Definition modify {L} (f : L -> L) : M L unit := fun s w => mkRun (Ok tt) (f s) w [].

Definition emit {L} (e : event) : M L unit := fun s w => mkRun (Ok tt) s w [e].

(** a query of the host *)
Definition ask {L A} (q : W -> A) : M L A := fun s w => mkRun (Ok (q w)) s w [].
(** a query that may raise *)
Definition query {L A} (q : W -> outcome A) : M L A := fun s w => mkRun (q w) s w [].
(** an action on the host *)
Definition act {L A} (a : W -> outcome A * W) : M L A :=
  fun s w => let '(r, w1) := a w in mkRun r s w1 [].

(** A call of a function with local variables of its own. *)
Definition call {L L' A} (locals : L') (m : M L' A) : M L A :=
  fun s w =>
    match m locals w with
    | mkRun r _ w1 o1 => mkRun r s w1 o1
    end.

End Script.

Arguments M W L A : clear implicits.
Arguments Run W L A : clear implicits.
Arguments mkRun {W L A} _ _ _ _.
Arguments res {W L A} _.
Arguments store {W L A} _.
Arguments world {W L A} _.
Arguments out {W L A} _.

Declare Scope script_scope.
Delimit Scope script_scope with script.
Notation "x <- c1 ;; c2" := (bind c1 (fun x => c2))
  (at level 100, c1 at next level, right associativity) : script_scope.
Notation "c1 ;; c2" := (bind c1 (fun _ => c2))
  (at level 100, right associativity) : script_scope.

Local Open Scope script_scope.

(** ** The script *)

Section FleetOps.
Context {W : Type} `{HostW : Host W}.

(** The value of the environment variable [PREFIX] at start-up. *)
Variable PREFIX : string.

(** Scripts on this host. *)
Local Abbreviation Py := (M W).

(** [for x in l: body x] *)
Fixpoint for_each {L A} (l : list A) (body : A -> Py L unit) : Py L unit :=
  match l with
  | [] => ret tt
  | x :: l' => body x ;; for_each l' body
  end.

(** *** Built-ins and GitPython, with the calls logged *)

Definition print {L} (line : string) : Py L unit := emit (Print line).

Definition input {L} (prompt : string) : Py L string :=
  emit (Prompt prompt) ;; act stdin_readline.

Definition listdir {L} (p : string) : Py L (list string) :=
  query (fun w => match os_listdir p w with
                  | inl msg => Raise (Exn OSError msg)
                  | inr entries => Ok entries
                  end).

Definition Repo {L} (repo_path : string) : Py L RepoObj :=
  emit (Git (RepoOpen repo_path)) ;;
  query (git_Repo repo_path) ;;
  ret {| working_dir := repo_path |}.

(** [repo.remotes.origin]: the attribute lookup on the list of remotes
    raises [AttributeError] when none of them is called [origin]. *)
Definition remotes_origin {L} (r : RepoObj) : Py L Remote :=
  names <- query (git_remotes r) ;;
  if bool_decide ("origin" ∈ names)
  then ret {| remote_repo := r; remote_name := "origin" |}
  else raise no_origin_error.

Definition fetch {L} (r : Remote) : Py L unit :=
  emit (Git (Fetch r)) ;; act (git_fetch r).
Definition add_all {L} (r : RepoObj) : Py L unit :=
  emit (Git (AddAll r)) ;; act (git_add_all r).
Definition index_commit {L} (r : RepoObj) (message : string) : Py L unit :=
  emit (Git (Commit r message)) ;; act (git_index_commit r message).
Definition pull {L} (r : Remote) : Py L unit :=
  emit (Git (Pull r)) ;; act (git_pull r).
Definition push {L} (r : Remote) : Py L (list PushInfo) :=
  emit (Git (Push r)) ;; act (git_push r).

(** [sum(1 for c in repo.iter_commits(rev))] *)
Definition count_commits {L} (r : RepoObj) (rev : string) : Py L Z :=
  n <- query (git_count_commits r rev) ;; ret (Z.of_nat n).

(** *** [check_permissions] (lines 48-57) *)

Definition check_permissions {L} : Py L bool :=
  root_exists <- ask (os_path_exists (ROOT_DIR PREFIX)) ;;
  if negb root_exists then
    print ("⚠️  WARNING: Cannot find directory: " +:+ ROOT_DIR PREFIX) ;;
    print ("   Current Mode: " +:+ DEVICE_NAME PREFIX) ;;
    (if str_in "Mobile" (DEVICE_NAME PREFIX) then
       print "   1. Check if the folder exists." ;;
       print "   2. Run: termux-setup-storage"
     else ret tt) ;;
    ret false
  else ret true.

(** *** [setup_alias] (lines 59-83) *)

Definition setup_alias {L} : Py L unit :=
  let alias_cmd := "alias fleet=" +:+ dquote +:+ "python " +:+ script_path +:+ dquote in
  print (nl +:+ "🛠️  Configuring Alias for " +:+ DEVICE_NAME PREFIX +:+ "...") ;;
  already <- try_except
               (content <- query (file_read bashrc_path) ;;
                if str_in alias_cmd content then
                  print "   ✅ 'fleet' alias is already active!" ;; ret true
                else ret false)
               is_FileNotFoundError
               (fun _ => ret false) ;;
  if already : bool then ret tt
  else
    act (file_append bashrc_path (nl +:+ alias_cmd +:+ nl)) ;;
    print "   ✨ Success! Alias added." ;;
    print "   ⚠️  Please restart your terminal (or type 'source ~/.bashrc') to use it.".

(** *** [create_gitignore] (lines 85-93) *)

Definition create_gitignore {L} (repo_path : string) : Py L unit :=
  let ignore_path := os_path_join repo_path ".gitignore" in
  ignore_exists <- ask (os_path_exists ignore_path) ;;
  if negb ignore_exists then
    act (file_write ignore_path DEFAULT_IGNORE) ;;
    print "      ✨ Created default .gitignore"
  else print "      ⚠️  .gitignore already exists.".

(** *** [get_git_status] (lines 95-133) *)

(** The body of the [try] under [# 2. Check Sync] (lines 121-128); the local
    variable is the [status] dictionary, so an assignment made before an
    exception stays. *)
Definition check_sync (r : RepoObj) : Py status unit :=
  origin <- remotes_origin r ;;
  fetch origin ;;
  local_branch <- query (git_active_branch r) ;;
  remote_branch <- query (git_tracking_branch r local_branch) ;;
  match remote_branch with
  | Some remote_branch =>
      n_behind <- count_commits r (local_branch +:+ ".." +:+ remote_branch) ;;
      modify (set_behind n_behind) ;;
      n_ahead <- count_commits r (remote_branch +:+ ".." +:+ local_branch) ;;
      modify (set_ahead n_ahead)
  | None => ret tt
  end.

(** The body of the outer [try] after the creation of [status] (lines
    109-131). *)
Definition inspect (r : RepoObj) : Py status (option status) :=
  try_except
    (b <- query (git_active_branch r) ;; modify (set_branch b))
    any_exception
    (fun _ => modify (set_branch "DETACHED")) ;;
  is_dirty <- query (git_is_dirty r) ;;
  (if is_dirty : bool then modify (set_dirty true) else ret tt) ;;
  try_except (check_sync r) any_exception (fun _ => ret tt) ;;
  st <- get ;;
  ret (Some st).

Definition get_git_status {L} (repo_path : string) : Py L (option status) :=
  try_except
    (r <- Repo repo_path ;;
     call {| path := repo_path; name := os_path_basename repo_path;
             dirty := false; ahead := 0; behind := 0; repo := r;
             branch := "unknown" |}
          (inspect r))
    any_exception
    (fun _ => ret None).

(** *** [show_file_details] (lines 135-147) *)

Definition show_file_details {L} (r : RepoObj) : Py L unit :=
  print (nl +:+ "   📄 File Status for [" +:+ os_path_basename (working_dir r) +:+ "]:") ;;
  changed <- query (git_index_diff r) ;;
  for_each changed (fun a_path => print ("      ✏️  Modified: " +:+ a_path)) ;;
  untracked <- query (git_untracked_files r) ;;
  for_each untracked (fun item => print ("      🆕 New File: " +:+ item)) ;;
  print "".

(** *** [sync_repo] (lines 149-175) *)

Definition processing_line (repo_data : status) : string :=
  "   ⚙️  Processing: " +:+ name repo_data +:+ "...".
Definition error_syncing_line (e : exn) : string :=
  "      ❌ Error syncing: " +:+ exn_str e.
Definition already_clean_line : string := "      ✨ Already clean.".

(** The block under [# Save] (lines 154-159). *)
Definition sync_save {L} (repo_data : status) (auto_message : string) : Py L unit :=
  if dirty repo_data then
    show_file_details (repo repo_data) ;;
    add_all (repo repo_data) ;;
    index_commit (repo repo_data) auto_message ;;
    print "      ✅ Local changes saved."
  else ret tt.

(** The body of the [try] under [# Push/Pull] (lines 163-172). *)
Definition sync_push_pull {L} (repo_data : status) : Py L unit :=
  origin <- remotes_origin (repo repo_data) ;;
  (if 0 <? behind repo_data then
     pull origin ;; print "      ✅ Pulled down new changes."
   else ret tt) ;;
  (if dirty repo_data || (0 <? ahead repo_data) then
     push origin ;; print "      ✅ Pushed up to Cloud."
   else ret tt) ;;
  (if negb (dirty repo_data) && (ahead repo_data =? 0) && (behind repo_data =? 0) then
     print already_clean_line
   else ret tt).

Definition sync_repo {L} (repo_data : status) (auto_message : string) : Py L unit :=
  print (processing_line repo_data) ;;
  sync_save repo_data auto_message ;;
  try_except (sync_push_pull repo_data) is_Exception
    (fun e => print (error_syncing_line e)).

(** *** [main_dashboard] (lines 177-263) *)

Definition status_row (n : nat) (stat : status) : row :=
  let icon_msg :=
    if dirty stat then ("⚠️ ", "Unsaved Work")
    else if 0 <? ahead stat then ("⬆️ ", "Ahead (+" +:+ str_int (ahead stat) +:+ ")")
    else if 0 <? behind stat then ("⬇️ ", "Behind (-" +:+ str_int (behind stat) +:+ ")")
    else ("✅", "Synced") in
  {| row_index := n; row_icon := icon_msg.1; row_name := name stat;
     row_branch := branch stat; row_msg := icon_msg.2 |}.

(** The body of the [for folder_name in folder_list] loop (lines 194-213);
    the local variable is [repos_found]. *)
Definition scan_folder (folder_name : string) : Py (list status) unit :=
  let folder_path := os_path_join (ROOT_DIR PREFIX) folder_name in
  is_repo <- ask (fun w => os_path_isdir folder_path w &&
                           os_path_isdir (os_path_join folder_path ".git") w) ;;
  if is_repo : bool then
    stat <- get_git_status folder_path ;;
    match stat with
    | Some stat =>
        modify (fun repos_found : list status => (repos_found ++ [stat])%list) ;;
        repos_found <- get ;;
        emit (PrintRow (status_row (length repos_found) stat))
    | None => ret tt
    end
  else ret tt.

(** The block under [# SCAN], with its [except OSError] (lines 190-215). *)
Definition scan : Py (list status) unit :=
  try_except
    (root_exists <- ask (os_path_exists (ROOT_DIR PREFIX)) ;;
     if root_exists : bool then
       entries <- listdir (ROOT_DIR PREFIX) ;;
       for_each (sorted entries) scan_folder
     else ret tt)
    is_OSError
    (fun e => print ("❌ Error scanning: " +:+ exn_str e)).

(** The [for repo_data in repos_found] loop of the command [a] (lines
    248-249). *)
Definition batch_sync {L} (repos_found : list status) : Py L unit :=
  for_each repos_found (fun repo_data => sync_repo repo_data AUTO_MESSAGE).

(** [0 <= idx < len(repos_found)] and [repos_found[idx]] *)
Definition in_range (idx : Z) (repos_found : list status) : bool :=
  (0 <=? idx) && (idx <? Z.of_nat (length repos_found)).
Definition item {L} (repos_found : list status) (idx : Z) : Py L status :=
  match repos_found !! Z.to_nat idx with
  | Some target => ret target
  | None => raise (Exn IndexError "list index out of range")
  end.

(** The command [s] (lines 232-244). *)
Definition setup_menu : Py (list status) unit :=
  print (nl +:+ "🔧 SYSTEM SETUP") ;;
  print "   1. Install 'fleet' alias" ;;
  print "   2. Generate .gitignore for a repo" ;;
  sub <- input "   Select >> " ;;
  if String.eqb sub "1" then
    setup_alias ;; input "   Press Enter..." ;; ret tt
  else if String.eqb sub "2" then
    repos_found <- get ;;
    answer <- input ("   Repo Number (1-" +:+ str_int (Z.of_nat (length repos_found)) +:+ "): ") ;;
    n <- query (fun _ => int_of_str answer) ;;
    let idx := n - 1 in
    (if in_range idx repos_found then
       target <- item repos_found idx ;; create_gitignore (path target)
     else ret tt) ;;
    input "   Press Enter..." ;; ret tt
  else ret tt.

(** A numeric command (lines 251-263). *)
Definition manage_one (choice : string) : Py (list status) unit :=
  n <- query (fun _ => int_of_str choice) ;;
  let idx := n - 1 in
  repos_found <- get ;;
  if in_range idx repos_found then
    target <- item repos_found idx ;;
    print (nl +:+ "🚀 Managing: " +:+ name target) ;;
    (if dirty target then show_file_details (repo target) else ret tt) ;;
    answer <- input "   Sync this repo? (y/n): " ;;
    (if String.eqb (str_lower answer) "y" then
       typed <- input "   Enter commit message (or Enter for auto): " ;;
       sync_repo target (if String.eqb typed "" then UPDATE_MESSAGE else typed)
     else ret tt) ;;
    input (nl +:+ "Done. Press Enter...") ;; ret tt
  else ret tt.

(** One turn of [while True] (lines 183-263); the result says whether the
    loop goes on. *)
Definition dashboard_turn : Py (list status) bool :=
  emit Clear ;;
  print (nl +:+ "🌍 --- FLEET COMMANDER: " +:+ DEVICE_NAME PREFIX +:+ " ---") ;;
  print ("Scanning Sector: " +:+ ROOT_DIR PREFIX +:+ nl) ;;
  put [] ;;
  scan ;;
  repos_found <- get ;;
  (if bool_decide (repos_found = []) then
     print ("No repositories found in " +:+ ROOT_DIR PREFIX)
   else ret tt) ;;
  print (nl +:+ "-------------------------------------------") ;;
  print " A. Sync ALL repositories" ;;
  print " S. Setup Tools (Alias & .gitignore)" ;;
  print " R. Refresh" ;;
  print " Q. Quit" ;;
  typed <- input (nl +:+ "Command >> ") ;;
  let choice := str_lower typed in
  if String.eqb choice "q" then ret false
  else if String.eqb choice "r" then ret true
  else if String.eqb choice "s" then setup_menu ;; ret true
  else if String.eqb choice "a" then
    print (nl +:+ "🚀 STARTING BATCH SYNC...") ;;
    batch_sync repos_found ;;
    input (nl +:+ "Batch complete! Press Enter...") ;;
    ret true
  else if str_isdigit choice then manage_one choice ;; ret true
  else ret true.

(** [while True], for at most [fuel] turns: [None] when the fuel runs out
    before the operator quits. *)
Fixpoint dashboard_loop (fuel : nat) : Py (list status) (option unit) :=
  match fuel with
  | O => ret None
  | S fuel' =>
      go_on <- dashboard_turn ;;
      if go_on : bool then dashboard_loop fuel' else ret (Some tt)
  end.

Definition main_dashboard {L} (fuel : nat) : Py L (option unit) :=
  ok <- check_permissions ;;
  if negb ok then
    input "Press Enter to exit..." ;; ret (Some tt)
  else call [] (dashboard_loop fuel).

End FleetOps.

(** ** Reading a run *)

(** The GitPython calls of a log. *)
Definition calls (log : list event) : list git_call :=
  omap (fun e => match e with Git c => Some c | _ => None end) log.

(** The repositories that the scan opened. *)
Definition opened (log : list event) : list string :=
  omap (fun e => match e with Git (RepoOpen p) => Some p | _ => None end) log.

Definition origin_of (r : RepoObj) : Remote :=
  {| remote_repo := r; remote_name := "origin" |}.

(** The sync executor as the specification words it: commit when dirty,
    then pull when behind, then push when dirty or ahead. *)
Definition sync_sequence (st : status) (message : string) : list git_call :=
  ((if dirty st then [AddAll (repo st); Commit (repo st) message] else []) ++
   (if 0 <? behind st then [Pull (origin_of (repo st))] else []) ++
   (if dirty st || (0 <? ahead st) then [Push (origin_of (repo st))] else []))%list.

(** The [status] dictionary when the sync check starts: branch and dirty
    flag set, both counts still zero. *)
Definition before_sync (repo_path branch_name : string) (d : bool) : status :=
  {| path := repo_path; name := os_path_basename repo_path; dirty := d;
     ahead := 0; behind := 0; repo := {| working_dir := repo_path |};
     branch := branch_name |}.

(** The calls of the two blocks of [sync_repo] when nothing raises. *)
Definition save_calls (st : status) (message : string) : list git_call :=
  if dirty st then [AddAll (repo st); Commit (repo st) message] else [].

Definition remote_calls (st : status) : list git_call :=
  ((if 0 <? behind st then [Pull (origin_of (repo st))] else []) ++
   (if dirty st || (0 <? ahead st) then [Push (origin_of (repo st))] else []))%list.

(** What [check_permissions] prints when the root is missing. *)
Definition warning_lines (PREFIX : string) : list event :=
  ([Print ("⚠️  WARNING: Cannot find directory: " +:+ ROOT_DIR PREFIX);
    Print ("   Current Mode: " +:+ DEVICE_NAME PREFIX)] ++
   (if str_in "Mobile" (DEVICE_NAME PREFIX)
    then [Print "   1. Check if the folder exists.";
          Print "   2. Run: termux-setup-storage"]
    else []))%list.

(** How every turn of the dashboard starts. *)
Definition turn_opening (PREFIX : string) : list event :=
  [Clear;
   Print (nl +:+ "🌍 --- FLEET COMMANDER: " +:+ DEVICE_NAME PREFIX +:+ " ---");
   Print ("Scanning Sector: " +:+ ROOT_DIR PREFIX +:+ nl)].

Definition no_repositories_line (PREFIX : string) : string :=
  "No repositories found in " +:+ ROOT_DIR PREFIX.

Section Conditions.
Context {W : Type} `{HostW : Host W}.

(** Listing the changes, staging and committing succeed on [r]. *)
Definition saves_cleanly (r : RepoObj) : Prop :=
  (forall w, is_Ok (git_index_diff r w)) /\
  (forall w, is_Ok (git_untracked_files r w)) /\
  (forall w, is_Ok (git_add_all r w).1) /\
  (forall message w, is_Ok (git_index_commit r message w).1).

(** [r] has a remote called [origin]. *)
Definition has_origin (r : RepoObj) (w : W) : Prop :=
  exists names, git_remotes r w = Ok names /\ "origin" ∈ names.

(** [r] has remotes, none of them called [origin] (possibly none at all). *)
Definition lacks_origin (r : RepoObj) (w : W) : Prop :=
  exists names, git_remotes r w = Ok names /\ "origin" ∉ names.

(** [origin] is there and pulling from and pushing to it succeed. *)
Definition remote_cooperates (r : RepoObj) : Prop :=
  (forall w, has_origin r w) /\
  (forall w, is_Ok (git_pull (origin_of r) w).1) /\
  (forall w, is_Ok (git_push (origin_of r) w).1).


(** On a dirty [st] the changes can be listed, and then staging raises [e],
    or staging succeeds and committing raises [e]. *)
Definition save_raises (st : status) (message : string) (w : W) (e : exn) : Prop :=
  dirty st = true /\
  is_Ok (git_index_diff (repo st) w) /\
  is_Ok (git_untracked_files (repo st) w) /\
  ((git_add_all (repo st) w).1 = Raise e \/
   ((git_add_all (repo st) w).1 = Ok tt /\
    (git_index_commit (repo st) message (git_add_all (repo st) w).2).1 = Raise e)).

(** The branch that [get_git_status] records. *)
Definition resolved_branch (r : RepoObj) (w : W) : string :=
  match git_active_branch r w with
  | Ok b => b
  | Raise _ => "DETACHED"
  end.

(** After the fetch, the current branch has no tracking branch. *)
Definition no_tracking (r : RepoObj) (w : W) : Prop :=
  forall b,
    git_active_branch r (git_fetch (origin_of r) w).2 = Ok b ->
    git_tracking_branch r b (git_fetch (origin_of r) w).2 = Ok None.

(** [r] has [origin], the fetch goes through, and the current branch and
    the branch it tracks have the same commits. *)
Definition fully_synced (r : RepoObj) (w : W) : Prop :=
  has_origin r w /\
  exists w1 b rb,
    git_fetch (origin_of r) w = (Ok tt, w1) /\
    git_active_branch r w1 = Ok b /\
    git_tracking_branch r b w1 = Ok (Some rb) /\
    git_count_commits r (b +:+ ".." +:+ rb) w1 = Ok 0%nat /\
    git_count_commits r (rb +:+ ".." +:+ b) w1 = Ok 0%nat.

(** A folder of the root qualifies for the scan when it is a directory
    with a [.git] directory inside. *)
Definition qualifies (PREFIX : string) (w : W) (folder_name : string) : bool :=
  os_path_isdir (os_path_join (ROOT_DIR PREFIX) folder_name) w &&
  os_path_isdir (os_path_join (os_path_join (ROOT_DIR PREFIX) folder_name) ".git") w.


(** Every folder among [names] that qualifies opens as a repository whose
    dirty check succeeds. *)
Definition all_inspectable (PREFIX : string) (names : list string) : Prop :=
  forall n w, n ∈ names -> qualifies PREFIX w n = true ->
    is_Ok (git_Repo (os_path_join (ROOT_DIR PREFIX) n) w) /\
    is_Ok (git_is_dirty {| working_dir := os_path_join (ROOT_DIR PREFIX) n |} w).

(** Fetching does not create or remove directories. *)
Definition fetch_keeps_directories : Prop :=
  forall r w p, os_path_isdir p (git_fetch r w).2 = os_path_isdir p w.

(** What a logged call asks of the host: how it ends and the world it
    leaves.  The list that a push returns is dropped, as the script drops
    it. *)
Definition perform (c : git_call) (w : W) : outcome unit * W :=
  match c with
  | RepoOpen repo_path => (git_Repo repo_path w, w)
  | Fetch r => git_fetch r w
  | AddAll r => git_add_all r w
  | Commit r message => git_index_commit r message w
  | Pull r => git_pull r w
  | Push r =>
      match git_push r w with
      | (Ok _, w1) => (Ok tt, w1)
      | (Raise e, w1) => (Raise e, w1)
      end
  end.

(** Calls made one after the other: the calls made, how the last of them
    ended, and the world that is left. *)
Record effect := { calls_made : list git_call; ending : outcome unit; world_left : W }.

(** The calls of [l] made in order from [w], up to and including the first
    that raises. *)
Fixpoint perform_all (l : list git_call) (w : W) : effect :=
  match l with
  | [] => {| calls_made := []; ending := Ok tt; world_left := w |}
  | c :: l' =>
      match perform c w with
      | (Ok _, w1) =>
          let then_ := perform_all l' w1 in
          {| calls_made := c :: calls_made then_; ending := ending then_;
             world_left := world_left then_ |}
      | (Raise e, w1) => {| calls_made := [c]; ending := Raise e; world_left := w1 |}
      end
  end.

(** The changes of a dirty [st] can be listed, which [sync_repo] does before
    it stages them. *)
Definition changes_listed (st : status) (w : W) : Prop :=
  dirty st = true ->
  is_Ok (git_index_diff (repo st) w) /\ is_Ok (git_untracked_files (repo st) w).

(** The sync check of [r] raises before it has assigned anything: at
    [repo.remotes], at the lookup of [origin], at the fetch, at one of the
    two branch look-ups after it, or at the first count. *)
Definition sync_check_fails_early (r : RepoObj) (w : W) : Prop :=
  is_Raise (git_remotes r w) \/
  lacks_origin r w \/
  is_Raise (git_fetch (origin_of r) w).1 \/
  is_Raise (git_active_branch r (git_fetch (origin_of r) w).2) \/
  exists b,
    git_active_branch r (git_fetch (origin_of r) w).2 = Ok b /\
    (is_Raise (git_tracking_branch r b (git_fetch (origin_of r) w).2) \/
     exists rb,
       git_tracking_branch r b (git_fetch (origin_of r) w).2 = Ok (Some rb) /\
       is_Raise (git_count_commits r (b +:+ ".." +:+ rb) (git_fetch (origin_of r) w).2)).

(** The sync check of [r] raises at the second count, the first having
    given [n]. *)
Definition sync_check_fails_late (r : RepoObj) (w : W) (n : nat) : Prop :=
  has_origin r w /\
  exists w1 b rb,
    git_fetch (origin_of r) w = (Ok tt, w1) /\
    git_active_branch r w1 = Ok b /\
    git_tracking_branch r b w1 = Ok (Some rb) /\
    git_count_commits r (b +:+ ".." +:+ rb) w1 = Ok n /\
    is_Raise (git_count_commits r (rb +:+ ".." +:+ b) w1).
End Conditions.

Arguments effect W : clear implicits.

(** ** A simulated host *)

(** The simulated fleet lives under the laptop root and holds two
    repositories, [alpha] and [beta], a plain directory [docs] and a file
    [notes.txt].  Every repository is on branch [main], tracks [origin/main],
    and is two commits behind and one ahead.  A scenario is a list of
    departures from that. *)
Inductive trait :=
  | NoRoot
  | ListingDenied
  | Corrupt (p : string)
  | Detached (p : string)
  | Dirty (p : string)
  | DirtyCheckFails (p : string)
  | NoRemote (p : string)
  | OnlyRemote (p : string) (remote : string)
  | NoTracking (p : string)
  | InSync (p : string)
  | FetchFails (p : string)
  | AddFails (p : string)
  | CommitFails (p : string)
  | PullFails (p : string)
  | PushFails (p : string)
  | PushRejected (p : string).

Global Instance trait_eq_dec : EqDecision trait.
Proof. solve_decision. Defined.

(** The simulated world: what the operator will type, and the operations
    that went through. *)
Record sim := { sim_stdin : list string; sim_journal : list git_call }.

Definition sim_root : string := ROOT_DIR "".

Definition journal (c : git_call) (w : sim) : sim :=
  {| sim_stdin := sim_stdin w; sim_journal := (sim_journal w ++ [c])%list |}.

Definition git_error (text : string) : exn := Exn GitCommandError text.

Definition sim_action (failed : bool) (text : string) (c : git_call) (w : sim)
    : outcome unit * sim :=
  if failed then (Raise (git_error text), w) else (Ok tt, journal c w).

(** What a push returns for the one branch: updated by a fast forward
    ([FAST_FORWARD], 256), or refused because the remote has commits that
    the branch lacks ([REJECTED] and [ERROR], 8 + 1024). *)
Definition pushed_info : PushInfo :=
  {| push_flags := 256; push_summary := "3f9a1c2..b7e4d10" |}.
Definition rejected_info : PushInfo :=
  {| push_flags := 1032; push_summary := "[rejected] (fetch first)" |}.

(** A push on the simulated host: it raises when [failed]; when [rejected]
    it returns the refusal and nothing has gone through. *)
Definition sim_push (failed rejected : bool) (c : git_call) (w : sim)
    : outcome (list PushInfo) * sim :=
  if failed then (Raise (git_error "push: authentication failed"), w)
  else if rejected then (Ok [rejected_info], w)
  else (Ok [pushed_info], journal c w).

Definition lower_ascii (c : Ascii.ascii) : Ascii.ascii :=
  let n := Ascii.nat_of_ascii c in
  if (65 <=? n)%nat && (n <=? 90)%nat then Ascii.ascii_of_nat (n + 32) else c.

Fixpoint sim_lower (s : string) : string :=
  match s with
  | "" => ""
  | String c s' => String (lower_ascii c) (sim_lower s')
  end.

Definition is_digit (c : Ascii.ascii) : bool :=
  let n := Ascii.nat_of_ascii c in (48 <=? n)%nat && (n <=? 57)%nat.

Fixpoint all_digits (s : string) : bool :=
  match s with
  | "" => true
  | String c s' => is_digit c && all_digits s'
  end.

(** [str.isdigit] and [int] of the simulated host know the ASCII digits
    only.  Python's own accept more ([isdigit] every Unicode digit, [int]
    also blanks around the number, a sign and underscores) and word the
    [ValueError] after the string; the properties below take both
    functions from the host, the scenarios alone use these two. *)
Definition sim_isdigit (s : string) : bool :=
  negb (String.eqb s "") && all_digits s.

Definition sim_int (s : string) : outcome Z :=
  match NilZero.uint_of_string s with
  | Some n => if sim_isdigit s then Ok (Z.of_uint n)
              else Raise (Exn ValueError "invalid literal for int()")
  | None => Raise (Exn ValueError "invalid literal for int()")
  end.

Fixpoint sim_remotes (traits : list trait) (p : string) : list string :=
  match traits with
  | [] => ["origin"]
  | NoRemote q :: traits' => if String.eqb q p then [] else sim_remotes traits' p
  | OnlyRemote q remote :: traits' =>
      if String.eqb q p then [remote] else sim_remotes traits' p
  | _ :: traits' => sim_remotes traits' p
  end.

Definition sim_host (traits : list trait) : Host sim := {|
  os_path_exists p w :=
    if String.eqb p sim_root then negb (bool_decide (NoRoot ∈ traits)) else false;
  os_path_isdir p w :=
    bool_decide (p ∈ [sim_root +:+ "alpha"; sim_root +:+ "alpha/.git";
                      sim_root +:+ "beta"; sim_root +:+ "beta/.git";
                      sim_root +:+ "docs"]);
  os_listdir p w :=
    if bool_decide (ListingDenied ∈ traits)
    then inl ("[Errno 13] Permission denied: '" +:+ p +:+ "'")
    else inr ["docs"; "beta"; "notes.txt"; "alpha"];
  bashrc_path := "/home/sauron/.bashrc";
  script_path := "/home/sauron/fleet_ops.py";
  file_read p w := Raise (Exn FileNotFoundError "[Errno 2] No such file or directory");
  file_append p text w := (Ok tt, w);
  file_write p text w := (Ok tt, w);
  stdin_readline w :=
    match sim_stdin w with
    | [] => (Raise (Exn EOFError "EOF when reading a line"), w)
    | line :: rest => (Ok line, {| sim_stdin := rest; sim_journal := sim_journal w |})
    end;
  str_lower := sim_lower;
  str_isdigit := sim_isdigit;
  int_of_str := sim_int;
  git_Repo p w :=
    if bool_decide (Corrupt p ∈ traits)
    then Raise (Exn InvalidGitRepositoryError p) else Ok tt;
  git_active_branch r w :=
    if bool_decide (Detached (working_dir r) ∈ traits)
    then Raise (Exn TypeError "HEAD is a detached symbolic reference")
    else Ok "main";
  git_is_dirty r w :=
    if bool_decide (DirtyCheckFails (working_dir r) ∈ traits)
    then Raise (git_error "git diff: index file corrupt")
    else Ok (bool_decide (Dirty (working_dir r) ∈ traits));
  git_remotes r w := Ok (sim_remotes traits (working_dir r));
  git_tracking_branch r b w :=
    Ok (if bool_decide (NoTracking (working_dir r) ∈ traits) then None
        else Some ("origin/" +:+ b));
  git_count_commits r rev w :=
    Ok (if bool_decide (InSync (working_dir r) ∈ traits) then 0%nat
        else if String.eqb rev "main..origin/main" then 2%nat
        else if String.eqb rev "origin/main..main" then 1%nat else 0%nat);
  git_index_diff r w := Ok ["README.md"];
  git_untracked_files r w := Ok ["todo.txt"];
  git_fetch r w :=
    sim_action (bool_decide (FetchFails (working_dir (remote_repo r)) ∈ traits))
      "fetch: could not resolve host" (Fetch r) w;
  git_add_all r w :=
    sim_action (bool_decide (AddFails (working_dir r) ∈ traits))
      "add: unable to create index.lock" (AddAll r) w;
  git_index_commit r message w :=
    sim_action (bool_decide (CommitFails (working_dir r) ∈ traits))
      "commit: unable to write object" (Commit r message) w;
  git_pull r w :=
    sim_action (bool_decide (PullFails (working_dir (remote_repo r)) ∈ traits))
      "pull: merge conflict" (Pull r) w;
  git_push r w :=
    sim_push (bool_decide (PushFails (working_dir (remote_repo r)) ∈ traits))
      (bool_decide (PushRejected (working_dir (remote_repo r)) ∈ traits))
      (Push r) w
|}.

(** The operator has typed [lines]; nothing has been done yet. *)
Definition fresh (lines : list string) : sim :=
  {| sim_stdin := lines; sim_journal := [] |}.

(** The status of a simulated repository, as a scan would have built it. *)
Definition sim_status (folder : string) (d : bool) (a b : Z) : status :=
  {| path := sim_root +:+ folder; name := folder; dirty := d; ahead := a;
     behind := b; repo := {| working_dir := sim_root +:+ folder |};
     branch := "main" |}.

(** ** More ways to read a run *)

(** Calls that leave the working tree, the history and the remote alone. *)
Definition inspects_only (c : git_call) : bool :=
  match c with
  | RepoOpen _ | Fetch _ => true
  | _ => false
  end.

(** The rows of the repository table that a log shows. *)
Definition rows (log : list event) : list row :=
  omap (fun e => match e with PrintRow r => Some r | _ => None end) log.

(** The prompts of a log, in the order they were asked. *)
Definition prompts (log : list event) : list string :=
  omap (fun e => match e with Prompt text => Some text | _ => None end) log.

(** The table of a list of repositories: a row each, numbered from
    [first]. *)
Fixpoint table_from (first : nat) (repos_found : list status) : list row :=
  match repos_found with
  | [] => []
  | stat :: rest => status_row first stat :: table_from (S first) rest
  end.

Definition table (repos_found : list status) : list row := table_from 1 repos_found.

(** The menu under the table, and the prompt of the command. *)
Definition menu_lines : list event :=
  [Print (nl +:+ "-------------------------------------------");
   Print " A. Sync ALL repositories";
   Print " S. Setup Tools (Alias & .gitignore)";
   Print " R. Refresh";
   Print " Q. Quit"].

Definition command_prompt : string := nl +:+ "Command >> ".

(** What a turn of the dashboard shows before it reads the command:
    [scanned] is the output of its scan, [repos_found] the list it built. *)
Definition turn_screen (PREFIX : string) (scanned : list event)
    (repos_found : list status) : list event :=
  (turn_opening PREFIX ++ scanned ++
   (if bool_decide (repos_found = [])
    then [Print (no_repositories_line PREFIX)] else []) ++
   menu_lines ++ [Prompt command_prompt])%list.

(** The run of a turn whose command ran as [command] after [screen] was
    shown: the loop goes on unless the command raised. *)
Definition then_go_on {W L} (screen : list event) (command : Run W L unit)
    : Run W L bool :=
  mkRun (match res command with Ok _ => Ok true | Raise e => Raise e end)
        (store command) (world command) (screen ++ out command)%list.

(** What an [input] whose answer is thrown away leaves of it. *)
Definition acknowledged (answer : outcome string) : outcome unit :=
  match answer with
  | Ok _ => Ok tt
  | Raise e => Raise e
  end.

(** What the setup menu shows, and the prompt of its option 2. *)
Definition setup_lines : list event :=
  [Print (nl +:+ "🔧 SYSTEM SETUP");
   Print "   1. Install 'fleet' alias";
   Print "   2. Generate .gitignore for a repo";
   Prompt "   Select >> "].

Definition number_prompt (repos_found : list status) : string :=
  "   Repo Number (1-" +:+ str_int (Z.of_nat (length repos_found)) +:+ "): ".

Section Keeping.
Context {W : Type}.

(** A piece of script that leaves the local variables as they are, however
    it ends. *)
Definition keeps_store {L A} (m : M W L A) : Prop :=
  forall s w, store (m s w) = s.
End Keeping.

(** ** The commands and the setup tools, named *)

Section Tools.
Context {W : Type} `{HostW : Host W}.

(** The command [a] (lines 246-250). *)
Definition sync_all {L} (repos_found : list status) : M W L unit :=
  print (nl +:+ "🚀 STARTING BATCH SYNC...") ;;
  batch_sync repos_found ;;
  input (nl +:+ "Batch complete! Press Enter...") ;;
  ret tt.

(** The line that [setup_alias] looks for, and what it appends. *)
Definition alias_cmd : string :=
  "alias fleet=" +:+ dquote +:+ "python " +:+ script_path +:+ dquote.

Definition alias_line : string := nl +:+ alias_cmd +:+ nl.

Definition configuring_line (PREFIX : string) : string :=
  nl +:+ "🛠️  Configuring Alias for " +:+ DEVICE_NAME PREFIX +:+ "...".

(** What is appended to a file can be read back, after what was there. *)
Definition appends_are_read : Prop :=
  forall p text w w',
    file_append p text w = (Ok tt, w') ->
    file_read p w' =
      Ok (match file_read p w with Ok old => old +:+ text | Raise _ => text end).

(** A file that was written exists. *)
Definition writes_create : Prop :=
  forall p text w w', file_write p text w = (Ok tt, w') -> os_path_exists p w' = true.
End Tools.

(** ** More of the simulated fleet *)

(** The world of the simulated fleet after one scan that leaves [lines] to
    read: both repositories were fetched. *)
Definition sim_scanned (lines : list string) : sim :=
  {| sim_stdin := lines;
     sim_journal := [Fetch (origin_of {| working_dir := sim_root +:+ "alpha" |});
                     Fetch (origin_of {| working_dir := sim_root +:+ "beta" |})] |}.

(** The two repositories as that scan lists them. *)
Definition sim_alpha : status := sim_status "alpha" false 1 2.
Definition sim_beta : status := sim_status "beta" false 1 2.

(** The simulated fleet with an operator who interrupts every pull. *)
Definition interrupted : exn := Exn KeyboardInterrupt "".

Definition interrupting_host : Host sim := {|
  os_path_exists := os_path_exists (Host := sim_host []);
  os_path_isdir := os_path_isdir (Host := sim_host []);
  os_listdir := os_listdir (Host := sim_host []);
  bashrc_path := bashrc_path (Host := sim_host []);
  script_path := script_path (Host := sim_host []);
  file_read := file_read (Host := sim_host []);
  file_append := file_append (Host := sim_host []);
  file_write := file_write (Host := sim_host []);
  stdin_readline := stdin_readline (Host := sim_host []);
  str_lower := sim_lower;
  str_isdigit := sim_isdigit;
  int_of_str := sim_int;
  git_Repo := git_Repo (Host := sim_host []);
  git_active_branch := git_active_branch (Host := sim_host []);
  git_is_dirty := git_is_dirty (Host := sim_host []);
  git_remotes := git_remotes (Host := sim_host []);
  git_tracking_branch := git_tracking_branch (Host := sim_host []);
  git_count_commits := git_count_commits (Host := sim_host []);
  git_index_diff := git_index_diff (Host := sim_host []);
  git_untracked_files := git_untracked_files (Host := sim_host []);
  git_fetch := git_fetch (Host := sim_host []);
  git_add_all := git_add_all (Host := sim_host []);
  git_index_commit := git_index_commit (Host := sim_host []);
  git_pull r w := (Raise interrupted, w);
  git_push := git_push (Host := sim_host [])
|}.

(** ** A simulated disk *)

(** A second host, for the setup tools: directories, files with their
    contents, and the lines the operator will type.  Its repositories are
    the directories with a [.git] directory inside; they are clean and have
    no remote. *)
Record disk := {
  disk_dirs : list string;
  disk_files : list (string * string);
  disk_stdin : list string
}.

Fixpoint disk_lookup (p : string) (files : list (string * string)) : option string :=
  match files with
  | [] => None
  | (q, content) :: files' => if String.eqb q p then Some content else disk_lookup p files'
  end.

Fixpoint disk_store (p content : string) (files : list (string * string))
    : list (string * string) :=
  match files with
  | [] => [(p, content)]
  | (q, old) :: files' =>
      if String.eqb q p then (p, content) :: files'
      else (q, old) :: disk_store p content files'
  end.

(** [k] without its prefix [p] *)
Fixpoint disk_strip (p k : string) : option string :=
  match p, k with
  | "", _ => Some k
  | String a p', String b k' => if Ascii.eqb a b then disk_strip p' k' else None
  | String _ _, "" => None
  end.

(** the name of [k] inside the directory [d], if [k] lies directly in it *)
Definition disk_child (d k : string) : option string :=
  match disk_strip (if endswith_sep d then d else d +:+ String sep "") k with
  | Some rest => if negb (String.eqb rest "") && negb (has_sep rest) then Some rest else None
  | None => None
  end.

Definition disk_isdir (p : string) (w : disk) : bool := bool_decide (p ∈ disk_dirs w).

Definition disk_parent (p : string) (w : disk) : bool :=
  existsb (fun d => match disk_child d p with Some _ => true | None => false end) (disk_dirs w).

Definition no_such_file (p : string) : exn :=
  Exn FileNotFoundError ("[Errno 2] No such file or directory: '" +:+ p +:+ "'").

Definition is_a_directory (p : string) : exn :=
  Exn OSError ("[Errno 21] Is a directory: '" +:+ p +:+ "'").

(** [open(p, mode).write(content)], the new content given by [change] *)
Definition disk_put (p : string) (change : option string -> string) (w : disk)
    : outcome unit * disk :=
  if disk_isdir p w then (Raise (is_a_directory p), w)
  else if disk_parent p w then
    (Ok tt, {| disk_dirs := disk_dirs w;
               disk_files := disk_store p (change (disk_lookup p (disk_files w)))
                               (disk_files w);
               disk_stdin := disk_stdin w |})
  else (Raise (no_such_file p), w).

(** [str.isdigit] on the bytes of UTF-8: the decimal digits and the
    superscripts one, two and three, which Python counts as digits (as it
    does the digits of other scripts, which are left out here). *)
Fixpoint disk_digits (s : string) : bool :=
  match s with
  | "" => true
  | String c s' =>
      if is_digit c then disk_digits s'
      else if (Ascii.nat_of_ascii c =? 194)%nat then
        match s' with
        | String d s'' =>
            bool_decide (Ascii.nat_of_ascii d ∈ [178; 179; 185]%nat) && disk_digits s''
        | "" => false
        end
      else false
  end.

Definition disk_host : Host disk := {|
  os_path_exists p w :=
    disk_isdir p w ||
    match disk_lookup p (disk_files w) with Some _ => true | None => false end;
  os_path_isdir := disk_isdir;
  os_listdir p w :=
    if disk_isdir p w
    then inr (omap (disk_child p) (disk_dirs w ++ map fst (disk_files w))%list)
    else inl ("[Errno 2] No such file or directory: '" +:+ p +:+ "'");
  bashrc_path := "/home/sauron/.bashrc";
  script_path := "/home/sauron/fleet_ops.py";
  file_read p w :=
    if disk_isdir p w then Raise (is_a_directory p)
    else match disk_lookup p (disk_files w) with
         | Some content => Ok content
         | None => Raise (no_such_file p)
         end;
  file_append p text w :=
    disk_put p (fun old => match old with Some c => c +:+ text | None => text end) w;
  file_write p text w := disk_put p (fun _ => text) w;
  stdin_readline w :=
    match disk_stdin w with
    | [] => (Raise (Exn EOFError "EOF when reading a line"), w)
    | line :: rest =>
        (Ok line, {| disk_dirs := disk_dirs w; disk_files := disk_files w;
                     disk_stdin := rest |})
    end;
  str_lower := sim_lower;
  str_isdigit s := negb (String.eqb s "") && disk_digits s;
  int_of_str := sim_int;
  git_Repo p w :=
    if disk_isdir (os_path_join p ".git") w then Ok tt
    else Raise (Exn InvalidGitRepositoryError p);
  git_active_branch r w := Ok "main";
  git_is_dirty r w := Ok false;
  git_remotes r w := Ok [];
  git_tracking_branch r b w := Ok None;
  git_count_commits r rev w := Ok 0%nat;
  git_index_diff r w := Ok [];
  git_untracked_files r w := Ok [];
  git_fetch r w := (Ok tt, w);
  git_add_all r w := (Ok tt, w);
  git_index_commit r message w := (Ok tt, w);
  git_pull r w := (Ok tt, w);
  git_push r w := (Ok [], w)
|}.

(** A laptop with a home directory and the two repositories of the fleet;
    the root is entered with and without its final separator, the script
    naming it with one. *)
Definition laptop (files : list (string * string)) (lines : list string) : disk :=
  {| disk_dirs := ["/home/sauron"; "/home/sauron/unexusi"; "/home/sauron/unexusi/";
                   "/home/sauron/unexusi/alpha"; "/home/sauron/unexusi/alpha/.git";
                   "/home/sauron/unexusi/beta"; "/home/sauron/unexusi/beta/.git"];
     disk_files := files;
     disk_stdin := lines |}.

(** A repository of the simulated disk, as a scan finds it. *)
Definition disk_status (folder : string) : status :=
  before_sync (sim_root +:+ folder) "main" false.

(** ** Tactics *)

(** Every way the sync check can go. *)
Ltac check_sync_cases r w :=
  unfold check_sync, remotes_origin, fetch, count_commits, bind, act, query,
    raise, modify, emit;
  simpl;
  destruct (git_remotes r w) as [names|?] eqn:Hremotes; simpl;
  [ destruct (bool_decide ("origin" ∈ names)) eqn:Horigin; simpl;
    [ fold (origin_of r);
      destruct (git_fetch (origin_of r) w) as [[[]|?] w1] eqn:Hfetch; simpl;
      [ destruct (git_active_branch r w1) as [b|?] eqn:Hbranch; simpl;
        [ destruct (git_tracking_branch r b w1) as [[rb|]|?] eqn:Htrack; simpl;
          [ destruct (git_count_commits r (b +:+ ".." +:+ rb) w1)
              as [n|?] eqn:Hbehind; simpl;
            [ destruct (git_count_commits r (rb +:+ ".." +:+ b) w1)
                as [m|?] eqn:Hahead; simpl
            | ]
          | | ]
        | ]
      | ]
    | ]
  | ].

(** Both sides are logs built with [++]: bring them to one shape. *)
Ltac tidy_log :=
  cbn [res store world out app]; rewrite <- ?app_assoc; cbn [app];
  rewrite ?app_nil_r; reflexivity.

(** ** The definitions at work *)

Example os_path_join_root :
  os_path_join "/home/sauron/unexusi/" "alpha" = "/home/sauron/unexusi/alpha".
Proof. reflexivity. Qed.

Example os_path_join_inserts_separator :
  os_path_join "/home/sauron/unexusi/alpha" ".git" = "/home/sauron/unexusi/alpha/.git".
Proof. reflexivity. Qed.

Example os_path_join_absolute : os_path_join "/srv/fleet" "/tmp" = "/tmp".
Proof. reflexivity. Qed.

Example os_path_basename_folder :
  os_path_basename "/home/sauron/unexusi/alpha" = "alpha".
Proof. reflexivity. Qed.

Example os_path_basename_trailing_separator : os_path_basename "/srv/fleet/" = "".
Proof. reflexivity. Qed.

(** Capitals sort before small letters, as in Python. *)
Example sorted_by_character_code :
  sorted ["beta"; "Zeta"; "alpha"; "alpha2"] = ["Zeta"; "alpha"; "alpha2"; "beta"].
Proof. reflexivity. Qed.

Example root_in_termux :
  ROOT_DIR "/data/data/com.termux/files/usr" = "/storage/emulated/0/pixel8a/unexusi/" /\
  DEVICE_NAME "/data/data/com.termux/files/usr" = "Pixel 8a (Mobile)".
Proof. split; reflexivity. Qed.

Example root_elsewhere :
  ROOT_DIR "" = "/home/sauron/unexusi/" /\ DEVICE_NAME "/usr" = "Laptop (Base)".
Proof. split; reflexivity. Qed.

Example status_row_ahead :
  status_row 2 (sim_status "alpha" false 3 1) =
    {| row_index := 2; row_icon := "⬆️ "; row_name := "alpha";
       row_branch := "main"; row_msg := "Ahead (+3)" |}.
Proof. reflexivity. Qed.

(** A session on the simulated fleet, [beta] having unsaved work: the
    operator syncs everything, acknowledges, and quits.  Both repositories
    are fetched by each of the two scans; [alpha] is pulled and pushed, [beta]
    is committed, pulled and pushed. *)
Example session_sync_all :
  let beta := {| working_dir := sim_root +:+ "beta" |} in
  let alpha := {| working_dir := sim_root +:+ "alpha" |} in
  let run := main_dashboard (HostW := sim_host [Dirty (working_dir beta)]) ""
               5 tt (fresh ["A"; ""; "q"]) in
  res run = Ok (Some tt) /\
  sim_stdin (world run) = [] /\
  sim_journal (world run) =
    [Fetch (origin_of alpha); Fetch (origin_of beta);
     Pull (origin_of alpha); Push (origin_of alpha);
     AddAll beta; Commit beta AUTO_MESSAGE;
     Pull (origin_of beta); Push (origin_of beta);
     Fetch (origin_of alpha); Fetch (origin_of beta)].
Proof. vm_compute. by repeat split. Qed.

(** With only two turns of fuel the same session is cut before the operator
    quits. *)
Example session_out_of_fuel :
  res (main_dashboard (HostW := sim_host []) "" 2 tt (fresh ["r"; "r"; "q"])) = Ok None.
Proof. vm_compute. reflexivity. Qed.

(** The simulated disk lists the two repositories of the laptop. *)
Example laptop_listing :
  os_listdir (Host := disk_host) "/home/sauron/unexusi/" (laptop [] []) =
    inr ["alpha"; "beta"].
Proof. reflexivity. Qed.

(** [isdigit] and [int] on the simulated disk, as in Python. *)
Example disk_isdigit_superscript :
  str_isdigit (Host := disk_host) "²" = true /\
  int_of_str (Host := disk_host) "²" = Raise (Exn ValueError "invalid literal for int()") /\
  str_isdigit (Host := disk_host) "12" = true /\
  int_of_str (Host := disk_host) "12" = Ok 12.
Proof. by repeat split. Qed.

(** ** Laws of the monad *)

Section Laws.
Context {W : Type} `{HostW : Host W}.

Lemma calls_app l1 l2 : calls (l1 ++ l2) = (calls l1 ++ calls l2)%list.
Proof. apply omap_app. Qed.

Lemma opened_app l1 l2 : opened (l1 ++ l2) = (opened l1 ++ opened l2)%list.
Proof. apply omap_app. Qed.

Lemma calls_prints (f : string -> string) (l : list string) :
  calls (map (fun x => Print (f x)) l) = [].
Proof. induction l as [|x l IH]; [reflexivity | exact IH]. Qed.

(** A run of [m ;; k] through a normal end of [m]. *)
Lemma bind_Ok {L A B} (m : M W L A) (k : A -> M W L B) s w a :
  res (m s w) = Ok a ->
  bind m k s w =
    mkRun (res (k a (store (m s w)) (world (m s w))))
          (store (k a (store (m s w)) (world (m s w))))
          (world (k a (store (m s w)) (world (m s w))))
          (out (m s w) ++ out (k a (store (m s w)) (world (m s w)))).
Proof.
  unfold bind. destruct (m s w) as [r s1 w1 o1]. simpl. intros ->.
  destruct (k a s1 w1). reflexivity.
Qed.

(** An exception of [m] ends [m ;; k]. *)
Lemma bind_Raise {L A B} (m : M W L A) (k : A -> M W L B) s w e :
  res (m s w) = Raise e ->
  bind m k s w = mkRun (Raise e) (store (m s w)) (world (m s w)) (out (m s w)).
Proof.
  unfold bind. destruct (m s w) as [r s1 w1 o1]. simpl. intros ->. reflexivity.
Qed.

Lemma try_except_Ok {L A} (m : M W L A) catches handler s w a :
  res (m s w) = Ok a -> try_except m catches handler s w = m s w.
Proof.
  unfold try_except. destruct (m s w) as [r s1 w1 o1]. simpl. intros ->. reflexivity.
Qed.

Lemma try_except_caught {L A} (m : M W L A) catches handler s w e :
  res (m s w) = Raise e -> catches e = true ->
  try_except m catches handler s w =
    mkRun (res (handler e (store (m s w)) (world (m s w))))
          (store (handler e (store (m s w)) (world (m s w))))
          (world (handler e (store (m s w)) (world (m s w))))
          (out (m s w) ++ out (handler e (store (m s w)) (world (m s w)))).
Proof.
  unfold try_except. destruct (m s w) as [r s1 w1 o1]. simpl. intros -> ->.
  destruct (handler e s1 w1). reflexivity.
Qed.

Lemma try_except_missed {L A} (m : M W L A) catches handler s w e :
  res (m s w) = Raise e -> catches e = false ->
  try_except m catches handler s w = m s w.
Proof.
  unfold try_except. destruct (m s w) as [r s1 w1 o1]. simpl. intros -> ->. reflexivity.
Qed.

(** A loop of [print]s prints one line per element and does nothing else. *)
Lemma for_each_print {L} (f : string -> string) (l : list string) (s : L) (w : W) :
  for_each l (fun x => print (f x)) s w =
    mkRun (Ok tt) s w (map (fun x => Print (f x)) l).
Proof.
  induction l as [|x l IH]; [reflexivity|].
  simpl. unfold bind at 1. simpl. rewrite IH. reflexivity.
Qed.
End Laws.

(** ** The sync executor *)

Section SyncExecutor.
Context {W : Type} `{HostW : Host W}.

(** [show_file_details] only reads and prints. *)
Lemma show_file_details_quiet {L} (r : RepoObj) (s : L) (w : W) :
  let run := show_file_details r s w in
  store run = s /\ world run = w /\ calls (out run) = [] /\
  match git_index_diff r w, git_untracked_files r w with
  | Ok _, Ok _ => res run = Ok tt
  | Ok _, Raise e => res run = Raise e
  | Raise e, _ => res run = Raise e
  end.
Proof.
  unfold show_file_details, bind. simpl.
  destruct (git_index_diff r w) as [changed|e]; simpl; [|done].
  rewrite (for_each_print (fun x => "      ✏️  Modified: " +:+ x)). simpl.
  destruct (git_untracked_files r w) as [untracked|e]; simpl.
  - rewrite (for_each_print (fun x => "      🆕 New File: " +:+ x)). simpl.
    rewrite !calls_app, !calls_prints. done.
  - rewrite !calls_app, !calls_prints. done.
Qed.

Lemma sync_sequence_split st message :
  sync_sequence st message = (save_calls st message ++ remote_calls st)%list.
Proof. reflexivity. Qed.

Lemma sync_save_clean {L} st message (s : L) w :
  dirty st = false -> sync_save st message s w = mkRun (Ok tt) s w [].
Proof. intros Hd. unfold sync_save. rewrite Hd. reflexivity. Qed.

(** The save block makes its calls in order and stops at the first that
    raises. *)
Lemma sync_save_calls {L} st message (s : L) w :
  let run := sync_save st message s w in
  store run = s /\
  (calls (out run) `prefix_of` save_calls st message) /\
  (is_Ok (res run) -> calls (out run) = save_calls st message).
Proof.
  unfold sync_save, save_calls. destruct (dirty st); [|simpl; done].
  pose proof (show_file_details_quiet (L:=L) (repo st) s w) as (Hs & Hw & Hc & _).
  unfold add_all, index_commit, bind, act.
  destruct (show_file_details (repo st) s w) as [[[]|e] s1 w1 o1]; simpl in *; subst.
  - 
    destruct (git_add_all (repo st) w) as [[[]|e] w1]; simpl.
    + destruct (git_index_commit (repo st) message w1) as [[[]|e] w2]; simpl;
        rewrite calls_app, Hc; simpl; [done|].
      split; [done|]. split; [done|]. intros [].
    + rewrite calls_app, Hc. simpl.
      split; [done|]. split; [|intros []]. by eexists [_].
  - rewrite Hc. split; [done|]. split; [|intros []]. apply prefix_nil.
Qed.

Lemma sync_save_succeeds {L} st message (s : L) w :
  (dirty st = true -> saves_cleanly (repo st)) ->
  res (sync_save st message s w) = Ok tt.
Proof.
  intros Hsave. unfold sync_save.
  destruct (dirty st); [|reflexivity].
  destruct (Hsave eq_refl) as (Hdiff & Hunt & Hadd & Hcommit).
  pose proof (show_file_details_quiet (L:=L) (repo st) s w) as (Hs & Hw & _ & Hr).
  specialize (Hdiff w). specialize (Hunt w).
  destruct (git_index_diff (repo st) w); [|done].
  destruct (git_untracked_files (repo st) w); [|done].
  unfold add_all, index_commit, bind, act.
  destruct (show_file_details (repo st) s w) as [r s1 w1 o1]; simpl in *; subst.
  specialize (Hadd w).
  destruct (git_add_all (repo st) w) as [[[]|e] w1]; simpl in *; [|done].
  specialize (Hcommit message w1).
  destruct (git_index_commit (repo st) message w1) as [[[]|e] w2]; simpl in *; done.
Qed.

(** The body of the [try]: nothing but the lookup of [origin] comes before
    the pull, and nothing but the pull before the push. *)
Lemma sync_push_pull_calls {L} st (s : L) w :
  let run := sync_push_pull st s w in
  store run = s /\
  (calls (out run) `prefix_of` remote_calls st) /\
  (is_Ok (res run) -> calls (out run) = remote_calls st).
Proof.
  unfold sync_push_pull, remote_calls, remotes_origin, pull, push, bind, act, query, raise.
  simpl.
  destruct (git_remotes (repo st) w) as [names|e]; simpl;
    [|split; [done|]; split; [apply prefix_nil | intros []]].
  destruct (bool_decide ("origin" ∈ names)); simpl;
    [|split; [done|]; split; [apply prefix_nil | intros []]].
  fold (origin_of (repo st)).
  destruct (0 <? behind st); simpl.
  - destruct (git_pull (origin_of (repo st)) w) as [[[]|e] w1]; simpl.
    + destruct (dirty st || (0 <? ahead st)); simpl.
      * destruct (git_push (origin_of (repo st)) w1) as [[infos|e] w2]; simpl.
        -- destruct (negb (dirty st) && (ahead st =? 0) && (behind st =? 0)); simpl; done.
        -- split; [done|]. split; [done|]. intros [].
      * destruct (negb (dirty st) && (ahead st =? 0) && (behind st =? 0)); simpl; done.
    + split; [done|]. split; [|intros []]. by eexists.
  - destruct (dirty st || (0 <? ahead st)); simpl.
    + destruct (git_push (origin_of (repo st)) w) as [[infos|e] w2]; simpl.
      * destruct (negb (dirty st) && (ahead st =? 0) && (behind st =? 0)); simpl; done.
      * split; [done|]. split; [done|]. intros [].
    + destruct (negb (dirty st) && (ahead st =? 0) && (behind st =? 0)); simpl; done.
Qed.

Lemma sync_push_pull_succeeds {L} st (s : L) w :
  remote_cooperates (repo st) -> res (sync_push_pull st s w) = Ok tt.
Proof.
  intros (Horigin & Hpull & Hpush).
  unfold sync_push_pull, remotes_origin, pull, push, bind, act, query, raise.
  simpl.
  destruct (Horigin w) as (names & -> & Hin). simpl.
  rewrite bool_decide_eq_true_2 by done. simpl.
  fold (origin_of (repo st)).
  destruct (0 <? behind st); simpl.
  - specialize (Hpull w).
    destruct (git_pull (origin_of (repo st)) w) as [[[]|e] w1]; simpl in *; [|done].
    destruct (dirty st || (0 <? ahead st)); simpl.
    + specialize (Hpush w1).
      destruct (git_push (origin_of (repo st)) w1) as [[infos|e] w2]; simpl in *; [|done].
      destruct (negb (dirty st) && (ahead st =? 0) && (behind st =? 0)); done.
    + destruct (negb (dirty st) && (ahead st =? 0) && (behind st =? 0)); done.
  - destruct (dirty st || (0 <? ahead st)); simpl.
    + specialize (Hpush w).
      destruct (git_push (origin_of (repo st)) w) as [[infos|e] w2]; simpl in *; [|done].
      destruct (negb (dirty st) && (ahead st =? 0) && (behind st =? 0)); done.
    + destruct (negb (dirty st) && (ahead st =? 0) && (behind st =? 0)); done.
Qed.

(** Without a remote called [origin] the body of the [try] ends at its
    first line. *)
Lemma sync_push_pull_no_origin {L} st (s : L) w :
  lacks_origin (repo st) w ->
  sync_push_pull st s w = mkRun (Raise no_origin_error) s w [].
Proof.
  intros (names & Hnames & Hnot).
  unfold sync_push_pull, remotes_origin, bind, query, raise. simpl.
  rewrite Hnames. simpl. rewrite bool_decide_eq_false_2 by done. reflexivity.
Qed.

(** With [origin] and nothing to do, it only says so. *)
Lemma sync_push_pull_idle {L} st (s : L) w :
  has_origin (repo st) w ->
  dirty st = false -> ahead st = 0 -> behind st = 0 ->
  sync_push_pull st s w = mkRun (Ok tt) s w [Print already_clean_line].
Proof.
  intros (names & Hnames & Hin) Hd Ha Hb.
  unfold sync_push_pull, remotes_origin, bind, query, raise. simpl.
  rewrite Hnames, Hd, Ha, Hb. simpl. rewrite bool_decide_eq_true_2 by done.
  reflexivity.
Qed.

(** With nothing to do, the body of the [try] leaves the world alone. *)
Lemma sync_push_pull_idle_world {L} st (s : L) w :
  dirty st = false -> ahead st = 0 -> behind st = 0 ->
  world (sync_push_pull st s w) = w.
Proof.
  intros Hd Ha Hb.
  unfold sync_push_pull, remotes_origin, bind, query, raise. simpl.
  rewrite Hd, Ha, Hb. simpl.
  destruct (git_remotes (repo st) w) as [names|e]; simpl; [|done].
  destruct (bool_decide ("origin" ∈ names)); done.
Qed.


(** [sync_repo], block by block. *)
Lemma sync_repo_run {L} st message (s : L) w :
  sync_repo st message s w =
    match res (sync_save st message s w) with
    | Raise e =>
        mkRun (Raise e) (store (sync_save st message s w))
          (world (sync_save st message s w))
          (Print (processing_line st) :: out (sync_save st message s w))
    | Ok _ =>
        let saved := sync_save st message s w in
        let tried := sync_push_pull st (store saved) (world saved) in
        match res tried with
        | Ok _ =>
            mkRun (Ok tt) (store tried) (world tried)
              (Print (processing_line st) :: out saved ++ out tried)
        | Raise e =>
            if is_Exception e then
              mkRun (Ok tt) (store tried) (world tried)
                (Print (processing_line st) :: out saved ++ out tried ++
                 [Print (error_syncing_line e)])
            else
              mkRun (Raise e) (store tried) (world tried)
                (Print (processing_line st) :: out saved ++ out tried)
        end
    end.
Proof.
  unfold sync_repo, bind, try_except, print, emit.
  destruct (sync_save st message s w) as [[[]|e] s1 w1 o1]; [|reflexivity].
  cbv zeta. cbn [res store world out].
  destruct (sync_push_pull st s1 w1) as [[[]|e] s2 w2 o2]; [reflexivity|].
  cbn [res store world out]. destruct (is_Exception e); reflexivity.
Qed.

Lemma sync_repo_store {L} st message (s : L) w :
  store (sync_repo st message s w) = s.
Proof.
  rewrite sync_repo_run.
  pose proof (sync_save_calls (L:=L) st message s w) as (Hs & _ & _).
  cbv zeta in *.
  destruct (res (sync_save st message s w)) as [[]|e]; [|exact Hs].
  pose proof (sync_push_pull_calls (L:=L) st (store (sync_save st message s w))
                (world (sync_save st message s w))) as (Hs' & _ & _).
  cbv zeta in *.
  destruct (res (sync_push_pull st _ _)) as [[]|e]; cbn [store]; [congruence|].
  destruct (is_Exception e); cbn [store]; congruence.
Qed.

(** The calls of a run of [sync_repo] are an initial part of the sequence
    commit, pull, push. *)
Lemma sync_repo_calls_prefix {L} st message (s : L) w :
  calls (out (sync_repo st message s w)) `prefix_of` sync_sequence st message.
Proof.
  rewrite sync_repo_run, sync_sequence_split.
  pose proof (sync_save_calls (L:=L) st message s w) as (Hs & Hpre & Hall).
  cbv zeta in *.
  destruct (res (sync_save st message s w)) as [[]|e] eqn:Hsaved.
  - pose proof (sync_push_pull_calls (L:=L) st (store (sync_save st message s w))
                  (world (sync_save st message s w))) as (_ & Hpre' & _).
    cbv zeta in *.
    assert (Hcalls : calls (Print (processing_line st)
                       :: out (sync_save st message s w) ++
                          out (sync_push_pull st (store (sync_save st message s w))
                                 (world (sync_save st message s w))))
                     `prefix_of` (save_calls st message ++ remote_calls st)%list).
    { change (calls (Print ?l :: ?o)) with (calls o).
      rewrite calls_app, (Hall I). by apply prefix_app. }
    destruct (res (sync_push_pull st _ _)) as [[]|e]; [exact Hcalls|].
    destruct (is_Exception e); cbn [out]; [|exact Hcalls].
    change (calls (Print ?l :: ?o)) with (calls o) in *.
    rewrite !calls_app in *. simpl. by rewrite app_nil_r.
  - cbn [out]. change (calls (Print ?l :: ?o)) with (calls o).
    by apply prefix_app_r.
Qed.

(** When nothing raises, they are the whole sequence. *)
Lemma sync_repo_calls_complete {L} st message (s : L) w :
  saves_cleanly (repo st) -> remote_cooperates (repo st) ->
  res (sync_repo st message s w) = Ok tt /\
  calls (out (sync_repo st message s w)) = sync_sequence st message.
Proof.
  intros Hsave Hremote.
  rewrite sync_repo_run.
  pose proof (sync_save_calls (L:=L) st message s w) as (Hs & _ & Hall).
  cbv zeta in *.
  rewrite (sync_save_succeeds st message s w (fun _ => Hsave)) in *.
  pose proof (sync_push_pull_calls (L:=L) st (store (sync_save st message s w))
                (world (sync_save st message s w))) as (_ & _ & Hall').
  cbv zeta in *.
  rewrite (sync_push_pull_succeeds st _ _ Hremote) in *.
  cbn [res out]. split; [done|].
  change (calls (Print ?l :: ?o)) with (calls o).
  by rewrite calls_app, (Hall I), (Hall' I), sync_sequence_split.
Qed.

(** So are they whenever [sync_repo] ends normally without an error report. *)
Lemma sync_repo_calls_quiet {L} st message (s : L) w :
  is_Ok (res (sync_repo st message s w)) ->
  (forall e, Print (error_syncing_line e) ∉ out (sync_repo st message s w)) ->
  calls (out (sync_repo st message s w)) = sync_sequence st message.
Proof.
  rewrite sync_repo_run.
  pose proof (sync_save_calls (L:=L) st message s w) as (_ & _ & Hall).
  cbv zeta in *.
  destruct (res (sync_save st message s w)) as [[]|e]; [|intros []].
  pose proof (sync_push_pull_calls (L:=L) st (store (sync_save st message s w))
                (world (sync_save st message s w))) as (_ & _ & Hall').
  cbv zeta in *.
  destruct (res (sync_push_pull st _ _)) as [[]|e].
  - intros _ _. cbn [out].
    change (calls (Print ?l :: ?o)) with (calls o).
    by rewrite calls_app, (Hall I), (Hall' I), sync_sequence_split.
  - destruct (is_Exception e); [|intros []].
    intros _ Hquiet. exfalso. apply (Hquiet e). cbn [out].
    right. apply elem_of_app. right. apply elem_of_app. right. by left.
Qed.

(** [sync_repo] on a status with nothing to do: no call, no change, and a
    report that depends on the lookup of [origin]. *)
Lemma sync_repo_idle {L} st message (s : L) w :
  dirty st = false -> ahead st = 0 -> behind st = 0 ->
  calls (out (sync_repo st message s w)) = [] /\
  world (sync_repo st message s w) = w.
Proof.
  intros Hd Ha Hb. split.
  - pose proof (sync_repo_calls_prefix (L:=L) st message s w) as Hpre.
    unfold sync_sequence in Hpre. rewrite Hd, Ha, Hb in Hpre. simpl in Hpre.
    by apply prefix_nil_inv in Hpre.
  - rewrite sync_repo_run, (sync_save_clean st message s w Hd).
    cbv zeta. cbn [res store world out].
    pose proof (sync_push_pull_idle_world (L:=L) st s w Hd Ha Hb) as Hw.
    destruct (res (sync_push_pull st s w)) as [[]|e]; [exact Hw|].
    destruct (is_Exception e); exact Hw.
Qed.

(** The loop of the batch, one repository at a time. *)
Lemma batch_sync_cons {L} st rest (s : L) w :
  batch_sync (st :: rest) s w =
    bind (sync_repo st AUTO_MESSAGE) (fun _ => batch_sync rest) s w.
Proof. reflexivity. Qed.



Lemma sync_save_raises {L} st message (s : L) w e :
  save_raises st message w e -> res (sync_save st message s w) = Raise e.
Proof.
  intros (Hd & Hdiff & Hunt & Hfail).
  unfold sync_save. rewrite Hd.
  pose proof (show_file_details_quiet (L:=L) (repo st) s w) as (Hs & Hw & _ & Hr).
  destruct (git_index_diff (repo st) w); [|done].
  destruct (git_untracked_files (repo st) w); [|done].
  unfold add_all, index_commit, bind, act.
  destruct (show_file_details (repo st) s w) as [r s1 w1 o1]; simpl in *; subst.
  destruct (git_add_all (repo st) w) as [[[]|e1] w1]; simpl in *.
  - destruct Hfail as [?|[_ Hcommit]]; [done|].
    by destruct (git_index_commit (repo st) message w1) as [[[]|e2] w2];
      simpl in *; simplify_eq.
  - destruct Hfail as [?|[? _]]; by simplify_eq.
Qed.

Lemma no_origin_error_ordinary : is_Exception no_origin_error = true.
Proof. reflexivity. Qed.

(** Making the calls of two lists one after the other. *)
Lemma perform_all_app l1 l2 (w : W) :
  perform_all (l1 ++ l2) w =
    match ending (perform_all l1 w) with
    | Ok _ =>
        let then_ := perform_all l2 (world_left (perform_all l1 w)) in
        {| calls_made := calls_made (perform_all l1 w) ++ calls_made then_;
           ending := ending then_; world_left := world_left then_ |}
    | Raise _ => perform_all l1 w
    end.
Proof.
  revert w. induction l1 as [|c l1 IH]; intros w; simpl.
  - by destruct (perform_all l2 w).
  - destruct (perform c w) as [[[]|e] w1]; simpl; [|done].
    rewrite IH. by destruct (perform_all l1 w1) as [m [[]|e] wl].
Qed.

(** The save block is its calls, made in order up to the first that
    raises, once the changes are listed. *)
Lemma sync_save_effect {L} st message (s : L) w :
  changes_listed st w ->
  let saved := perform_all (save_calls st message) w in
  res (sync_save st message s w) = ending saved /\
  calls (out (sync_save st message s w)) = calls_made saved /\
  world (sync_save st message s w) = world_left saved.
Proof.
  unfold changes_listed, sync_save, save_calls. intros Hlisted.
  destruct (dirty st); [|done].
  destruct (Hlisted eq_refl) as [Hdiff Hunt].
  pose proof (show_file_details_quiet (L:=L) (repo st) s w) as (Hs & Hw & Hc & Hr).
  destruct (git_index_diff (repo st) w); [|done].
  destruct (git_untracked_files (repo st) w); [|done].
  unfold add_all, index_commit, bind, act.
  destruct (show_file_details (repo st) s w) as [r s1 w1 o1]; simpl in *; subst.
  destruct (git_add_all (repo st) w) as [[[]|e] w1]; simpl;
    [|by rewrite calls_app, Hc].
  destruct (git_index_commit (repo st) message w1) as [[[]|e] w2]; simpl;
    by rewrite calls_app, Hc.
Qed.

(** So is the body of the [try], once [origin] is found. *)
Lemma sync_push_pull_effect {L} st (s : L) w :
  has_origin (repo st) w ->
  let tried := perform_all (remote_calls st) w in
  res (sync_push_pull st s w) = ending tried /\
  calls (out (sync_push_pull st s w)) = calls_made tried /\
  world (sync_push_pull st s w) = world_left tried.
Proof.
  intros (names & Hnames & Hin).
  unfold sync_push_pull, remote_calls, remotes_origin, pull, push, bind, act, query, raise.
  simpl. rewrite Hnames. simpl. rewrite bool_decide_eq_true_2 by done. simpl.
  fold (origin_of (repo st)).
  destruct (0 <? behind st); simpl.
  - destruct (git_pull (origin_of (repo st)) w) as [[[]|e] w1]; simpl; [|done].
    destruct (dirty st || (0 <? ahead st)); simpl.
    + destruct (git_push (origin_of (repo st)) w1) as [[infos|e] w2]; simpl; [|done].
      by destruct (negb (dirty st) && (ahead st =? 0) && (behind st =? 0)).
    + by destruct (negb (dirty st) && (ahead st =? 0) && (behind st =? 0)).
  - destruct (dirty st || (0 <? ahead st)); simpl.
    + destruct (git_push (origin_of (repo st)) w) as [[infos|e] w2]; simpl; [|done].
      by destruct (negb (dirty st) && (ahead st =? 0) && (behind st =? 0)).
    + by destruct (negb (dirty st) && (ahead st =? 0) && (behind st =? 0)).
Qed.

(** [sync_repo] is the sequence commit, pull, push made in order up to the
    first call that raises, when the changes are listed and [origin] is
    found; without [origin] it is the calls of the save block. *)
Lemma sync_repo_effect {L} st message (s : L) w :
  changes_listed st w ->
  let run := sync_repo st message s w in
  let saved := perform_all (save_calls st message) w in
  let all := perform_all (sync_sequence st message) w in
  (forall e, ending saved = Raise e ->
     res run = Raise e /\
     calls (out run) = calls_made saved /\ world run = world_left saved /\
     all = saved) /\
  (is_Ok (ending saved) -> has_origin (repo st) (world_left saved) ->
     calls (out run) = calls_made all /\ world run = world_left all /\
     res run = match ending all with
               | Ok _ => Ok tt
               | Raise e => if is_Exception e then Ok tt else Raise e
               end /\
     forall e, ending all = Raise e -> is_Exception e = true ->
       exists before, out run = (before ++ [Print (error_syncing_line e)])%list) /\
  (is_Ok (ending saved) -> lacks_origin (repo st) (world_left saved) ->
     calls (out run) = save_calls st message /\ world run = world_left saved /\
     res run = Ok tt /\
     exists before,
       out run = (before ++ [Print (error_syncing_line no_origin_error)])%list).
Proof.
  intros Hlisted. cbv zeta.
  destruct (sync_save_effect (L:=L) st message s w Hlisted) as (Hres & Hcalls & Hworld).
  pose proof (sync_save_calls (L:=L) st message s w) as (Hstore & _ & Hall).
  cbv zeta in *.
  rewrite sync_sequence_split, perform_all_app.
  rewrite sync_repo_run. cbv zeta. rewrite Hres in *.
  destruct (ending (perform_all (save_calls st message) w)) as [[]|e0] eqn:Hend.
  - split; [intros e [=]|]. specialize (Hall I).
    rewrite Hstore, Hworld. split.
    + intros _ Horigin.
      destruct (sync_push_pull_effect (L:=L) st s _ Horigin) as (Hres' & Hcalls' & Hworld').
      cbv zeta in *. cbn [calls_made ending world_left].
      rewrite <- Hres', <- Hcalls', <- Hworld', <- Hcalls.
      destruct (res (sync_push_pull st s _)) as [[]|e] eqn:Htried.
      * cbn [res world out]. change (calls (Print ?l :: ?o)) with (calls o).
        rewrite calls_app. by repeat split.
      * destruct (is_Exception e) eqn:Hexc; cbn [res world out];
          change (calls (Print ?l :: ?o)) with (calls o);
          rewrite !calls_app; simpl; rewrite ?app_nil_r.
        -- repeat split; try done. intros e' [= <-] _.
           eexists (Print (processing_line st) :: out (sync_save st message s w) ++ _)%list.
           simpl. by rewrite <- app_assoc.
        -- repeat split; try done. intros e' [= <-] Hexc'. congruence.
    + intros _ Hnone.
      rewrite (sync_push_pull_no_origin st s _ Hnone).
      cbn [res]. rewrite no_origin_error_ordinary. cbn [res world out].
      change (calls (Print ?l :: ?o)) with (calls o).
      rewrite calls_app. simpl. rewrite app_nil_r.
      repeat split; try done.
      by exists (Print (processing_line st) :: out (sync_save st message s w)).
  - split; [|split; intros []].
    intros e [= <-]. cbn [res world out].
    change (calls (Print ?l :: ?o)) with (calls o). by rewrite Hcalls, Hworld.
Qed.

(** The batch keeps the variables of its caller. *)
Lemma batch_sync_store {L} repos (s : L) w : store (batch_sync repos s w) = s.
Proof.
  revert w. induction repos as [|st rest IH]; intros w; [done|].
  rewrite batch_sync_cons. unfold bind.
  pose proof (sync_repo_store (L:=L) st AUTO_MESSAGE s w) as Hs.
  destruct (sync_repo st AUTO_MESSAGE s w) as [[[]|e] s1 w1 o1]; simpl in *; subst; [|done].
  specialize (IH w1). by destruct (batch_sync rest s w1).
Qed.

(** A batch over two lists: the second is run from where the first ended,
    unless the first raised. *)
Lemma batch_sync_app {L} pre rest (s : L) w :
  batch_sync (pre ++ rest) s w =
    match res (batch_sync pre s w) with
    | Ok _ =>
        let then_ := batch_sync rest s (world (batch_sync pre s w)) in
        mkRun (res then_) (store then_) (world then_)
          (out (batch_sync pre s w) ++ out then_)
    | Raise _ => batch_sync pre s w
    end.
Proof.
  revert w. induction pre as [|st pre IH]; intros w.
  - simpl. by destruct (batch_sync rest s w).
  - change ((st :: pre) ++ rest)%list with (st :: (pre ++ rest))%list.
    rewrite !batch_sync_cons. unfold bind.
    pose proof (sync_repo_store (L:=L) st AUTO_MESSAGE s w) as Hs.
    destruct (sync_repo st AUTO_MESSAGE s w) as [[[]|e] s1 w1 o1]; simpl in *; subst; [|done].
    rewrite IH.
    pose proof (batch_sync_store (L:=L) pre s w1) as Hs1.
    destruct (batch_sync pre s w1) as [[[]|e] s2 w2 o2]; simpl in *; subst; [|done].
    destruct (batch_sync rest s w2) as [r3 s3 w3 o3]. simpl. by rewrite app_assoc.
Qed.



(** A batch that reaches [st]: what comes out is what the repositories
    before it gave and then what [st] gives. *)
Lemma batch_sync_reaches {L} pre st rest (s : L) w :
  is_Ok (res (batch_sync pre s w)) ->
  batch_sync (pre ++ st :: rest) s w =
    let one := sync_repo st AUTO_MESSAGE s (world (batch_sync pre s w)) in
    match res one with
    | Ok _ =>
        let then_ := batch_sync rest s (world one) in
        mkRun (res then_) s (world then_)
          (out (batch_sync pre s w) ++ out one ++ out then_)
    | Raise e => mkRun (Raise e) s (world one) (out (batch_sync pre s w) ++ out one)
    end.
Proof.
  intros Hpre. rewrite batch_sync_app.
  destruct (res (batch_sync pre s w)) as [[]|e]; [|done].
  cbv zeta. rewrite batch_sync_cons. unfold bind.
  pose proof (sync_repo_store (L:=L) st AUTO_MESSAGE s (world (batch_sync pre s w))) as Hs.
  destruct (sync_repo st AUTO_MESSAGE s (world (batch_sync pre s w)))
    as [[[]|e] s1 w1 o1]; simpl in *; subst; [|done].
  pose proof (batch_sync_store (L:=L) rest s w1) as Hs1.
  destruct (batch_sync rest s w1) as [r2 s2 w2 o2]. simpl in *. by subst.
Qed.

(** When the changes of a dirty repository cannot be listed, [sync_repo]
    ends before its first call. *)
Lemma sync_repo_unlisted {L} st message (s : L) w e :
  dirty st = true ->
  git_index_diff (repo st) w = Raise e \/
  (is_Ok (git_index_diff (repo st) w) /\ git_untracked_files (repo st) w = Raise e) ->
  res (sync_repo st message s w) = Raise e /\
  calls (out (sync_repo st message s w)) = [] /\
  world (sync_repo st message s w) = w.
Proof.
  intros Hd Hwhy.
  pose proof (show_file_details_quiet (L:=L) (repo st) s w) as (Hs & Hw & Hc & Hr).
  assert (Hraised : res (show_file_details (L:=L) (repo st) s w) = Raise e).
  { destruct Hwhy as [Hdiff|[Hdiff Hunt]].
    - by rewrite Hdiff in Hr.
    - destruct (git_index_diff (repo st) w); [|done]. by rewrite Hunt in Hr. }
  assert (Hsave : sync_save st message s w = show_file_details (repo st) s w).
  { unfold sync_save. rewrite Hd. unfold bind.
    by destruct (show_file_details (repo st) s w) as [[[]|e'] s1 w1 o1]. }
  rewrite sync_repo_run, Hsave, Hraised. cbn [res world out].
  change (calls (Print ?l :: ?o)) with (calls o). by rewrite Hc, Hw.
Qed.

(** When [repo.remotes] itself raises, nothing follows the save block. *)
Lemma sync_repo_remotes_raise {L} st message (s : L) w e :
  is_Ok (res (sync_save st message s w)) ->
  git_remotes (repo st) (world (sync_save st message s w)) = Raise e ->
  calls (out (sync_repo st message s w)) = calls (out (sync_save st message s w)) /\
  world (sync_repo st message s w) = world (sync_save st message s w) /\
  res (sync_repo st message s w) = if is_Exception e then Ok tt else Raise e.
Proof.
  intros Hsaved Hremotes. rewrite sync_repo_run.
  destruct (res (sync_save st message s w)) as [[]|e0]; [|done].
  cbv zeta.
  assert (Htried : sync_push_pull st (store (sync_save st message s w))
                     (world (sync_save st message s w)) =
                   mkRun (Raise e) (store (sync_save st message s w))
                     (world (sync_save st message s w)) []).
  { unfold sync_push_pull, remotes_origin, bind, query. by rewrite Hremotes. }
  rewrite Htried. cbn [res].
  destruct (is_Exception e); cbn [res world out];
    change (calls (Print ?l :: ?o)) with (calls o);
    rewrite ?calls_app; simpl; by rewrite ?app_nil_r.
Qed.

(** C1, as amended. [sync_repo] makes its calls in the order commit, pull,
    push, each under its condition on the status record, and stops at the
    first that raises.  The calls of every run are an initial part of that
    sequence.  Once the changes of a dirty repository are listed: a stage or
    commit that raises ends [sync_repo] with that exception; otherwise, with
    a remote called [origin], the calls and the world they leave are those
    of the sequence made in order up to the first call that raises, an
    ordinary error being reported and an interrupt passed on; and without
    [origin] the calls are those of the save block, the world is the one
    they leave, and the error of the failed lookup is reported, so that
    what was committed is not pushed (likewise when [repo.remotes] itself
    raises).  When the changes cannot be listed, [sync_repo] ends before
    its first call.  The calls are the whole sequence when nothing raises
    and [origin] cooperates, and whenever the run ends normally without an
    error report.  In a dirty repository any pull or push comes after the
    stage and the commit. *)
Theorem sync_repo_order {L} st message (s : L) w :
  let run := sync_repo st message s w in
  (calls (out run) `prefix_of` sync_sequence st message) /\
  (dirty st = true ->
   forall e,
     git_index_diff (repo st) w = Raise e \/
     (is_Ok (git_index_diff (repo st) w) /\ git_untracked_files (repo st) w = Raise e) ->
     res run = Raise e /\ calls (out run) = [] /\ world run = w) /\
  (changes_listed st w ->
   let saved := perform_all (save_calls st message) w in
   let all := perform_all (sync_sequence st message) w in
   (forall e, ending saved = Raise e ->
      res run = Raise e /\
      calls (out run) = calls_made saved /\ world run = world_left saved) /\
   (is_Ok (ending saved) -> has_origin (repo st) (world_left saved) ->
      calls (out run) = calls_made all /\ world run = world_left all /\
      res run = match ending all with
                | Ok _ => Ok tt
                | Raise e => if is_Exception e then Ok tt else Raise e
                end /\
      forall e, ending all = Raise e -> is_Exception e = true ->
        exists before, out run = (before ++ [Print (error_syncing_line e)])%list) /\
   (is_Ok (ending saved) -> lacks_origin (repo st) (world_left saved) ->
      calls (out run) = save_calls st message /\ world run = world_left saved /\
      res run = Ok tt /\
      exists before,
        out run = (before ++ [Print (error_syncing_line no_origin_error)])%list) /\
   (is_Ok (ending saved) ->
    forall e, git_remotes (repo st) (world_left saved) = Raise e ->
      calls (out run) = save_calls st message /\ world run = world_left saved /\
      res run = if is_Exception e then Ok tt else Raise e)) /\
  (saves_cleanly (repo st) -> remote_cooperates (repo st) ->
     res run = Ok tt /\ calls (out run) = sync_sequence st message) /\
  (is_Ok (res run) -> (forall e, Print (error_syncing_line e) ∉ out run) ->
     calls (out run) = sync_sequence st message) /\
  (dirty st = true ->
     forall c, c ∈ calls (out run) ->
       c = Pull (origin_of (repo st)) \/ c = Push (origin_of (repo st)) ->
       exists rest,
         calls (out run) = AddAll (repo st) :: Commit (repo st) message :: rest).
Proof.
  cbv zeta.
  pose proof (sync_repo_calls_prefix (L:=L) st message s w) as Hprefix.
  split; [exact Hprefix|].
  split; [intros Hd e Hwhy; by apply sync_repo_unlisted|]. split.
  { intros Hlisted.
    destruct (sync_repo_effect (L:=L) st message s w Hlisted) as (Hsave & Hwith & Hwithout).
    destruct (sync_save_effect (L:=L) st message s w Hlisted) as (Hres & Hcalls & Hworld).
    pose proof (sync_save_calls (L:=L) st message s w) as (_ & _ & Hall).
    cbv zeta in *. split; [|split; [exact Hwith | split; [exact Hwithout|]]].
    - intros e He. destruct (Hsave e He) as (? & ? & ? & _). done.
    - intros Hsaved e Hremotes. rewrite <- Hres in Hsaved. rewrite <- Hworld in *.
      rewrite <- (Hall Hsaved). by apply sync_repo_remotes_raise. }
  split; [apply sync_repo_calls_complete|].
  split; [apply sync_repo_calls_quiet|].
  intros Hd c Hc Hkind.
  destruct Hprefix as [k Hk]. unfold sync_sequence in Hk. rewrite Hd in Hk.
  simpl in Hk.
  destruct (calls (out (sync_repo st message s w))) as [|c1 [|c2 l]].
  - by apply elem_of_nil in Hc.
  - simplify_eq/=. apply list_elem_of_singleton in Hc. subst c.
    destruct Hkind; discriminate.
  - simplify_eq/=. by eexists.
Qed.

(** C2, as amended. On a status with [dirty = false], [ahead = 0] and
    [behind = 0], [sync_repo] makes no call and changes nothing; it reports
    "Already clean" when the repository has a remote called [origin], and a
    sync error when it has none. *)
Theorem sync_repo_nothing_to_do {L} st message (s : L) w :
  dirty st = false -> ahead st = 0 -> behind st = 0 ->
  let run := sync_repo st message s w in
  calls (out run) = [] /\ world run = w /\
  (has_origin (repo st) w ->
     res run = Ok tt /\
     out run = [Print (processing_line st); Print already_clean_line]) /\
  (lacks_origin (repo st) w ->
     res run = Ok tt /\
     out run = [Print (processing_line st);
                Print (error_syncing_line no_origin_error)]).
Proof.
  intros Hd Ha Hb. cbv zeta.
  destruct (sync_repo_idle (L:=L) st message s w Hd Ha Hb) as [Hcalls Hworld].
  split; [exact Hcalls|]. split; [exact Hworld|].
  rewrite sync_repo_run, (sync_save_clean st message s w Hd).
  cbv zeta. cbn [res store world out]. split.
  - intros Horigin. by rewrite (sync_push_pull_idle st s w Horigin Hd Ha Hb).
  - intros Hnone. by rewrite (sync_push_pull_no_origin st s w Hnone).
Qed.


(** C10. When staging or committing raises in a dirty repository,
    [sync_repo] does not catch it: the exception leaves [sync_repo] before
    the [try] is entered; and a batch that reaches such a repository,
    wherever it stands in the list, ends there with the same exception:
    its output is that of the repositories before and of this one, its
    world the one this one left, and nothing is done for the rest. *)
Theorem save_failure_propagates {L} :
  (forall st message (s : L) w e,
     save_raises st message w e ->
     res (sync_repo st message s w) = Raise e /\
     out (sync_repo st message s w) =
       Print (processing_line st) :: out (sync_save st message s w)) /\
  (forall pre st rest (s : L) w e,
     is_Ok (res (batch_sync pre s w)) ->
     save_raises st AUTO_MESSAGE (world (batch_sync pre s w)) e ->
     let one := sync_repo st AUTO_MESSAGE s (world (batch_sync pre s w)) in
     res (batch_sync (pre ++ st :: rest) s w) = Raise e /\
     out (batch_sync (pre ++ st :: rest) s w) =
       (out (batch_sync pre s w) ++ out one)%list /\
     world (batch_sync (pre ++ st :: rest) s w) = world one).
Proof.
  assert (Hone : forall st message (s : L) w e,
             save_raises st message w e ->
             res (sync_repo st message s w) = Raise e /\
             out (sync_repo st message s w) =
               Print (processing_line st) :: out (sync_save st message s w)).
  { intros st message s w e Hraises.
    rewrite sync_repo_run, (sync_save_raises st message s w e Hraises). done. }
  split; [exact Hone|].
  intros pre st rest s w e Hpre Hraises. cbv zeta.
  destruct (Hone st AUTO_MESSAGE s _ e Hraises) as [Hres _].
  rewrite (batch_sync_reaches pre st rest s w Hpre). cbv zeta.
  by rewrite Hres.
Qed.

End SyncExecutor.

(** ** The status inspector *)

Section StatusInspector.
Context {W : Type} `{HostW : Host W}.

Local Arguments check_sync : simpl never.

(** The sync check touches the two counts only, and only with counts. *)
Lemma check_sync_fields r st w :
  let after := store (check_sync r st w) in
  path after = path st /\ name after = name st /\ dirty after = dirty st /\
  repo after = repo st /\ branch after = branch st /\
  (0 <= ahead st -> 0 <= ahead after) /\ (0 <= behind st -> 0 <= behind after).
Proof. check_sync_cases r w; repeat split; auto; lia. Qed.

(** It fetches at most once and opens nothing. *)
Lemma check_sync_log r st w :
  (calls (out (check_sync r st w)) `prefix_of` [Fetch (origin_of r)]) /\
  opened (out (check_sync r st w)) = [] /\
  (world (check_sync r st w) = w \/
   world (check_sync r st w) = (git_fetch (origin_of r) w).2).
Proof.
  check_sync_cases r w;
    (split; [first [done | apply prefix_nil] | split; [done | auto]]).
Qed.

(** Whatever happens inside, the counts stay as they were when there is no
    [origin], when the fetch raises, or when nothing is tracked. *)
Lemma check_sync_unchanged r st w :
  lacks_origin r w \/ is_Raise (git_fetch (origin_of r) w).1 \/ no_tracking r w ->
  store (check_sync r st w) = st.
Proof.
  intros Hwhy. unfold no_tracking in Hwhy.
  check_sync_cases r w; try done.
  all: destruct Hwhy as [(names' & Hn & Hnot)|[Hraise|Hnone]];
    [ assert (names' = names) as -> by congruence;
      apply bool_decide_eq_true_1 in Horigin; contradiction
    | simpl in Hraise; contradiction
    | simpl in Hnone; specialize (Hnone b Hbranch); congruence ].
Qed.

(** So do they on a branch that is level with the one it tracks. *)
Lemma check_sync_synced r st w :
  fully_synced r w -> ahead st = 0 -> behind st = 0 ->
  store (check_sync r st w) = st.
Proof.
  intros ((names' & Hn & Hin) & w2 & b' & rb' & Hf & Hb & Ht & Hc1 & Hc2) Ha Hz.
  check_sync_cases r w; try done; simplify_eq/=.
  all: try (rewrite Hb in Hbranch; simplify_eq).
  all: try (rewrite Ht in Htrack; simplify_eq).
  all: try (rewrite Hc1 in Hbehind; simplify_eq).
  all: try (rewrite Hc2 in Hahead; simplify_eq).
  destruct st; simpl in *; by subst.
Qed.

(** [get_git_status], case by case. *)
Lemma get_git_status_run {L} p (s : L) w :
  get_git_status p s w =
    match git_Repo p w with
    | Raise _ => mkRun (Ok None) s w [Git (RepoOpen p)]
    | Ok _ =>
        match git_is_dirty {| working_dir := p |} w with
        | Raise _ => mkRun (Ok None) s w [Git (RepoOpen p)]
        | Ok d =>
            let checked :=
              check_sync {| working_dir := p |}
                (before_sync p (resolved_branch {| working_dir := p |} w) d) w in
            mkRun (Ok (Some (store checked))) s (world checked)
              (Git (RepoOpen p) :: out checked)
        end
    end.
Proof.
  unfold get_git_status, Repo, inspect, try_except, bind, call, query, emit,
    modify, get, ret, any_exception, resolved_branch, before_sync,
    set_dirty, set_branch.
  simpl.
  destruct (git_Repo p w) as [[]|e]; simpl; [|done].
  destruct (git_active_branch {| working_dir := p |} w) as [b|e]; simpl;
    (destruct (git_is_dirty {| working_dir := p |} w) as [[]|e']; simpl; [| |done]);
    match goal with
    | |- context [check_sync ?r ?st ?w0] =>
        destruct (check_sync r st w0) as [[[]|?] s1 w1 o1]
    end; simpl; by rewrite ?app_nil_r.
Qed.

Lemma check_sync_no_origin r st w :
  lacks_origin r w -> check_sync r st w = mkRun (Raise no_origin_error) st w [].
Proof.
  intros (names & Hnames & Hnot).
  unfold check_sync, remotes_origin, bind, query, raise. simpl.
  rewrite Hnames. simpl. by rewrite bool_decide_eq_false_2.
Qed.

(** What a scan relies on: [get_git_status] never raises, keeps the
    caller's variables, opens exactly [p], fetches at most once, and a
    record it returns is about [p]. *)
Lemma get_git_status_shape {L} p (s : L) w :
  let run := get_git_status p s w in
  (exists o, res run = Ok o) /\
  store run = s /\
  opened (out run) = [p] /\
  (world run = w \/
   world run = (git_fetch (origin_of {| working_dir := p |}) w).2) /\
  (forall st, res run = Ok (Some st) ->
     is_Ok (git_Repo p w) /\ path st = p /\ name st = os_path_basename p).
Proof.
  cbv zeta. rewrite get_git_status_run.
  destruct (git_Repo p w) as [[]|e]; [|by repeat split; eauto].
  destruct (git_is_dirty _ w) as [d|e]; [|by repeat split; eauto].
  cbv zeta. cbn [res store world out].
  pose proof (check_sync_log {| working_dir := p |}
                (before_sync p (resolved_branch {| working_dir := p |} w) d) w)
    as (_ & Hopened & Hworld).
  pose proof (check_sync_fields {| working_dir := p |}
                (before_sync p (resolved_branch {| working_dir := p |} w) d) w)
    as (Hpath & Hname & _).
  cbv zeta in *.
  split; [eauto|]. split; [done|]. split.
  { change (opened (Git (RepoOpen p) :: ?o)) with (p :: opened o).
    by rewrite Hopened. }
  split; [exact Hworld|].
  intros st [= <-]. done.
Qed.

(** A path that does not open as a repository yields no record. *)
Lemma get_git_status_invalid {L} p (s : L) w :
  is_Raise (git_Repo p w) ->
  get_git_status p s w = mkRun (Ok None) s w [Git (RepoOpen p)].
Proof.
  intros Hbad. rewrite get_git_status_run. by destruct (git_Repo p w).
Qed.

(** Without [origin], with a failing fetch or with nothing tracked, the
    record is the one built before the sync check. *)
Lemma get_git_status_unsynced {L} p (s : L) w :
  lacks_origin {| working_dir := p |} w \/
  is_Raise (git_fetch (origin_of {| working_dir := p |}) w).1 \/
  no_tracking {| working_dir := p |} w ->
  res (get_git_status p s w) =
    match git_Repo p w, git_is_dirty {| working_dir := p |} w with
    | Ok _, Ok d =>
        Ok (Some (before_sync p (resolved_branch {| working_dir := p |} w) d))
    | _, _ => Ok None
    end.
Proof.
  intros Hwhy. rewrite get_git_status_run.
  destruct (git_Repo p w) as [[]|e]; [|done].
  destruct (git_is_dirty _ w) as [d|e]; [|done].
  cbv zeta. cbn [res]. by rewrite check_sync_unchanged.
Qed.

(** [sync_repo] on a repository without [origin]: only the calls of the
    save block, and then the error report. *)
Lemma sync_repo_without_origin {L} st message (s : L) w :
  (forall w', lacks_origin (repo st) w') ->
  (calls (out (sync_repo st message s w)) `prefix_of` save_calls st message) /\
  (is_Ok (res (sync_save st message s w)) ->
     res (sync_repo st message s w) = Ok tt /\
     exists before,
       out (sync_repo st message s w) =
         (before ++ [Print (error_syncing_line no_origin_error)])%list).
Proof.
  intros Hnone. rewrite sync_repo_run.
  pose proof (sync_save_calls (L:=L) st message s w) as (_ & Hpre & _).
  cbv zeta in *.
  destruct (res (sync_save st message s w)) as [[]|e].
  - rewrite (sync_push_pull_no_origin st _ _ (Hnone _)).
    cbn [res]. rewrite no_origin_error_ordinary.
    cbn [res out app]. split.
    + change (calls (Print ?l :: ?o)) with (calls o).
      rewrite calls_app. simpl. by rewrite app_nil_r.
    + intros _. split; [done|].
      by exists (Print (processing_line st) :: out (sync_save st message s w)).
  - split; [exact Hpre | intros []].
Qed.

(** The sync check when the lookup of [origin], the fetch and the two
    branch look-ups answer: what the record holds after each count. *)
Lemma check_sync_counts r st w wf lb tb :
  has_origin r w ->
  git_fetch (origin_of r) w = (Ok tt, wf) ->
  git_active_branch r wf = Ok lb ->
  git_tracking_branch r lb wf = Ok (Some tb) ->
  world (check_sync r st w) = wf /\
  out (check_sync r st w) = [Git (Fetch (origin_of r))] /\
  store (check_sync r st w) =
    match git_count_commits r (lb +:+ ".." +:+ tb) wf,
          git_count_commits r (tb +:+ ".." +:+ lb) wf with
    | Ok n, Ok m => set_ahead (Z.of_nat m) (set_behind (Z.of_nat n) st)
    | Ok n, Raise _ => set_behind (Z.of_nat n) st
    | Raise _, _ => st
    end.
Proof.
  intros (names' & Hn & Hin) Hf Hb Ht.
  check_sync_cases r w; simplify_eq/=.
  all: try (assert (names' = names) as -> by congruence).
  all: try (apply bool_decide_eq_false_1 in Horigin; contradiction).
  all: try congruence.
  all: try (rewrite Hb in Hbranch; simplify_eq).
  all: try (rewrite Ht in Htrack; simplify_eq).
  all: rewrite ?Hbehind, ?Hahead; done.
Qed.

(** A sync check that raises before the counts assigns nothing. *)
Lemma check_sync_stopped_early r st w :
  sync_check_fails_early r w -> store (check_sync r st w) = st.
Proof.
  unfold sync_check_fails_early. intros Hwhy.
  check_sync_cases r w; try done.
  all: destruct Hwhy as [Hraise|[(names' & Hn & Hnot)|[Hraise|[Hraise|
         (b' & Hb' & [Hraise|(rb' & Hrb' & Hraise)])]]]];
    try (simpl in Hraise; contradiction);
    try (assert (names' = names) as -> by congruence;
         apply bool_decide_eq_true_1 in Horigin; contradiction).
  all: simpl in *.
  all: try (rewrite Hbranch in Hraise; contradiction).
  all: try (rewrite Hbranch in Hb'; simplify_eq).
  all: try (rewrite Htrack in Hraise; contradiction).
  all: try (rewrite Htrack in Hrb'; simplify_eq).
  all: try (rewrite Hbehind in Hraise; contradiction).
Qed.

(** One that raises at the second count has assigned [behind]. *)
Lemma check_sync_stopped_late r st w n :
  sync_check_fails_late r w n ->
  store (check_sync r st w) = set_behind (Z.of_nat n) st.
Proof.
  intros (Horigin & w1 & b & rb & Hfetch & Hbranch & Htrack & Hfirst & Hsecond).
  destruct (check_sync_counts r st w w1 b rb Horigin Hfetch Hbranch Htrack)
    as (_ & _ & ->).
  rewrite Hfirst. by destruct (git_count_commits r (rb +:+ ".." +:+ b) w1).
Qed.

(** C4, as amended. For a path that opens as a repository, resolving the
    branch and the sync check are fault tolerant: a failure of the first
    gives the branch [DETACHED]; a failure in the second leaves the counts
    at what was assigned before it, both zero when it is the lookup of
    [origin], the fetch, a branch look-up or the first count that raises,
    [behind] counted and [ahead] zero when it is the second count; and in
    each case the record is returned with path, name, branch and dirty flag
    set.  The dirty check is not: when it raises, no record is
    returned. *)
Theorem get_git_status_fault_tolerance {L} p (s : L) w :
  is_Ok (git_Repo p w) ->
  let r := {| working_dir := p |} in
  let run := get_git_status p s w in
  match git_is_dirty r w with
  | Raise _ => res run = Ok None
  | Ok d =>
      let record := before_sync p (resolved_branch r w) d in
      (exists st,
         res run = Ok (Some st) /\
         path st = p /\ name st = os_path_basename p /\ repo st = r /\
         dirty st = d /\ branch st = resolved_branch r w /\
         0 <= ahead st /\ 0 <= behind st /\
         (is_Raise (git_fetch (origin_of r) w).1 -> ahead st = 0 /\ behind st = 0)) /\
      (is_Raise (git_active_branch r w) ->
       forall st, res run = Ok (Some st) -> branch st = "DETACHED") /\
      (sync_check_fails_early r w -> res run = Ok (Some record)) /\
      (forall n, sync_check_fails_late r w n ->
         res run = Ok (Some (set_behind (Z.of_nat n) record)))
  end.
Proof.
  intros Hopen. cbv zeta. rewrite get_git_status_run.
  destruct (git_Repo p w) as [[]|e]; [|done].
  destruct (git_is_dirty _ w) as [d|e]; [|done].
  cbv zeta. cbn [res]. split; [|split; [|split]].
  - eexists. split; [reflexivity|].
    pose proof (check_sync_fields {| working_dir := p |}
                  (before_sync p (resolved_branch {| working_dir := p |} w) d) w)
      as (Hpath & Hname & Hdirty & Hrepo & Hbranch & Hahead & Hbehind).
    cbv zeta in *. simpl in *.
    split_and!; auto; [by apply Hahead | by apply Hbehind |].
    intros Hraise. by rewrite check_sync_unchanged by auto.
  - intros Hraise st [= <-].
    pose proof (check_sync_fields {| working_dir := p |}
                  (before_sync p (resolved_branch {| working_dir := p |} w) d) w)
      as (_ & _ & _ & _ & -> & _).
    unfold resolved_branch. simpl. by destruct (git_active_branch _ w).
  - intros Hearly. by rewrite check_sync_stopped_early.
  - intros n Hlate. by rewrite (check_sync_stopped_late _ _ _ n).
Qed.
(** C6. [get_git_status] never raises; and when the fetch raises, or the
    current branch tracks nothing, every record it returns has
    [ahead = 0] and [behind = 0]; it does return one as soon as the path
    opens and the dirty check succeeds, and that record is the very one a
    branch level with its remote gets. *)
Theorem get_git_status_swallows_sync_failures {L} p (s : L) w :
  let r := {| working_dir := p |} in
  let run := get_git_status p s w in
  (exists o, res run = Ok o) /\
  (is_Raise (git_fetch (origin_of r) w).1 \/ no_tracking r w ->
     (forall st, res run = Ok (Some st) -> ahead st = 0 /\ behind st = 0) /\
     (is_Ok (git_Repo p w) ->
      forall d, git_is_dirty r w = Ok d ->
        res run = Ok (Some (before_sync p (resolved_branch r w) d)))) /\
  (fully_synced r w ->
     is_Ok (git_Repo p w) ->
     forall d, git_is_dirty r w = Ok d ->
       res run = Ok (Some (before_sync p (resolved_branch r w) d))).
Proof.
  cbv zeta. split; [apply (get_git_status_shape p s w)|]. split.
  - intros Hwhy.
    rewrite (get_git_status_unsynced p s w) by auto.
    destruct (git_Repo p w) as [[]|e]; [|by split].
    destruct (git_is_dirty _ w) as [d|e]; [|by split].
    split; [by intros st [= <-] | by intros _ d' [= ->]].
  - intros Hsynced Hopen d Hdirty. rewrite get_git_status_run.
    destruct (git_Repo p w) as [[]|e]; [|done].
    rewrite Hdirty. cbv zeta. cbn [res].
    by rewrite check_sync_synced.
Qed.

(** C9. Every remote interaction goes through the remote called [origin].
    For a repository that has remotes under other names only, or none:
    [get_git_status] does not fetch and reports [ahead = 0] and
    [behind = 0] whatever the commits are; [sync_repo] makes no call but
    those of the save block, so neither pulls nor pushes, and, once that
    block is through, ends with the error report of the failed lookup. *)
Theorem origin_is_hard_coded {L} (r : RepoObj) :
  (forall w, lacks_origin r w) ->
  (forall (s : L) w,
     let run := get_git_status (working_dir r) s w in
     calls (out run) = [RepoOpen (working_dir r)] /\
     (forall st, res run = Ok (Some st) -> ahead st = 0 /\ behind st = 0) /\
     (is_Ok (git_Repo (working_dir r) w) -> is_Ok (git_is_dirty r w) ->
        exists st, res run = Ok (Some st) /\ ahead st = 0 /\ behind st = 0)) /\
  (forall st message (s : L) w,
     repo st = r ->
     let run := sync_repo st message s w in
     (calls (out run) `prefix_of` save_calls st message) /\
     (is_Ok (res (sync_save st message s w)) ->
        res run = Ok tt /\
        exists before,
          out run = (before ++ [Print (error_syncing_line no_origin_error)])%list)).
Proof.
  intros Hnone. split.
  - intros s w. cbv zeta. destruct r as [p]. simpl. split.
    + rewrite get_git_status_run.
      destruct (git_Repo p w) as [[]|e]; [|done].
      destruct (git_is_dirty _ w) as [d|e]; [|done].
      cbv zeta. cbn [out]. by rewrite check_sync_no_origin.
    + rewrite (get_git_status_unsynced p s w) by auto.
      destruct (git_Repo p w) as [[]|e]; [|by split].
      destruct (git_is_dirty _ w) as [d|e]; [|by split].
      split; [by intros st [= <-] | by eauto].
  - intros st message s w <-. cbv zeta.
    by apply sync_repo_without_origin.
Qed.
End StatusInspector.

(** ** Paths *)

Section Paths.
Lemma basename_from_plain acc n :
  has_sep n = false -> basename_from acc n = acc.
Proof.
  revert acc. induction n as [|c n IH]; intros acc Hn; [done|].
  simpl in *. apply orb_false_iff in Hn as [-> Hn]. by apply IH.
Qed.

Lemma basename_from_last acc a n :
  has_sep n = false -> basename_from acc (a +:+ String sep n) = n.
Proof.
  intros Hn. revert acc. induction a as [|c a IH]; intros acc.
  - change ("" +:+ String sep n) with (String sep n).
    cbn [basename_from]. rewrite Ascii.eqb_refl. by apply basename_from_plain.
  - change (String c a +:+ String sep n) with (String c (a +:+ String sep n)).
    cbn [basename_from]. destruct (Ascii.eqb c sep); apply IH.
Qed.

Lemma endswith_sep_last a :
  endswith_sep a = true -> exists a0, a = a0 +:+ String sep "".
Proof.
  induction a as [|c a IH]; [done|]. simpl.
  destruct a as [|c' a].
  - intros ->%Ascii.eqb_eq. by exists "".
  - intros Ha. destruct (IH Ha) as [a0 ->]. by exists (String c a0).
Qed.

Lemma append_last a0 n : (a0 +:+ String sep "") +:+ n = a0 +:+ String sep n.
Proof.
  induction a0 as [|c a0 IH]; [done|].
  change ((String c a0 +:+ String sep "") +:+ n)
    with (String c ((a0 +:+ String sep "") +:+ n)).
  by rewrite IH.
Qed.

(** The base name of a folder joined to a root is the folder's name. *)
Lemma basename_join a n :
  has_sep n = false -> os_path_basename (os_path_join a n) = n.
Proof.
  intros Hn. unfold os_path_join, os_path_basename.
  assert (startswith_sep n = false) as ->.
  { destruct n as [|c n]; [done|]. simpl in *. by apply orb_false_iff in Hn as [-> _]. }
  destruct (String.eqb a "") eqn:Hempty; simpl.
  - apply String.eqb_eq in Hempty as ->.
    change ("" +:+ n) with n. by apply basename_from_plain.
  - destruct (endswith_sep a) eqn:Hend.
    + destruct (endswith_sep_last a Hend) as [a0 ->].
      rewrite append_last. by apply basename_from_last.
    + by apply basename_from_last.
Qed.



End Paths.

(** ** The scan and the dashboard *)

Section Dashboard.
Context {W : Type} `{HostW : Host W}.
Variable PREFIX : string.

Local Arguments get_git_status : simpl never.

(** One turn of the scan loop. *)
Lemma scan_folder_run n found w :
  scan_folder PREFIX n found w =
    if qualifies PREFIX w n then
      let inspected := get_git_status (os_path_join (ROOT_DIR PREFIX) n) found w in
      match res inspected with
      | Ok (Some st) =>
          mkRun (Ok tt) (found ++ [st])%list (world inspected)
            (out inspected ++
             [PrintRow (status_row (length (found ++ [st])%list) st)])%list
      | Ok None => mkRun (Ok tt) found (world inspected) (out inspected)
      | Raise e => mkRun (Raise e) found (world inspected) (out inspected)
      end
    else mkRun (Ok tt) found w [].
Proof.
  unfold scan_folder, qualifies, bind, ask. cbv beta iota zeta.
  destruct (os_path_isdir _ w && os_path_isdir _ w); [|done].
  pose proof (get_git_status_shape (os_path_join (ROOT_DIR PREFIX) n) found w)
    as (_ & Hstore & _).
  cbv zeta in Hstore.
  destruct (get_git_status (os_path_join (ROOT_DIR PREFIX) n) found w)
    as [[[st|]|e] s1 w1 o1]; simpl in *; subst; by rewrite ?app_nil_r.
Qed.

Lemma scan_folder_res n found w : res (scan_folder PREFIX n found w) = Ok tt.
Proof.
  rewrite scan_folder_run. destruct (qualifies PREFIX w n); [|done].
  pose proof (get_git_status_shape (os_path_join (ROOT_DIR PREFIX) n) found w)
    as ([o Hres] & _).
  cbv zeta in *. rewrite Hres. by destruct o.
Qed.

(** What one turn adds to [repos_found], and what it opens. *)
Lemma scan_folder_adds n found w :
  let run := scan_folder PREFIX n found w in
  (exists new,
     store run = (found ++ new)%list /\
     Forall (fun st => name st = os_path_basename (path st) /\
                       exists w', is_Ok (git_Repo (path st) w')) new /\
     (map path new `sublist_of` opened (out run)) /\
     (all_inspectable PREFIX [n] -> map path new = opened (out run))) /\
  opened (out run) =
    (if qualifies PREFIX w n then [os_path_join (ROOT_DIR PREFIX) n] else []) /\
  (fetch_keeps_directories -> forall p, os_path_isdir p (world run) = os_path_isdir p w).
Proof.
  cbv zeta. rewrite scan_folder_run.
  destruct (qualifies PREFIX w n) eqn:Hq.
  2: { split; [|done]. exists []. rewrite app_nil_r. by repeat split. }
  pose proof (get_git_status_shape (os_path_join (ROOT_DIR PREFIX) n) found w)
    as ([o Hres] & _ & Hopened & Hworld & Hrecord).
  cbv zeta in *. rewrite Hres.
  assert (Hdirs : fetch_keeps_directories -> forall p,
             os_path_isdir p (world (get_git_status (os_path_join (ROOT_DIR PREFIX) n) found w))
             = os_path_isdir p w).
  { intros Hkeep p. destruct Hworld as [-> | ->]; [done | apply Hkeep]. }
  destruct o as [st|]; cbn [store world out].
  - destruct (Hrecord st Hres) as (Hvalid & Hpath & Hname).
    rewrite opened_app, Hopened. simpl.
    split; [|done]. exists [st]. split; [done|]. split.
    { constructor; [|done]. split; [congruence|]. exists w. by rewrite Hpath. }
    simpl. rewrite Hpath. done.
  - rewrite Hopened. split; [|done]. exists []. rewrite app_nil_r.
    split; [done|]. split; [done|]. split; [apply sublist_nil_l|].
    intros Hall. exfalso.
    destruct (Hall n w) as [Hopen Hdirty]; [by left | done |].
    rewrite get_git_status_run in Hres.
    destruct (git_Repo _ w); [|done].
    by destruct (git_is_dirty _ w).
Qed.

Lemma qualifies_stable w w' :
  (forall p, os_path_isdir p w' = os_path_isdir p w) ->
  forall n, qualifies PREFIX w' n = qualifies PREFIX w n.
Proof. intros Hdirs n. unfold qualifies. by rewrite !Hdirs. Qed.

(** The scan loop over a list of folder names. *)
Lemma scan_loop names : forall found w,
  let run := for_each names (scan_folder PREFIX) found w in
  res run = Ok tt /\
  (exists new,
     store run = (found ++ new)%list /\
     Forall (fun st => name st = os_path_basename (path st) /\
                       exists w', is_Ok (git_Repo (path st) w')) new /\
     (map path new `sublist_of` opened (out run)) /\
     (all_inspectable PREFIX names -> map path new = opened (out run))) /\
  (fetch_keeps_directories ->
     opened (out run) =
       map (os_path_join (ROOT_DIR PREFIX))
         (filter (fun n => qualifies PREFIX w n = true) names) /\
     forall p, os_path_isdir p (world run) = os_path_isdir p w).
Proof.
  induction names as [|n names IH]; intros found w; cbv zeta.
  { split; [done|]. split; [|done]. exists []. by rewrite app_nil_r. }
  change (for_each (n :: names) (scan_folder PREFIX) found w)
    with (bind (scan_folder PREFIX n)
            (fun _ => for_each names (scan_folder PREFIX)) found w).
  rewrite (bind_Ok _ _ found w tt (scan_folder_res n found w)).
  cbn [res store world out].
  destruct (scan_folder_adds n found w)
    as ((new1 & Hstore1 & Hall1 & Hsub1 & Hexact1) & Hopened1 & Hdirs1).
  cbv zeta in *. rewrite Hstore1.
  destruct (IH (found ++ new1)%list (world (scan_folder PREFIX n found w)))
    as (Hres & (new2 & Hstore2 & Hall2 & Hsub2 & Hexact2) & Hframe).
  cbv zeta in *.
  split; [exact Hres|]. split.
  - exists (new1 ++ new2)%list. rewrite Hstore2, opened_app, map_app.
    split; [by rewrite app_assoc|]. split; [by apply Forall_app|].
    split; [by apply sublist_app|].
    intros Hvalid. rewrite Hexact1, Hexact2; [done| |].
    + intros m w' Hm. apply Hvalid. by right.
    + intros m w' ->%list_elem_of_singleton. apply Hvalid. by left.
  - intros Hkeep. destruct (Hframe Hkeep) as [Hopened2 Hdirs2].
    specialize (Hdirs1 Hkeep). split.
    + rewrite opened_app, Hopened1, Hopened2.
      rewrite (list_filter_iff _ (fun n0 => qualifies PREFIX w n0 = true) names)
        by (intros m; by rewrite (qualifies_stable w _ Hdirs1)).
      rewrite filter_cons.
      by destruct (qualifies PREFIX w n).
    + intros p. by rewrite Hdirs2.
Qed.

(** The [# SCAN] block, case by case. *)
Lemma scan_run found w :
  scan PREFIX found w =
    if os_path_exists (ROOT_DIR PREFIX) w then
      match os_listdir (ROOT_DIR PREFIX) w with
      | inl text => mkRun (Ok tt) found w [Print ("❌ Error scanning: " +:+ text)]
      | inr entries => for_each (sorted entries) (scan_folder PREFIX) found w
      end
    else mkRun (Ok tt) found w [].
Proof.
  unfold scan, try_except, bind, ask, listdir, query, print, emit.
  cbv beta iota zeta.
  destruct (os_path_exists (ROOT_DIR PREFIX) w); [|done].
  destruct (os_listdir (ROOT_DIR PREFIX) w) as [text|entries]; [done|].
  destruct (scan_loop (sorted entries) found w) as [Hres _]. cbv zeta in Hres.
  destruct (for_each (sorted entries) (scan_folder PREFIX) found w)
    as [r s1 w1 o1]. simpl in *. by subst.
Qed.

Lemma check_permissions_missing {L} (s : L) w :
  os_path_exists (ROOT_DIR PREFIX) w = false ->
  check_permissions PREFIX s w = mkRun (Ok false) s w (warning_lines PREFIX).
Proof.
  intros Hmissing.
  unfold check_permissions, warning_lines, bind, ask, print, emit, ret.
  cbv beta iota zeta. rewrite Hmissing. cbn [negb].
  by destruct (str_in "Mobile" (DEVICE_NAME PREFIX)).
Qed.




(** A turn of the loop over a missing root finds nothing and says so. *)
Lemma dashboard_turn_missing found w :
  os_path_exists (ROOT_DIR PREFIX) w = false ->
  exists rest,
    out (dashboard_turn PREFIX found w) =
      (turn_opening PREFIX ++ Print (no_repositories_line PREFIX) :: rest)%list.
Proof.
  intros Hmissing.
  pose proof (scan_run [] w) as Hscan. rewrite Hmissing in Hscan.
  unfold dashboard_turn, turn_opening, no_repositories_line.
  do 4 (erewrite bind_Ok by reflexivity;
        cbn [out res store world print emit put]).
  erewrite bind_Ok by (by rewrite Hscan).
  rewrite Hscan. cbn [out res store world].
  erewrite bind_Ok by reflexivity. cbn [out res store world get].
  erewrite bind_Ok by reflexivity. cbn [out res store world].
  simpl. by eexists.
Qed.

(** C5. When the root directory does not exist, [check_permissions]
    reports it with a warning and returns [False] instead of raising;
    [main_dashboard], once the operator has pressed Enter, returns without a
    single turn of the command loop: no scan, no menu, no command prompt; and
    a scan of a missing root, as a turn of the loop would make it, yields the
    empty list, which the turn reports. *)
Theorem missing_root_stops_dashboard {L} fuel (s : L) w :
  os_path_exists (ROOT_DIR PREFIX) w = false ->
  check_permissions PREFIX s w = mkRun (Ok false) s w (warning_lines PREFIX) /\
  (forall line w',
     stdin_readline w = (Ok line, w') ->
     main_dashboard PREFIX fuel s w =
       mkRun (Ok (Some tt)) s w'
         (warning_lines PREFIX ++ [Prompt "Press Enter to exit..."])%list) /\
  scan PREFIX [] w = mkRun (Ok tt) [] w [] /\
  (forall found,
     exists rest,
       out (dashboard_turn PREFIX found w) =
         (turn_opening PREFIX ++ Print (no_repositories_line PREFIX) :: rest)%list).
Proof.
  intros Hmissing. split; [by apply check_permissions_missing|].
  split; [|split; [by rewrite scan_run, Hmissing|]].
  - intros line w' Hline. unfold main_dashboard.
    rewrite (bind_Ok _ _ s w false) by (by rewrite check_permissions_missing).
    rewrite check_permissions_missing by done.
    cbn [res store world out negb].
    unfold input, bind, emit, act, ret. cbv beta iota zeta. by rewrite Hline.
  - intros found. by apply dashboard_turn_missing.
Qed.


(** C8. A path that is not a valid repository (opening it raises, or it
    opens and the dirty check raises) makes [get_git_status] return no
    record, without raising and without any effect; the scan never raises;
    and a path that does not open is not in the list the scan builds. *)
Theorem corrupt_repository_is_skipped :
  (forall p (found : list status) w,
     is_Raise (git_Repo p w) \/ is_Raise (git_is_dirty {| working_dir := p |} w) ->
     get_git_status p found w = mkRun (Ok None) found w [Git (RepoOpen p)]) /\
  (forall found w, res (scan PREFIX found w) = Ok tt) /\
  (forall p w,
     (forall w', is_Raise (git_Repo p w')) ->
     p ∉ map path (store (scan PREFIX [] w))).
Proof.
  split; [|split].
  - intros p found w Hbad. rewrite get_git_status_run.
    destruct (git_Repo p w) as [[]|e]; [|done].
    destruct (git_is_dirty _ w) as [d|e]; [|done]. by destruct Hbad.
  - intros found w. rewrite scan_run.
    destruct (os_path_exists (ROOT_DIR PREFIX) w); [|done].
    destruct (os_listdir (ROOT_DIR PREFIX) w) as [text|entries]; [done|].
    apply (scan_loop (sorted entries) found w).
  - intros p w Hbad. rewrite scan_run.
    destruct (os_path_exists (ROOT_DIR PREFIX) w); [|by apply not_elem_of_nil].
    destruct (os_listdir (ROOT_DIR PREFIX) w) as [text|entries];
      [by apply not_elem_of_nil|].
    destruct (scan_loop (sorted entries) [] w) as (_ & (new & -> & Hall & _) & _).
    cbn [app]. intros (st & -> & Hst)%list_elem_of_fmap.
    rewrite list.Forall_forall in Hall.
    destruct (Hall st Hst) as [_ [w' Hopen]].
    specialize (Hbad w'). by destruct (git_Repo (path st) w').
Qed.
End Dashboard.

(** * Beyond the claims *)

(** ** More laws *)

Section MoreLaws.
Context {W : Type} `{HostW : Host W}.

(** The output of [m ;; k]: that of [m], then that of [k] if [m] ended
    normally. *)
Lemma bind_out {L A B} (m : M W L A) (k : A -> M W L B) s w :
  out (bind m k s w) =
    (out (m s w) ++
     match res (m s w) with
     | Ok a => out (k a (store (m s w)) (world (m s w)))
     | Raise _ => []
     end)%list.
Proof.
  unfold bind. destruct (m s w) as [[a|e] s1 w1 o1]; simpl.
  - by destruct (k a s1 w1).
  - by rewrite app_nil_r.
Qed.
End MoreLaws.

Section Substrings.

Lemma str_append_assoc (a b c : string) : (a +:+ b) +:+ c = a +:+ (b +:+ c).
Proof.
  induction a as [|x a IH]; [done|].
  change (String x ((a +:+ b) +:+ c) = String x (a +:+ b +:+ c)). by rewrite IH.
Qed.

Lemma prefix_append needle post : String.prefix needle (needle +:+ post) = true.
Proof.
  induction needle as [|c needle IH]; [by destruct post|].
  change (String c needle +:+ post) with (String c (needle +:+ post)).
  simpl. by destruct (Ascii.ascii_dec c c).
Qed.

Lemma prefix_inv needle hay :
  String.prefix needle hay = true -> exists post, hay = needle +:+ post.
Proof.
  revert hay. induction needle as [|c needle IH]; intros hay; [by exists hay|].
  destruct hay as [|d hay]; simpl; [done|].
  destruct (Ascii.ascii_dec c d) as [->|]; [|done].
  intros [post ->]%IH. exists post. reflexivity.
Qed.

Lemma str_in_unfold needle hay :
  str_in needle hay =
    String.prefix needle hay ||
    match hay with "" => false | String _ hay' => str_in needle hay' end.
Proof. by destruct hay. Qed.

(** [needle in hay] holds exactly when [needle] occurs somewhere in [hay]. *)
Lemma str_in_spec needle hay :
  str_in needle hay = true <-> exists pre post, hay = pre +:+ needle +:+ post.
Proof.
  split.
  - induction hay as [|c hay IH]; rewrite str_in_unfold.
    + rewrite orb_false_r. intros [post ->]%prefix_inv. by exists "", post.
    + intros [[post ->]%prefix_inv|Hin]%orb_true_iff; [by exists "", post|].
      destruct (IH Hin) as (pre & post & ->). by exists (String c pre), post.
  - intros (pre & post & ->). induction pre as [|c pre IH].
    + change ("" +:+ needle +:+ post) with (needle +:+ post).
      by rewrite str_in_unfold, prefix_append.
    + change (String c pre +:+ needle +:+ post)
        with (String c (pre +:+ needle +:+ post)).
      rewrite str_in_unfold, IH. apply orb_true_r.
Qed.
End Substrings.

(** ** Leaving the local variables alone *)

Section KeepingLaws.
Context {W : Type} `{HostW : Host W}.

Lemma keeps_ret {L A} (a : A) : keeps_store (W:=W) (ret (W:=W) (L:=L) a).
Proof. done. Qed.

Lemma keeps_raise {L A} e : keeps_store (W:=W) (raise (W:=W) (L:=L) (A:=A) e).
Proof. done. Qed.

Lemma keeps_emit {L} e : keeps_store (W:=W) (emit (W:=W) (L:=L) e).
Proof. done. Qed.

Lemma keeps_print {L} line : keeps_store (W:=W) (print (L:=L) line).
Proof. done. Qed.

Lemma keeps_get {L} : keeps_store (W:=W) (get (W:=W) (L:=L)).
Proof. done. Qed.

Lemma keeps_ask {L A} (q : W -> A) : keeps_store (W:=W) (ask (L:=L) q).
Proof. done. Qed.

Lemma keeps_query {L A} (q : W -> outcome A) : keeps_store (W:=W) (query (L:=L) q).
Proof. done. Qed.

Lemma keeps_act {L A} (a : W -> outcome A * W) : keeps_store (W:=W) (act (L:=L) a).
Proof. intros s w. unfold act. by destruct (a w). Qed.

Lemma keeps_bind {L A B} (m : M W L A) (k : A -> M W L B) :
  keeps_store m -> (forall a, keeps_store (k a)) -> keeps_store (W:=W) (bind m k).
Proof.
  intros Hm Hk s w. unfold bind. specialize (Hm s w).
  destruct (m s w) as [[a|e] s1 w1 o1]; simpl in *; subst; [|done].
  specialize (Hk a s w1). by destruct (k a s w1).
Qed.

Lemma keeps_try_except {L A} (m : M W L A) catches handler :
  keeps_store m -> (forall e, keeps_store (handler e)) ->
  keeps_store (W:=W) (try_except m catches handler).
Proof.
  intros Hm Hh s w. unfold try_except. specialize (Hm s w).
  destruct (m s w) as [[a|e] s1 w1 o1]; simpl in *; subst; [done|].
  destruct (catches e); [|done].
  specialize (Hh e s w1). by destruct (handler e s w1).
Qed.

Lemma keeps_call {L L' A} (locals : L') (m : M W L' A) :
  keeps_store (call (L:=L) locals m).
Proof. intros s w. unfold call. by destruct (m locals w). Qed.

Lemma keeps_for_each {L A} (l : list A) (body : A -> M W L unit) :
  (forall x, keeps_store (body x)) -> keeps_store (W:=W) (for_each l body).
Proof.
  intros Hbody. induction l as [|x l IH]; [done|].
  apply keeps_bind; [apply Hbody | by intros _].
Qed.

Lemma keeps_input {L} prompt : keeps_store (W:=W) (input (L:=L) prompt).
Proof. apply keeps_bind; [apply keeps_emit | intros _; apply keeps_act]. Qed.

Lemma keeps_if {L A} (b : bool) (m1 m2 : M W L A) :
  keeps_store m1 -> keeps_store m2 -> keeps_store (W:=W) (if b then m1 else m2).
Proof. by destruct b. Qed.
End KeepingLaws.

Create HintDb keeps discriminated.
#[export] Hint Resolve keeps_ret keeps_raise keeps_emit keeps_print keeps_get
  keeps_ask keeps_query keeps_act keeps_call keeps_input : keeps.
#[export] Hint Extern 2 (keeps_store (bind _ _)) =>
  apply keeps_bind; [|intros ?] : keeps.
#[export] Hint Extern 2 (keeps_store (try_except _ _ _)) =>
  apply keeps_try_except; [|intros ?] : keeps.
#[export] Hint Extern 2 (keeps_store (for_each _ _)) =>
  apply keeps_for_each; intros ? : keeps.
#[export] Hint Extern 2 (keeps_store (if _ then _ else _)) => apply keeps_if : keeps.
#[export] Hint Extern 3 (keeps_store (match ?x with _ => _ end)) => destruct x : keeps.

Section KeptByCommands.
Context {W : Type} `{HostW : Host W}.
Variable PREFIX : string.

Lemma keeps_show_file_details {L} r : keeps_store (W:=W) (show_file_details (L:=L) r).
Proof. unfold show_file_details. auto 20 with keeps. Qed.

Lemma keeps_sync_repo {L} st message : keeps_store (W:=W) (sync_repo (L:=L) st message).
Proof. intros s w. apply sync_repo_store. Qed.

Lemma keeps_batch_sync {L} repos : keeps_store (W:=W) (batch_sync (L:=L) repos).
Proof. apply keeps_for_each. intros st. apply keeps_sync_repo. Qed.

Lemma keeps_setup_alias {L} : keeps_store (W:=W) (setup_alias (L:=L) PREFIX).
Proof. unfold setup_alias. auto 20 with keeps. Qed.

Lemma keeps_create_gitignore {L} p : keeps_store (W:=W) (create_gitignore (L:=L) p).
Proof. unfold create_gitignore. auto 20 with keeps. Qed.

Lemma keeps_item {L} repos idx : keeps_store (W:=W) (item (W:=W) (L:=L) repos idx).
Proof. unfold item. destruct (repos !! Z.to_nat idx); auto with keeps. Qed.

Lemma keeps_setup_menu : keeps_store (W:=W) (setup_menu PREFIX).
Proof.
  pose proof (@keeps_setup_alias (list status)).
  pose proof (@keeps_create_gitignore (list status)).
  pose proof (@keeps_item (list status)).
  unfold setup_menu. auto 30 with keeps.
Qed.

Lemma keeps_manage_one choice : keeps_store (W:=W) (manage_one choice).
Proof.
  pose proof (@keeps_show_file_details (list status)).
  pose proof (@keeps_sync_repo (list status)).
  pose proof (@keeps_item (list status)).
  unfold manage_one. auto 30 with keeps.
Qed.

Lemma keeps_sync_all {L} repos : keeps_store (W:=W) (sync_all (L:=L) repos).
Proof.
  pose proof (@keeps_batch_sync L).
  unfold sync_all. auto 20 with keeps.
Qed.
End KeptByCommands.

(** ** More on the status inspector *)

Section Inspector.
Context {W : Type} `{HostW : Host W}.

Local Arguments check_sync : simpl never.

(** The calls of the sync check: a fetch, exactly when [origin] is there. *)
Lemma check_sync_calls r st w :
  (has_origin r w /\
   out (check_sync r st w) = [Git (Fetch (origin_of r))] /\
   world (check_sync r st w) = (git_fetch (origin_of r) w).2) \/
  (~ has_origin r w /\ out (check_sync r st w) = [] /\ world (check_sync r st w) = w).
Proof.
  check_sync_cases r w.
  all: try (left; split;
            [exists names; split; [done | by apply bool_decide_eq_true_1 in Horigin]
            | done]).
  - right. split; [|done]. intros (names' & Hn & Hin).
    assert (names' = names) as -> by congruence.
    by apply bool_decide_eq_false_1 in Horigin.
  - right. split; [|done]. intros (names' & Hn & Hin). congruence.
Qed.

(** X1. When the path opens, the dirty check answers, [origin] is there,
    the fetch goes through and the current branch tracks a remote one,
    [get_git_status] returns the record with [behind] the number of commits
    of [local..remote] and [ahead] that of [remote..local], both counted
    after the fetch.  A count that raises leaves the record half-filled:
    both counts zero when the first raises, [behind] set and [ahead] zero
    when the second does. *)
Theorem get_git_status_counts {L} p (s : L) w d w1 b rb :
  let r := {| working_dir := p |} in
  is_Ok (git_Repo p w) ->
  git_is_dirty r w = Ok d ->
  has_origin r w ->
  git_fetch (origin_of r) w = (Ok tt, w1) ->
  git_active_branch r w1 = Ok b ->
  git_tracking_branch r b w1 = Ok (Some rb) ->
  let run := get_git_status p s w in
  let record := before_sync p (resolved_branch r w) d in
  world run = w1 /\
  calls (out run) = [RepoOpen p; Fetch (origin_of r)] /\
  match git_count_commits r (b +:+ ".." +:+ rb) w1,
        git_count_commits r (rb +:+ ".." +:+ b) w1 with
  | Ok n, Ok m =>
      res run = Ok (Some (set_ahead (Z.of_nat m) (set_behind (Z.of_nat n) record)))
  | Ok n, Raise _ => res run = Ok (Some (set_behind (Z.of_nat n) record))
  | Raise _, _ => res run = Ok (Some record)
  end.
Proof.
  cbv zeta. intros Hopen Hdirty Horigin Hfetch Hbranch Htrack.
  rewrite get_git_status_run.
  destruct (git_Repo p w) as [[]|e]; [|done].
  rewrite Hdirty. cbv zeta. cbn [res world out].
  destruct (check_sync_counts {| working_dir := p |}
              (before_sync p (resolved_branch {| working_dir := p |} w) d)
              w w1 b rb Horigin Hfetch Hbranch Htrack) as (-> & -> & ->).
  split; [done|]. split; [done|].
  destruct (git_count_commits _ (b +:+ ".." +:+ rb) w1); [|done].
  by destruct (git_count_commits _ (rb +:+ ".." +:+ b) w1).
Qed.

(** The calls of [get_git_status] only inspect. *)
Lemma get_git_status_calls {L} p (s : L) w :
  Forall (fun c => inspects_only c = true) (calls (out (get_git_status p s w))).
Proof.
  rewrite get_git_status_run.
  destruct (git_Repo p w) as [[]|e]; [|by repeat constructor].
  destruct (git_is_dirty _ w) as [d|e]; [|by repeat constructor].
  cbv zeta. cbn [out].
  by destruct (check_sync_calls {| working_dir := p |}
                 (before_sync p (resolved_branch {| working_dir := p |} w) d) w)
    as [(_ & -> & _)|(_ & -> & _)]; repeat constructor.
Qed.

(** X2. [get_git_status] only inspects: it opens the path and then fetches
    from [origin], once, exactly when the path opens, the dirty check
    answers and [origin] is there; it never stages, commits, pulls or
    pushes, and only the fetch can change the world. *)
Theorem get_git_status_inspects_only {L} p (s : L) w :
  let r := {| working_dir := p |} in
  let run := get_git_status p s w in
  (calls (out run) = [RepoOpen p] /\ world run = w \/
   calls (out run) = [RepoOpen p; Fetch (origin_of r)] /\
   world run = (git_fetch (origin_of r) w).2) /\
  (Fetch (origin_of r) ∈ calls (out run) <->
   is_Ok (git_Repo p w) /\ is_Ok (git_is_dirty r w) /\ has_origin r w) /\
  Forall (fun c => inspects_only c = true) (calls (out run)).
Proof.
  cbv zeta. rewrite get_git_status_run.
  assert (Hnot : Fetch (origin_of {| working_dir := p |}) ∉ [RepoOpen p]).
  { intros Hin. apply list_elem_of_singleton in Hin. discriminate. }
  destruct (git_Repo p w) as [[]|e].
  2: { split; [by left|]. split; [|by repeat constructor].
       split; [done | by intros ([] & _)]. }
  destruct (git_is_dirty _ w) as [d|e].
  2: { split; [by left|]. split; [|by repeat constructor].
       split; [done | by intros (_ & [] & _)]. }
  cbv zeta. cbn [res world out].
  destruct (check_sync_calls {| working_dir := p |}
              (before_sync p (resolved_branch {| working_dir := p |} w) d) w)
    as [(Horigin & -> & ->)|(Hnone & -> & ->)].
  - split; [by right|]. split; [|by repeat constructor].
    split; [done|]. intros _. right. by left.
  - split; [by left|]. split; [|by repeat constructor].
    split; [done | by intros (_ & _ & ?)].
Qed.

(** X3. For a repository with a detached HEAD ([active_branch] raises),
    every record that [get_git_status] returns has the branch [DETACHED]
    and both counts zero, so that its row says "Unsaved Work" or "Synced",
    never ahead or behind. *)
Theorem detached_head_shows_no_counts {L} p (s : L) w st :
  (forall w', is_Raise (git_active_branch {| working_dir := p |} w')) ->
  res (get_git_status p s w) = Ok (Some st) ->
  branch st = "DETACHED" /\ ahead st = 0 /\ behind st = 0 /\
  forall n, row_msg (status_row n st) = if dirty st then "Unsaved Work" else "Synced".
Proof.
  intros Hdetached. rewrite get_git_status_run.
  destruct (git_Repo p w) as [[]|e]; [|done].
  destruct (git_is_dirty _ w) as [d|e]; [|done].
  cbv zeta. cbn [res]. intros [= <-].
  assert (Hbranch : resolved_branch {| working_dir := p |} w = "DETACHED").
  { unfold resolved_branch. specialize (Hdetached w).
    by destruct (git_active_branch _ w). }
  rewrite check_sync_unchanged.
  - rewrite Hbranch. split; [done|]. split; [done|]. split; [done|].
    intros n. unfold status_row. simpl. by destruct d.
  - right. right. intros b Hb. specialize (Hdetached (git_fetch (origin_of {| working_dir := p |}) w).2).
    by rewrite Hb in Hdetached.
Qed.
End Inspector.

(** ** More on the sync executor *)

Section Executor.
Context {W : Type} `{HostW : Host W}.

(** The body of the [try] when the pull raises: the pull is its only
    call. *)
Lemma sync_push_pull_pull_raises {L} st (s : L) w e :
  has_origin (repo st) w ->
  0 < behind st ->
  (git_pull (origin_of (repo st)) w).1 = Raise e ->
  sync_push_pull st s w =
    mkRun (Raise e) s (git_pull (origin_of (repo st)) w).2
      [Git (Pull (origin_of (repo st)))].
Proof.
  intros (names & Hnames & Hin) Hbehind Hpull.
  unfold sync_push_pull, remotes_origin, pull, push, bind, act, query, raise.
  simpl. rewrite Hnames. simpl. rewrite bool_decide_eq_true_2 by done. simpl.
  fold (origin_of (repo st)).
  assert ((0 <? behind st) = true) as -> by lia. simpl.
  destruct (git_pull (origin_of (repo st)) w) as [[[]|e'] w1]; simpl in *; [done|].
  by simplify_eq.
Qed.

(** X4. A pull that raises an ordinary error ends the sync of that
    repository: [sync_repo] returns normally with the error as its last
    line, its calls are those of the save block and the pull, and the push
    is not attempted, so that what was committed stays local. *)
Theorem failed_pull_skips_push {L} st message (s : L) w e :
  let saved := sync_save st message s w in
  let origin := origin_of (repo st) in
  is_Ok (res saved) ->
  has_origin (repo st) (world saved) ->
  0 < behind st ->
  (git_pull origin (world saved)).1 = Raise e ->
  is_Exception e = true ->
  let run := sync_repo st message s w in
  res run = Ok tt /\
  world run = (git_pull origin (world saved)).2 /\
  calls (out run) = (save_calls st message ++ [Pull origin])%list /\
  (Push origin ∉ calls (out run)) /\
  exists before,
    out run = (before ++ [Git (Pull origin); Print (error_syncing_line e)])%list.
Proof.
  cbv zeta. intros Hsaved Horigin Hbehind Hpull Hexc.
  rewrite sync_repo_run.
  pose proof (sync_save_calls (L:=L) st message s w) as (Hs & _ & Hall).
  cbv zeta in *. specialize (Hall Hsaved).
  destruct (res (sync_save st message s w)) as [[]|e0]; [|done].
  cbv zeta.
  rewrite (sync_push_pull_pull_raises st _ _ e Horigin Hbehind Hpull).
  cbn [res store world out]. rewrite Hexc. cbn [res store world out].
  assert (Hcalls : calls (Print (processing_line st)
                     :: out (sync_save st message s w) ++
                        [Git (Pull (origin_of (repo st)))] ++
                        [Print (error_syncing_line e)])
                   = (save_calls st message ++ [Pull (origin_of (repo st))])%list).
  { change (calls (Print ?l :: ?o)) with (calls o).
    by rewrite calls_app, Hall. }
  split; [done|]. split; [done|]. split; [exact Hcalls|]. split.
  - rewrite Hcalls. unfold save_calls.
    destruct (dirty st); simpl; intros Hin;
      repeat (apply elem_of_cons in Hin as [Hin|Hin]; [discriminate|]);
      by apply elem_of_nil in Hin.
  - exists (Print (processing_line st) :: out (sync_save st message s w)).
    reflexivity.
Qed.

(** X5. An exception of the [try] body that is no [Exception] (an
    interrupt) passes the [except] of [sync_repo]: [sync_repo] ends with
    it, nothing is printed after the output of the body, and a batch that
    reaches the repository, wherever it stands in the list, ends there
    without a look at the repositories that follow. *)
Theorem interrupt_is_not_swallowed {L} st message (s : L) w e :
  let saved := sync_save st message s w in
  let tried := sync_push_pull st (store saved) (world saved) in
  is_Ok (res saved) ->
  res tried = Raise e ->
  is_Exception e = false ->
  (res (sync_repo st message s w) = Raise e /\
   out (sync_repo st message s w) =
     (Print (processing_line st) :: out saved ++ out tried)%list) /\
  (message = AUTO_MESSAGE ->
   forall pre rest w0,
     is_Ok (res (batch_sync pre s w0)) ->
     world (batch_sync pre s w0) = w ->
     res (batch_sync (pre ++ st :: rest) s w0) = Raise e /\
     out (batch_sync (pre ++ st :: rest) s w0) =
       (out (batch_sync pre s w0) ++ out (sync_repo st AUTO_MESSAGE s w))%list /\
     world (batch_sync (pre ++ st :: rest) s w0) =
       world (sync_repo st AUTO_MESSAGE s w)).
Proof.
  cbv zeta. intros Hsaved Htried Hexc.
  assert (Hone : res (sync_repo st message s w) = Raise e /\
                 out (sync_repo st message s w) =
                   (Print (processing_line st)
                    :: out (sync_save st message s w) ++
                       out (sync_push_pull st (store (sync_save st message s w))
                              (world (sync_save st message s w))))%list).
  { rewrite sync_repo_run.
    destruct (res (sync_save st message s w)) as [[]|e0]; [|done].
    cbv zeta. by rewrite Htried, Hexc. }
  split; [exact Hone|].
  intros -> pre rest w0 Hpre <-. destruct Hone as [Hres _].
  rewrite (batch_sync_reaches pre st rest s w0 Hpre). cbv zeta.
  by rewrite Hres.
Qed.

(** One repository of the batch after the other. *)
Lemma batch_sync_out {L} st rest (s : L) w :
  out (batch_sync (st :: rest) s w) =
    (out (sync_repo st AUTO_MESSAGE s w) ++
     match res (sync_repo st AUTO_MESSAGE s w) with
     | Ok _ => out (batch_sync rest s (world (sync_repo st AUTO_MESSAGE s w)))
     | Raise _ => []
     end)%list.
Proof. by rewrite batch_sync_cons, bind_out, sync_repo_store. Qed.

(** X6. When every repository of the list saves cleanly and has an
    [origin] that cooperates, the batch ends normally and its calls are the
    sequences commit, pull, push of the repositories, one after the other
    in the order of the list, with the automatic message. *)
Theorem batch_sync_in_list_order {L} repos (s : L) w :
  (forall st, st ∈ repos -> saves_cleanly (repo st) /\ remote_cooperates (repo st)) ->
  res (batch_sync repos s w) = Ok tt /\
  store (batch_sync repos s w) = s /\
  calls (out (batch_sync repos s w)) =
    concat (map (fun st => sync_sequence st AUTO_MESSAGE) repos).
Proof.
  revert w. induction repos as [|st rest IH]; intros w Hgood; [done|].
  destruct (Hgood st) as [Hsave Hremote]; [by left|].
  destruct (sync_repo_calls_complete (L:=L) st AUTO_MESSAGE s w Hsave Hremote)
    as [Hres Hcalls].
  destruct (IH (world (sync_repo st AUTO_MESSAGE s w))) as (IHres & IHstore & IHcalls).
  { intros st' Hst'. apply Hgood. by right. }
  rewrite batch_sync_out, batch_sync_cons, (bind_Ok _ _ s w tt Hres), Hres.
  cbn [res store]. rewrite sync_repo_store.
  split; [exact IHres|]. split; [exact IHstore|].
  by rewrite calls_app, Hcalls, IHcalls.
Qed.

(** X7. Whatever raises, a call of the batch is one that the record of a
    repository of the list asks for; every commit of the batch is for a
    dirty repository of the list and carries the automatic message. *)
Theorem batch_sync_calls_confined {L} repos (s : L) w :
  Forall (fun c => exists st, st ∈ repos /\ c ∈ sync_sequence st AUTO_MESSAGE)
    (calls (out (batch_sync repos s w))) /\
  (forall r message,
     Commit r message ∈ calls (out (batch_sync repos s w)) ->
     message = AUTO_MESSAGE /\ exists st, st ∈ repos /\ dirty st = true /\ repo st = r).
Proof.
  assert (Hall : forall w,
    Forall (fun c => exists st, st ∈ repos /\ c ∈ sync_sequence st AUTO_MESSAGE)
      (calls (out (batch_sync repos s w)))).
  { clear w. induction repos as [|st rest IH]; intros w; [constructor|].
    rewrite batch_sync_out, calls_app. apply Forall_app. split.
    - apply list.Forall_forall. intros c Hc. exists st. split; [by left|].
      destruct (sync_repo_calls_prefix (L:=L) st AUTO_MESSAGE s w) as [k ->].
      apply elem_of_app. by left.
    - destruct (res (sync_repo st AUTO_MESSAGE s w)); [|constructor].
      eapply list.Forall_impl; [apply IH|].
      intros c (st' & Hst' & Hc). exists st'. split; [by right | done]. }
  split; [apply Hall|].
  intros r message Hin.
  specialize (Hall w). rewrite list.Forall_forall in Hall.
  destruct (Hall _ Hin) as (st & Hst & Hc).
  unfold sync_sequence in Hc.
  destruct (dirty st) eqn:Hd, (0 <? behind st), (0 <? ahead st); simpl in Hc;
    repeat (apply elem_of_cons in Hc as [Hc|Hc];
            [first [discriminate | (injection Hc as -> ->; by eauto)]|]);
    by apply elem_of_nil in Hc.
Qed.

(** X8. [show_file_details] prints a heading, a line for every modified
    file, a line for every untracked file and an empty line, and changes
    nothing; when a listing raises, what was printed so far stays and the
    exception goes to the caller. *)
Theorem show_file_details_lists_files {L} (r : RepoObj) (s : L) (w : W) :
  let heading :=
    Print (nl +:+ "   📄 File Status for [" +:+ os_path_basename (working_dir r) +:+ "]:") in
  match git_index_diff r w with
  | Raise e => show_file_details r s w = mkRun (Raise e) s w [heading]
  | Ok changed =>
      let modified := map (fun a_path => Print ("      ✏️  Modified: " +:+ a_path)) changed in
      match git_untracked_files r w with
      | Raise e => show_file_details r s w = mkRun (Raise e) s w (heading :: modified)
      | Ok untracked =>
          show_file_details r s w =
            mkRun (Ok tt) s w
              (heading :: modified ++
               map (fun item => Print ("      🆕 New File: " +:+ item)) untracked ++
               [Print ""])
      end
  end.
Proof.
  cbv zeta. unfold show_file_details, bind. simpl.
  destruct (git_index_diff r w) as [changed|e]; simpl; [|done].
  rewrite (for_each_print (fun x => "      ✏️  Modified: " +:+ x)). simpl.
  destruct (git_untracked_files r w) as [untracked|e]; simpl.
  - rewrite (for_each_print (fun x => "      🆕 New File: " +:+ x)). simpl. done.
  - by rewrite app_nil_r.
Qed.
End Executor.

(** ** The table of the scan *)

Section Scan.
Context {W : Type} `{HostW : Host W}.
Variable PREFIX : string.

Local Arguments get_git_status : simpl never.
Local Arguments check_sync : simpl never.

Lemma rows_app l1 l2 : rows (l1 ++ l2) = (rows l1 ++ rows l2)%list.
Proof. apply omap_app. Qed.

Lemma prompts_app l1 l2 : prompts (l1 ++ l2) = (prompts l1 ++ prompts l2)%list.
Proof. apply omap_app. Qed.

(** The output of [get_git_status] is its calls. *)
Lemma get_git_status_out {L} p (s : L) w :
  out (get_git_status p s w) = map Git (calls (out (get_git_status p s w))).
Proof.
  rewrite get_git_status_run.
  destruct (git_Repo p w) as [[]|e]; [|done].
  destruct (git_is_dirty _ w) as [d|e]; [|done].
  cbv zeta. cbn [out].
  by destruct (check_sync_calls {| working_dir := p |}
                 (before_sync p (resolved_branch {| working_dir := p |} w) d) w)
    as [(_ & -> & _)|(_ & -> & _)].
Qed.

Lemma rows_calls (l : list git_call) : rows (map Git l) = [].
Proof. by induction l. Qed.

Lemma prompts_calls (l : list git_call) : prompts (map Git l) = [].
Proof. by induction l. Qed.

Lemma table_from_app first l1 l2 :
  table_from first (l1 ++ l2) =
    (table_from first l1 ++ table_from (first + length l1) l2)%list.
Proof.
  revert first. induction l1 as [|st l1 IH]; intros first; simpl.
  - by rewrite Nat.add_0_r.
  - rewrite IH. do 3 f_equal. lia.
Qed.

(** One turn of the scan loop: what it shows and what it calls. *)
Lemma scan_folder_table n found w :
  let run := scan_folder PREFIX n found w in
  (exists new,
     store run = (found ++ new)%list /\
     rows (out run) = table_from (S (length found)) new) /\
  Forall (fun c => inspects_only c = true) (calls (out run)) /\
  prompts (out run) = [].
Proof.
  cbv zeta. rewrite scan_folder_run.
  destruct (qualifies PREFIX w n).
  2: { split; [exists []; by rewrite app_nil_r|]. by split; [constructor|]. }
  pose proof (get_git_status_out (os_path_join (ROOT_DIR PREFIX) n) found w) as Hout.
  pose proof (get_git_status_calls (os_path_join (ROOT_DIR PREFIX) n) found w)
    as Hcalls.
  cbv zeta in *.
  destruct (res (get_git_status _ found w)) as [[st|]|e]; cbn [store out].
  - split.
    + exists [st]. split; [done|].
      rewrite rows_app, Hout, rows_calls. simpl.
      rewrite length_app. simpl. do 2 f_equal. lia.
    + rewrite calls_app, prompts_app. simpl. rewrite !app_nil_r. split; [done|].
      by rewrite Hout, prompts_calls.
  - split; [|by rewrite Hout at 2; rewrite prompts_calls].
    exists []. rewrite app_nil_r. by rewrite Hout, rows_calls.
  - split; [|by rewrite Hout at 2; rewrite prompts_calls].
    exists []. rewrite app_nil_r. by rewrite Hout, rows_calls.
Qed.

Lemma scan_loop_table names : forall found w,
  let run := for_each names (scan_folder PREFIX) found w in
  (exists new,
     store run = (found ++ new)%list /\
     rows (out run) = table_from (S (length found)) new) /\
  Forall (fun c => inspects_only c = true) (calls (out run)) /\
  prompts (out run) = [].
Proof.
  induction names as [|n names IH]; intros found w; cbv zeta.
  { split; [exists []; by rewrite app_nil_r|]. by split; [constructor|]. }
  change (for_each (n :: names) (scan_folder PREFIX) found w)
    with (bind (scan_folder PREFIX n)
            (fun _ => for_each names (scan_folder PREFIX)) found w).
  rewrite (bind_Ok _ _ found w tt (scan_folder_res PREFIX n found w)).
  cbn [res store world out].
  destruct (scan_folder_table n found w) as ((new1 & Hstore1 & Hrows1) & Hcalls1 & Hquiet1).
  cbv zeta in *. rewrite Hstore1.
  destruct (IH (found ++ new1)%list (world (scan_folder PREFIX n found w)))
    as ((new2 & Hstore2 & Hrows2) & Hcalls2 & Hquiet2).
  cbv zeta in *. split.
  - exists (new1 ++ new2)%list. rewrite Hstore2. split; [by rewrite app_assoc|].
    rewrite rows_app, Hrows1, Hrows2, table_from_app, length_app.
    do 2 f_equal; lia.
  - rewrite calls_app, prompts_app, Hquiet1, Hquiet2. split; [by apply Forall_app | done].
Qed.

Lemma scan_res found w : res (scan PREFIX found w) = Ok tt.
Proof.
  rewrite scan_run.
  destruct (os_path_exists (ROOT_DIR PREFIX) w); [|done].
  destruct (os_listdir (ROOT_DIR PREFIX) w) as [text|entries]; [done|].
  apply (scan_loop PREFIX (sorted entries) found w).
Qed.

Lemma scan_table found w :
  let run := scan PREFIX found w in
  (exists new,
     store run = (found ++ new)%list /\
     rows (out run) = table_from (S (length found)) new) /\
  Forall (fun c => inspects_only c = true) (calls (out run)) /\
  prompts (out run) = [].
Proof.
  cbv zeta. rewrite scan_run.
  destruct (os_path_exists (ROOT_DIR PREFIX) w).
  2: { split; [exists []; by rewrite app_nil_r | by split; [constructor|]]. }
  destruct (os_listdir (ROOT_DIR PREFIX) w) as [text|entries].
  { split; [exists []; by rewrite app_nil_r | by split; [constructor|]]. }
  apply (scan_loop_table (sorted entries) found w).
Qed.

Lemma table_from_lookup first repos k st :
  repos !! k = Some st ->
  table_from first repos !! k = Some (status_row (first + k) st).
Proof.
  revert first k. induction repos as [|st' repos IH]; intros first k; [done|].
  destruct k as [|k]; simpl.
  - intros [= ->]. by rewrite Nat.add_0_r.
  - intros Hk. rewrite (IH (S first) k Hk). do 2 f_equal. lia.
Qed.

Lemma table_from_length first repos : length (table_from first repos) = length repos.
Proof.
  revert first. induction repos as [|st repos IH]; intros first; simpl; [done|].
  by rewrite IH.
Qed.

(** X9. The rows that the scan prints are the rows of the list it builds,
    in order and numbered from one; the number shown next to a repository
    passes the bounds check and selects that repository. *)
Theorem scan_table_numbers_repositories w :
  let run := scan PREFIX [] w in
  rows (out run) = table (store run) /\
  length (rows (out run)) = length (store run) /\
  forall k st,
    store run !! k = Some st ->
    rows (out run) !! k = Some (status_row (S k) st) /\
    in_range (Z.of_nat (S k) - 1) (store run) = true /\
    forall (s : list status) (w' : W),
      item (store run) (Z.of_nat (S k) - 1) s w' = mkRun (Ok st) s w' [].
Proof.
  cbv zeta. destruct (scan_table [] w) as ((new & Hstore & Hrows) & _).
  cbv zeta in *. simpl in Hstore, Hrows. rewrite Hstore, Hrows.
  split; [done|]. split; [apply table_from_length|].
  intros k st Hk. split; [by apply (table_from_lookup 1)|].
  assert (Hlt : (k < length new)%nat) by (by apply lookup_lt_Some in Hk).
  split.
  - unfold in_range. apply andb_true_iff.
    split; [apply Z.leb_le | apply Z.ltb_lt]; lia.
  - intros s w'. unfold item.
    replace (Z.to_nat (Z.of_nat (S k) - 1)) with k by lia.
    by rewrite Hk.
Qed.

(** X10. The scan only inspects: each of its calls opens a path or
    fetches; it never stages, commits, pulls or pushes. *)
Theorem scan_inspects_only found w :
  Forall (fun c => inspects_only c = true) (calls (out (scan PREFIX found w))) /\
  (forall r message,
     (AddAll r ∉ calls (out (scan PREFIX found w))) /\
     (Commit r message ∉ calls (out (scan PREFIX found w)))) /\
  (forall r,
     (Pull r ∉ calls (out (scan PREFIX found w))) /\
     (Push r ∉ calls (out (scan PREFIX found w)))).
Proof.
  destruct (scan_table found w) as (_ & Hcalls & _). cbv zeta in Hcalls.
  split; [exact Hcalls|].
  rewrite list.Forall_forall in Hcalls.
  split; intros; split; intros Hin; by apply Hcalls in Hin.
Qed.
End Scan.

(** ** The turns of the dashboard *)

Section Turn.
Context {W : Type} `{HostW : Host W}.
Variable PREFIX : string.

Local Arguments scan : simpl never.
Local Arguments setup_menu : simpl never.
Local Arguments manage_one : simpl never.
Local Arguments batch_sync : simpl never.

(** One turn of the dashboard: the scan, the screen, the command. *)
Lemma dashboard_turn_run found w :
  dashboard_turn PREFIX found w =
    let scanned := scan PREFIX [] w in
    let repos_found := store scanned in
    let screen := turn_screen PREFIX (out scanned) repos_found in
    match stdin_readline (world scanned) with
    | (Raise e, w1) => mkRun (Raise e) repos_found w1 screen
    | (Ok typed, w1) =>
        let choice := str_lower typed in
        if String.eqb choice "q" then mkRun (Ok false) repos_found w1 screen
        else if String.eqb choice "r" then mkRun (Ok true) repos_found w1 screen
        else if String.eqb choice "s" then
          then_go_on screen (setup_menu PREFIX repos_found w1)
        else if String.eqb choice "a" then
          then_go_on screen (sync_all repos_found repos_found w1)
        else if str_isdigit choice then
          then_go_on screen (manage_one choice repos_found w1)
        else mkRun (Ok true) repos_found w1 screen
    end.
Proof.
  pose proof (scan_res PREFIX [] w) as Hscan.
  unfold dashboard_turn, sync_all, turn_screen, turn_opening, menu_lines,
    no_repositories_line, command_prompt, then_go_on, input, print.
  unfold bind, emit, put, get, act, ret.
  destruct (scan PREFIX [] w) as [[[]|e] s1 w1 o1]; [|done].
  cbv zeta. cbn [res store world out].
  destruct (bool_decide (s1 = [])) eqn:Hempty; cbv beta iota.
  all: destruct (stdin_readline w1) as [[typed|e] w2]; cbv beta iota; [|tidy_log].
  all: destruct (String.eqb (str_lower typed) "q"); cbv beta iota; [tidy_log|].
  all: destruct (String.eqb (str_lower typed) "r"); cbv beta iota; [tidy_log|].
  all: destruct (String.eqb (str_lower typed) "s"); cbv beta iota;
    [destruct (setup_menu PREFIX s1 w2) as [[[]|e] s3 w3 o3]; cbv beta iota; tidy_log|].
  all: destruct (String.eqb (str_lower typed) "a"); cbv beta iota;
    [destruct (batch_sync s1 s1 w2) as [[[]|e] s3 w3 o3]; cbv beta iota;
     [destruct (stdin_readline w3) as [[line|e] w4]; cbv beta iota|]; tidy_log|].
  all: destruct (str_isdigit (str_lower typed)); cbv beta iota;
    [destruct (manage_one (str_lower typed) s1 w2) as [[[]|e] s3 w3 o3]; cbv beta iota;
     tidy_log|].
  all: tidy_log.
Qed.

Lemma check_permissions_present {L} (s : L) w :
  os_path_exists (ROOT_DIR PREFIX) w = true ->
  check_permissions PREFIX s w = mkRun (Ok true) s w [].
Proof.
  intros Hroot. unfold check_permissions, bind, ask, ret.
  cbv beta iota zeta. by rewrite Hroot.
Qed.

(** With the root in place, [main_dashboard] is the command loop, started
    on an empty list. *)
Lemma main_dashboard_run {L} fuel (s : L) w :
  os_path_exists (ROOT_DIR PREFIX) w = true ->
  main_dashboard PREFIX fuel s w =
    let session := dashboard_loop PREFIX fuel [] w in
    mkRun (res session) s (world session) (out session).
Proof.
  intros Hroot. unfold main_dashboard.
  rewrite (bind_Ok _ _ s w true) by (by rewrite check_permissions_present).
  rewrite check_permissions_present by done.
  cbn [res store world out negb app]. unfold call.
  by destruct (dashboard_loop PREFIX fuel [] w).
Qed.

(** The command loop, turn by turn. *)
Lemma dashboard_loop_step fuel found w :
  dashboard_loop PREFIX (S fuel) found w =
    let turn := dashboard_turn PREFIX found w in
    match res turn with
    | Ok true =>
        let next := dashboard_loop PREFIX fuel (store turn) (world turn) in
        mkRun (res next) (store next) (world next) (out turn ++ out next)%list
    | Ok false => mkRun (Ok (Some tt)) (store turn) (world turn) (out turn)
    | Raise e => mkRun (Raise e) (store turn) (world turn) (out turn)
    end.
Proof.
  cbn [dashboard_loop]. unfold bind.
  destruct (dashboard_turn PREFIX found w) as [[[]|e] s1 w1 o1]; cbv zeta;
    cbn [res store world out]; [| |done].
  - by destruct (dashboard_loop PREFIX fuel s1 w1).
  - unfold ret. by rewrite app_nil_r.
Qed.

Lemma calls_turn_screen scanned repos_found :
  calls (turn_screen PREFIX scanned repos_found) = calls scanned.
Proof.
  unfold turn_screen. rewrite !calls_app.
  destruct (bool_decide (repos_found = [])); simpl; by rewrite app_nil_r.
Qed.

Lemma prompts_turn_screen scanned repos_found :
  prompts (turn_screen PREFIX scanned repos_found) =
    (prompts scanned ++ [command_prompt])%list.
Proof.
  unfold turn_screen. rewrite !prompts_app.
  by destruct (bool_decide (repos_found = [])).
Qed.

(** Every turn shows its screen first. *)
Lemma dashboard_turn_shows_screen found w :
  exists rest,
    out (dashboard_turn PREFIX found w) =
      (turn_screen PREFIX (out (scan PREFIX [] w)) (store (scan PREFIX [] w)) ++ rest)%list.
Proof.
  rewrite dashboard_turn_run. cbv zeta.
  destruct (stdin_readline (world (scan PREFIX [] w))) as [[typed|e] w1];
    [|exists []; cbn [out]; by rewrite app_nil_r].
  destruct (String.eqb (str_lower typed) "q");
    [exists []; cbn [out]; by rewrite app_nil_r|].
  destruct (String.eqb (str_lower typed) "r");
    [exists []; cbn [out]; by rewrite app_nil_r|].
  destruct (String.eqb (str_lower typed) "s"); [by eexists|].
  destruct (String.eqb (str_lower typed) "a"); [by eexists|].
  destruct (str_isdigit (str_lower typed)); [by eexists|].
  exists []. cbn [out]. by rewrite app_nil_r.
Qed.

(** X11. When the root is there and listing it raises an [OSError], the
    scan prints "Error scanning" with the message, leaves [repos_found] as
    it is and ends normally; the turn then reports that no repository was
    found and goes on to the menu and the command. *)
Theorem unlistable_root_is_reported found w text :
  os_path_exists (ROOT_DIR PREFIX) w = true ->
  os_listdir (ROOT_DIR PREFIX) w = inl text ->
  scan PREFIX found w =
    mkRun (Ok tt) found w [Print ("❌ Error scanning: " +:+ text)] /\
  exists rest,
    out (dashboard_turn PREFIX found w) =
      (turn_opening PREFIX ++
       [Print ("❌ Error scanning: " +:+ text); Print (no_repositories_line PREFIX)] ++
       menu_lines ++ [Prompt command_prompt] ++ rest)%list.
Proof.
  intros Hroot Hlist.
  assert (Hscan : forall found', scan PREFIX found' w =
            mkRun (Ok tt) found' w [Print ("❌ Error scanning: " +:+ text)])
    by (intros found'; by rewrite scan_run, Hroot, Hlist).
  split; [apply Hscan|].
  destruct (dashboard_turn_shows_screen found w) as [rest ->].
  rewrite Hscan. cbn [out store]. exists rest.
  unfold turn_screen. rewrite bool_decide_eq_true_2 by done.
  by rewrite <- !app_assoc.
Qed.

(** X12. With the root in place, a first command that is [q] in either
    case ends [main_dashboard] normally after one turn: it has shown the
    screen of that turn and asked for one command, and its calls are those
    of the one scan. *)
Theorem quit_ends_dashboard {L} fuel (s : L) w typed w1 :
  let scanned := scan PREFIX [] w in
  os_path_exists (ROOT_DIR PREFIX) w = true ->
  stdin_readline (world scanned) = (Ok typed, w1) ->
  str_lower typed = "q" ->
  let run := main_dashboard PREFIX (S fuel) s w in
  res run = Ok (Some tt) /\ store run = s /\ world run = w1 /\
  out run = turn_screen PREFIX (out scanned) (store scanned) /\
  calls (out run) = calls (out scanned) /\
  prompts (out run) = [command_prompt].
Proof.
  cbv zeta. intros Hroot Hline Hq.
  rewrite (main_dashboard_run _ _ _ Hroot), dashboard_loop_step, dashboard_turn_run.
  cbv zeta. rewrite Hline, Hq. cbn [String.eqb Ascii.eqb Bool.eqb res store world out].
  rewrite calls_turn_screen, prompts_turn_screen.
  destruct (scan_table PREFIX [] w) as (_ & _ & ->). done.
Qed.

(** X13. The command [r], and every line that is none of [q], [s], [a]
    and no number (the empty line is one), does nothing: the turn ends
    with the list as scanned, only the command read, and the loop goes on
    with the next turn. *)
Theorem unknown_command_refreshes fuel found w typed w1 :
  let scanned := scan PREFIX [] w in
  let choice := str_lower typed in
  stdin_readline (world scanned) = (Ok typed, w1) ->
  choice = "r" \/
  (choice <> "q" /\ choice <> "s" /\ choice <> "a" /\ str_isdigit choice = false) ->
  dashboard_turn PREFIX found w =
    mkRun (Ok true) (store scanned) w1
      (turn_screen PREFIX (out scanned) (store scanned)) /\
  out (dashboard_loop PREFIX (S fuel) found w) =
    (turn_screen PREFIX (out scanned) (store scanned) ++
     out (dashboard_loop PREFIX fuel (store scanned) w1))%list.
Proof.
  cbv zeta. intros Hline Hchoice.
  assert (Hturn : dashboard_turn PREFIX found w =
                  mkRun (Ok true) (store (scan PREFIX [] w)) w1
                    (turn_screen PREFIX (out (scan PREFIX [] w))
                       (store (scan PREFIX [] w)))).
  { rewrite dashboard_turn_run. cbv zeta. rewrite Hline.
    destruct Hchoice as [->|(Hq & Hs & Ha & Hdigit)]; [done|].
    apply String.eqb_neq in Hq, Hs, Ha. rewrite Hq, Hs, Ha, Hdigit.
    by destruct (String.eqb (str_lower typed) "r"). }
  split; [exact Hturn|].
  by rewrite dashboard_loop_step, Hturn.
Qed.
End Turn.

(** ** Managing one repository *)

Section Manage.
Context {W : Type} `{HostW : Host W}.
Variable PREFIX : string.

Local Arguments scan : simpl never.
Local Arguments sync_repo : simpl never.
Local Arguments show_file_details : simpl never.
Local Arguments batch_sync : simpl never.

Lemma in_range_spec idx (repos_found : list status) :
  in_range idx repos_found = true <-> 0 <= idx < Z.of_nat (length repos_found).
Proof.
  unfold in_range. rewrite andb_true_iff, Z.leb_le, Z.ltb_lt. done.
Qed.

(** A number that is no row of the table. *)
Lemma manage_one_out_of_range choice repos_found w n :
  int_of_str choice = Ok n ->
  n <= 0 \/ Z.of_nat (length repos_found) < n ->
  manage_one choice repos_found w = mkRun (Ok tt) repos_found w [].
Proof.
  intros Hint Hout. unfold manage_one, bind, query, get.
  rewrite Hint. cbv beta iota zeta.
  assert (in_range (n - 1) repos_found = false) as ->; [|done].
  apply not_true_is_false. rewrite in_range_spec. lia.
Qed.

Lemma prompts_prints (f : string -> string) (l : list string) :
  prompts (map (fun x => Print (f x)) l) = [].
Proof. by induction l. Qed.

(** [show_file_details] asks nothing. *)
Lemma show_file_details_asks_nothing {L} (r : RepoObj) (s : L) (w : W) :
  prompts (out (show_file_details r s w)) = [].
Proof.
  unfold show_file_details, bind. simpl.
  destruct (git_index_diff r w) as [changed|e]; simpl; [|done].
  rewrite (for_each_print (fun x => "      ✏️  Modified: " +:+ x)). simpl.
  destruct (git_untracked_files r w) as [untracked|e]; simpl.
  - rewrite (for_each_print (fun x => "      🆕 New File: " +:+ x)). simpl.
    by rewrite !prompts_app, !prompts_prints.
  - by rewrite !prompts_app, !prompts_prints.
Qed.

(** What the details shown before the question do. *)
Lemma manage_details_quiet (target : status) (repos_found : list status) w :
  let shown :=
    (if dirty target then show_file_details (repo target) else ret tt) repos_found w in
  store shown = repos_found /\ world shown = w /\ calls (out shown) = [] /\
  prompts (out shown) = [] /\
  ((dirty target = true ->
    is_Ok (git_index_diff (repo target) w) /\
    is_Ok (git_untracked_files (repo target) w)) ->
   res shown = Ok tt).
Proof.
  cbv zeta. destruct (dirty target); [|by repeat split].
  pose proof (show_file_details_quiet (L:=list status) (repo target) repos_found w)
    as (Hs & Hw & Hc & Hr).
  cbv zeta in *. split; [done|]. split; [done|]. split; [done|]. split.
  - apply show_file_details_asks_nothing.
  - intros Hok. destruct (Hok eq_refl) as [Hdiff Hunt].
    destruct (git_index_diff (repo target) w); [|done].
    by destruct (git_untracked_files (repo target) w).
Qed.

(** A row of the table, chosen by its number: up to the question. *)
Lemma manage_one_asks choice repos_found w n target :
  int_of_str choice = Ok n ->
  1 <= n ->
  repos_found !! Z.to_nat (n - 1) = Some target ->
  (dirty target = true ->
   is_Ok (git_index_diff (repo target) w) /\
   is_Ok (git_untracked_files (repo target) w)) ->
  exists shown,
    calls shown = [] /\ prompts shown = [] /\
    manage_one choice repos_found w =
      match stdin_readline w with
      | (Raise e, w2) =>
          mkRun (Raise e) repos_found w2
            (shown ++ [Prompt "   Sync this repo? (y/n): "])%list
      | (Ok answer, w2) =>
          let asked :=
            if String.eqb (str_lower answer) "y" then
              match stdin_readline w2 with
              | (Raise e, w3) =>
                  mkRun (Raise e) repos_found w3
                    [Prompt "   Enter commit message (or Enter for auto): "]
              | (Ok typed, w3) =>
                  let synced :=
                    sync_repo target
                      (if String.eqb typed "" then UPDATE_MESSAGE else typed)
                      repos_found w3 in
                  mkRun (res synced) repos_found (world synced)
                    (Prompt "   Enter commit message (or Enter for auto): "
                     :: out synced)
              end
            else mkRun (Ok tt) repos_found w2 [] in
          match res asked with
          | Raise e =>
              mkRun (Raise e) repos_found (world asked)
                (shown ++ Prompt "   Sync this repo? (y/n): " :: out asked)%list
          | Ok _ =>
              mkRun (match (stdin_readline (world asked)).1 with
                     | Ok _ => Ok tt
                     | Raise e => Raise e
                     end)
                repos_found (stdin_readline (world asked)).2
                (shown ++ Prompt "   Sync this repo? (y/n): " :: out asked ++
                 [Prompt (nl +:+ "Done. Press Enter...")])%list
          end
      end.
Proof.
  intros Hint Hn Htarget Hdetails.
  destruct (manage_details_quiet target repos_found w) as (Hs & Hw & Hc & Hp & Hr).
  cbv zeta in *. specialize (Hr Hdetails).
  exists (Print (nl +:+ "🚀 Managing: " +:+ name target)
          :: out ((if dirty target then show_file_details (repo target) else ret tt)
                    repos_found w)).
  split; [exact Hc|]. split; [exact Hp|].
  unfold manage_one, item. unfold bind at 1. unfold query at 1. rewrite Hint.
  cbv beta iota zeta. unfold bind at 1. unfold get at 1. cbv beta iota zeta.
  assert (in_range (n - 1) repos_found = true) as ->.
  { apply in_range_spec. apply lookup_lt_Some in Htarget. lia. }
  rewrite Htarget.
  unfold input, bind, ret, print, emit, act. cbv beta iota zeta.
  unfold ret in Hs, Hw, Hr.
  match goal with
  | |- context [(if dirty target then ?a else ?b) repos_found w] =>
      destruct ((if dirty target then a else b) repos_found w) as [r1 s1 w1 o1]
  end.
  cbn [res store world out] in *. subst r1 s1 w1.
  destruct (stdin_readline w) as [[answer|e] w2]; cbn [fst snd]; cbv beta iota;
    [|tidy_log].
  destruct (String.eqb (str_lower answer) "y"); cbv beta iota.
  - destruct (stdin_readline w2) as [[typed|e] w3]; cbn [fst snd]; cbv beta iota;
      [|tidy_log].
    pose proof (sync_repo_store target
                  (if String.eqb typed "" then UPDATE_MESSAGE else typed)
                  repos_found w3) as Hstore.
    destruct (sync_repo target (if String.eqb typed "" then UPDATE_MESSAGE else typed)
                repos_found w3) as [[[]|e] s4 w4 o4];
      cbn [res store world out] in *; subst s4; [|tidy_log].
    destruct (stdin_readline w4) as [[line|e] w5]; cbn [fst snd]; tidy_log.
  - cbn [res store world out].
    destruct (stdin_readline w2) as [[line|e] w5]; cbn [fst snd]; tidy_log.
Qed.
End Manage.

(** ** The setup tools *)

Section SetupTools.
Context {W : Type} `{HostW : Host W}.
Variable PREFIX : string.

(** [setup_alias], case by case. *)
Lemma setup_alias_run {L} (s : L) w :
  setup_alias PREFIX s w =
    let heading := Print (configuring_line PREFIX) in
    let appended :=
      match file_append bashrc_path alias_line w with
      | (Ok _, w1) =>
          mkRun (Ok tt) s w1
            [heading; Print "   ✨ Success! Alias added.";
             Print "   ⚠️  Please restart your terminal (or type 'source ~/.bashrc') to use it."]
      | (Raise e, w1) => mkRun (Raise e) s w1 [heading]
      end in
    match file_read bashrc_path w with
    | Ok content =>
        if str_in alias_cmd content
        then mkRun (Ok tt) s w [heading; Print "   ✅ 'fleet' alias is already active!"]
        else appended
    | Raise e => if is_FileNotFoundError e then appended else mkRun (Raise e) s w [heading]
    end.
Proof.
  unfold setup_alias, alias_line, alias_cmd, configuring_line.
  unfold bind, try_except, query, act, print, emit, ret. cbv beta iota zeta.
  destruct (file_read bashrc_path w) as [content|e]; cbv beta iota.
  - destruct (str_in _ content); cbv beta iota; [done|].
    by destruct (file_append bashrc_path _ w) as [[[]|e] w1].
  - destruct (is_FileNotFoundError e); cbv beta iota; [|done].
    by destruct (file_append bashrc_path _ w) as [[[]|e'] w1].
Qed.

(** [create_gitignore], case by case. *)
Lemma create_gitignore_run {L} repo_path (s : L) w :
  create_gitignore repo_path s w =
    let ignore_path := os_path_join repo_path ".gitignore" in
    if os_path_exists ignore_path w
    then mkRun (Ok tt) s w [Print "      ⚠️  .gitignore already exists."]
    else
      match file_write ignore_path DEFAULT_IGNORE w with
      | (Ok _, w1) => mkRun (Ok tt) s w1 [Print "      ✨ Created default .gitignore"]
      | (Raise e, w1) => mkRun (Raise e) s w1 []
      end.
Proof.
  unfold create_gitignore, bind, ask, act, print, emit. cbv beta iota zeta.
  destruct (os_path_exists _ w); cbv beta iota delta [negb]; [done|].
  by destruct (file_write _ DEFAULT_IGNORE w) as [[[]|e] w1].
Qed.

(** X14. [setup_alias] appends its line once.  When the alias command
    occurs somewhere in [.bashrc], nothing is written; when it does not,
    the line is appended; and where what is appended can be read back, a
    second run after one that went through only reports the alias as
    active. *)
Theorem setup_alias_appends_once {L} (s : L) w :
  let run := setup_alias PREFIX s w in
  let active :=
    mkRun (Ok tt) s w
      [Print (configuring_line PREFIX); Print "   ✅ 'fleet' alias is already active!"] in
  (forall content pre post,
     file_read bashrc_path w = Ok content ->
     content = pre +:+ alias_cmd +:+ post ->
     run = active) /\
  (forall content,
     file_read bashrc_path w = Ok content ->
     (forall pre post, content <> pre +:+ alias_cmd +:+ post) ->
     world run = (file_append bashrc_path alias_line w).2 /\
     res run = (file_append bashrc_path alias_line w).1) /\
  (appends_are_read ->
   is_Ok (res run) ->
   setup_alias PREFIX s (world run) =
     mkRun (Ok tt) s (world run)
       [Print (configuring_line PREFIX); Print "   ✅ 'fleet' alias is already active!"]).
Proof.
  cbv zeta. split; [|split].
  - intros content pre post Hread ->. rewrite setup_alias_run. cbv zeta.
    rewrite Hread.
    assert (str_in alias_cmd (pre +:+ alias_cmd +:+ post) = true) as ->; [|done].
    apply str_in_spec. by exists pre, post.
  - intros content Hread Habsent. rewrite setup_alias_run. cbv zeta.
    rewrite Hread.
    assert (str_in alias_cmd content = false) as ->.
    { apply not_true_is_false. intros (pre & post & ->)%str_in_spec.
      by apply (Habsent pre post). }
    by destruct (file_append bashrc_path alias_line w) as [[[]|e] w1].
  - intros Hlaw. rewrite (setup_alias_run s w). cbv zeta.
    assert (Happended :
      forall w1, file_append bashrc_path alias_line w = (Ok tt, w1) ->
        setup_alias PREFIX s w1 =
          mkRun (Ok tt) s w1
            [Print (configuring_line PREFIX);
             Print "   ✅ 'fleet' alias is already active!"]).
    { intros w1 Happend. rewrite setup_alias_run. cbv zeta.
      rewrite (Hlaw _ _ _ _ Happend).
      assert (forall old, str_in alias_cmd (old +:+ alias_line) = true) as Hin.
      { intros old. apply str_in_spec. exists (old +:+ nl), nl.
        unfold alias_line. by rewrite !str_append_assoc. }
      destruct (file_read bashrc_path w) as [old|e].
      - by rewrite Hin.
      - pose proof (Hin "") as Hin0.
        change ("" +:+ alias_line) with alias_line in Hin0. by rewrite Hin0. }
    destruct (file_read bashrc_path w) as [content|e] eqn:Hread.
    + destruct (str_in alias_cmd content) eqn:Hin.
      * intros _. cbn [world]. rewrite setup_alias_run. cbv zeta.
        by rewrite Hread, Hin.
      * destruct (file_append bashrc_path alias_line w) as [[[]|e] w1]; [|done].
        intros _. by apply Happended.
    + destruct (is_FileNotFoundError e); [|done].
      destruct (file_append bashrc_path alias_line w) as [[[]|e'] w1]; [|done].
      intros _. by apply Happended.
Qed.

(** X15. A [.bashrc] that cannot be read for another reason than its
    absence ends [setup_alias] with that error, after the heading and with
    nothing written; its absence is passed over and the line appended. *)
Theorem setup_alias_unreadable {L} (s : L) w e :
  file_read bashrc_path w = Raise e ->
  let run := setup_alias PREFIX s w in
  (is_FileNotFoundError e = false ->
   run = mkRun (Raise e) s w [Print (configuring_line PREFIX)]) /\
  (is_FileNotFoundError e = true ->
   world run = (file_append bashrc_path alias_line w).2 /\
   res run = (file_append bashrc_path alias_line w).1).
Proof.
  intros Hread. cbv zeta. rewrite setup_alias_run. cbv zeta. rewrite Hread.
  split; intros ->; [done|].
  by destruct (file_append bashrc_path alias_line w) as [[[]|e'] w1].
Qed.

(** X16. [create_gitignore] never touches a [.gitignore] that exists: it
    only says so.  Where there is none it writes the default one, an error
    of the write going to the caller; and where a written file exists, a
    second call after one that went through changes nothing. *)
Theorem create_gitignore_keeps_existing {L} repo_path (s : L) w :
  let ignore_path := os_path_join repo_path ".gitignore" in
  let run := create_gitignore repo_path s w in
  (os_path_exists ignore_path w = true ->
   run = mkRun (Ok tt) s w [Print "      ⚠️  .gitignore already exists."]) /\
  (os_path_exists ignore_path w = false ->
   world run = (file_write ignore_path DEFAULT_IGNORE w).2 /\
   res run = (file_write ignore_path DEFAULT_IGNORE w).1) /\
  (writes_create ->
   is_Ok (res run) ->
   create_gitignore repo_path s (world run) =
     mkRun (Ok tt) s (world run) [Print "      ⚠️  .gitignore already exists."]).
Proof.
  cbv zeta. rewrite (create_gitignore_run repo_path s w). cbv zeta.
  split; [by intros ->|]. split.
  - intros ->. by destruct (file_write _ DEFAULT_IGNORE w) as [[[]|e] w1].
  - intros Hlaw. destruct (os_path_exists _ w) eqn:Hthere.
    + intros _. cbn [world]. rewrite create_gitignore_run. cbv zeta. by rewrite Hthere.
    + destruct (file_write _ DEFAULT_IGNORE w) as [[[]|e] w1] eqn:Hwrite; [|done].
      intros _. cbn [world]. rewrite create_gitignore_run. cbv zeta.
      by rewrite (Hlaw _ _ _ _ Hwrite).
Qed.
End SetupTools.

(** ** The commands of the menu *)

Section Menu.
Context {W : Type} `{HostW : Host W}.
Variable PREFIX : string.

Local Arguments scan : simpl never.
Local Arguments sync_repo : simpl never.
Local Arguments show_file_details : simpl never.
Local Arguments batch_sync : simpl never.
Local Arguments setup_alias : simpl never.
Local Arguments create_gitignore : simpl never.

(** The setup menu, case by case. *)
Lemma setup_menu_run repos_found w :
  setup_menu PREFIX repos_found w =
    match stdin_readline w with
    | (Raise e, w1) => mkRun (Raise e) repos_found w1 setup_lines
    | (Ok sub, w1) =>
        if String.eqb sub "1" then
          let installed := setup_alias PREFIX repos_found w1 in
          match res installed with
          | Raise e =>
              mkRun (Raise e) repos_found (world installed)
                (setup_lines ++ out installed)%list
          | Ok _ =>
              mkRun (acknowledged (stdin_readline (world installed)).1) repos_found
                (stdin_readline (world installed)).2
                (setup_lines ++ out installed ++ [Prompt "   Press Enter..."])%list
          end
        else if String.eqb sub "2" then
          match stdin_readline w1 with
          | (Raise e, w2) =>
              mkRun (Raise e) repos_found w2
                (setup_lines ++ [Prompt (number_prompt repos_found)])%list
          | (Ok answer, w2) =>
              match int_of_str answer with
              | Raise e =>
                  mkRun (Raise e) repos_found w2
                    (setup_lines ++ [Prompt (number_prompt repos_found)])%list
              | Ok n =>
                  let made :=
                    if in_range (n - 1) repos_found then
                      match repos_found !! Z.to_nat (n - 1) with
                      | Some target => create_gitignore (path target) repos_found w2
                      | None =>
                          mkRun (Raise (Exn IndexError "list index out of range"))
                            repos_found w2 []
                      end
                    else mkRun (Ok tt) repos_found w2 [] in
                  match res made with
                  | Raise e =>
                      mkRun (Raise e) repos_found (world made)
                        (setup_lines ++ Prompt (number_prompt repos_found) :: out made)%list
                  | Ok _ =>
                      mkRun (acknowledged (stdin_readline (world made)).1) repos_found
                        (stdin_readline (world made)).2
                        (setup_lines ++ Prompt (number_prompt repos_found) :: out made ++
                         [Prompt "   Press Enter..."])%list
                  end
              end
          end
        else mkRun (Ok tt) repos_found w1 setup_lines
    end.
Proof.
  unfold setup_menu, setup_lines, number_prompt, acknowledged.
  unfold input, print. unfold bind at 1 2 3 4 5. unfold emit at 1 2 3 4. unfold act at 1.
  cbv beta iota zeta.
  destruct (stdin_readline w) as [[sub|e] w1]; cbv beta iota; [|tidy_log].
  destruct (String.eqb sub "1"); cbv beta iota.
  { unfold bind, emit, act, ret.
    pose proof (keeps_setup_alias PREFIX (L:=list status) repos_found w1) as Hs.
    destruct (setup_alias PREFIX repos_found w1) as [[[]|e] s2 w2 o2];
      cbn [res store world out] in *; subst s2; [|tidy_log].
    destruct (stdin_readline w2) as [[line|e] w3]; cbn [fst snd]; tidy_log. }
  destruct (String.eqb sub "2"); cbv beta iota; [|tidy_log].
  unfold bind at 1 2 3 4. unfold get, emit, act, query. cbv beta iota zeta.
  destruct (stdin_readline w1) as [[answer|e] w2]; cbv beta iota; [|tidy_log].
  destruct (int_of_str answer) as [n|e]; cbv beta iota; [|tidy_log].
  unfold bind, item, ret, raise.
  destruct (in_range (n - 1) repos_found); cbv beta iota.
  - destruct (repos_found !! Z.to_nat (n - 1)) as [target|]; cbv beta iota; [|tidy_log].
    pose proof (keeps_create_gitignore (path target) (L:=list status) repos_found w2) as Hs.
    destruct (create_gitignore (path target) repos_found w2) as [[[]|e] s3 w3 o3];
      cbn [res store world out] in *; subst s3; [|tidy_log].
    destruct (stdin_readline w3) as [[line|e] w4]; cbn [fst snd]; tidy_log.
  - cbn [res store world out].
    destruct (stdin_readline w2) as [[line|e] w4]; cbn [fst snd]; tidy_log.
Qed.

(** The command [a], step by step. *)
Lemma sync_all_run {L} repos_found (s : L) w :
  sync_all repos_found s w =
    let batch := batch_sync repos_found s w in
    match res batch with
    | Raise e =>
        mkRun (Raise e) s (world batch)
          (Print (nl +:+ "🚀 STARTING BATCH SYNC...") :: out batch)
    | Ok _ =>
        mkRun (acknowledged (stdin_readline (world batch)).1) s
          (stdin_readline (world batch)).2
          (Print (nl +:+ "🚀 STARTING BATCH SYNC...") :: out batch ++
           [Prompt (nl +:+ "Batch complete! Press Enter...")])%list
    end.
Proof.
  unfold sync_all, acknowledged, input, print, bind, emit, act, ret.
  pose proof (keeps_batch_sync (L:=L) repos_found s w) as Hs.
  destruct (batch_sync repos_found s w) as [[[]|e] s1 w1 o1];
    cbn [res store world out] in *; subst s1; cbv zeta; cbn [res store world out];
    [|tidy_log].
  destruct (stdin_readline w1) as [[line|e] w2]; cbn [fst snd]; tidy_log.
Qed.

(** X17. The list of repositories is rebuilt by every turn: a turn does
    not depend on the list that the turn before left, and whatever the
    command, the list after the turn is the one its scan built. *)
Theorem repos_found_is_rebuilt_each_turn found w :
  dashboard_turn PREFIX found w = dashboard_turn PREFIX [] w /\
  store (dashboard_turn PREFIX found w) = store (scan PREFIX [] w).
Proof.
  split; [by rewrite !dashboard_turn_run|].
  rewrite dashboard_turn_run. cbv zeta.
  destruct (stdin_readline (world (scan PREFIX [] w))) as [[typed|e] w1]; [|done].
  destruct (String.eqb (str_lower typed) "q"); [done|].
  destruct (String.eqb (str_lower typed) "r"); [done|].
  destruct (String.eqb (str_lower typed) "s"); [apply keeps_setup_menu|].
  destruct (String.eqb (str_lower typed) "a"); [apply keeps_sync_all|].
  destruct (str_isdigit (str_lower typed)); [apply keeps_manage_one | done].
Qed.

(** X18. A number that is no row of the table, zero included, selects
    nothing: nothing more is asked or called, and the loop goes on. *)
Theorem out_of_range_number_is_ignored found w typed w1 n :
  let scanned := scan PREFIX [] w in
  let choice := str_lower typed in
  stdin_readline (world scanned) = (Ok typed, w1) ->
  choice <> "q" -> choice <> "r" -> choice <> "s" -> choice <> "a" ->
  str_isdigit choice = true ->
  int_of_str choice = Ok n ->
  n <= 0 \/ Z.of_nat (length (store scanned)) < n ->
  dashboard_turn PREFIX found w =
    mkRun (Ok true) (store scanned) w1
      (turn_screen PREFIX (out scanned) (store scanned)).
Proof.
  cbv zeta. intros Hline Hq Hr Hs Ha Hdigit Hint Hout.
  rewrite dashboard_turn_run. cbv zeta. rewrite Hline.
  apply String.eqb_neq in Hq, Hr, Hs, Ha. rewrite Hq, Hr, Hs, Ha, Hdigit.
  rewrite (manage_one_out_of_range _ _ _ n Hint Hout).
  unfold then_go_on. cbn [res store world out]. by rewrite app_nil_r.
Qed.

(** X19. The command [a] runs the batch on the list that the scan of this
    turn built, from the world in which the command was read: the calls of
    the turn are those of the scan and then those of the batch; an
    exception of the batch ends the turn, and otherwise one more line is
    read. *)
Theorem sync_all_runs_on_the_scanned_list found w typed w1 :
  let scanned := scan PREFIX [] w in
  let repos_found := store scanned in
  stdin_readline (world scanned) = (Ok typed, w1) ->
  str_lower typed = "a" ->
  let batch := batch_sync repos_found repos_found w1 in
  let turn := dashboard_turn PREFIX found w in
  calls (out turn) = (calls (out scanned) ++ calls (out batch))%list /\
  match res batch with
  | Raise e => res turn = Raise e /\ world turn = world batch
  | Ok _ =>
      world turn = (stdin_readline (world batch)).2 /\
      (is_Ok (stdin_readline (world batch)).1 -> res turn = Ok true)
  end.
Proof.
  cbv zeta. intros Hline Ha.
  rewrite dashboard_turn_run. cbv zeta. rewrite Hline, Ha.
  cbn [String.eqb Ascii.eqb Bool.eqb]. rewrite sync_all_run. cbv zeta.
  unfold then_go_on.
  destruct (res (batch_sync _ _ w1)) as [[]|e]; cbn [res store world out].
  - rewrite calls_app, calls_turn_screen.
    change (calls (Print ?l :: ?o)) with (calls o).
    rewrite calls_app. simpl. rewrite app_nil_r. split; [done|]. split; [done|].
    by destruct (stdin_readline (world (batch_sync _ _ w1))).1.
  - rewrite calls_app, calls_turn_screen. done.
Qed.

(** X20. Option 2 of the setup menu runs [create_gitignore] on the path
    of the repository with the number given, an exception of it going to
    the caller; when the number is no row of the table, nothing is created
    and only the key press is asked for. *)
Theorem setup_gitignore_for_numbered_repository repos_found w w1 answer w2 n :
  stdin_readline w = (Ok "2", w1) ->
  stdin_readline w1 = (Ok answer, w2) ->
  int_of_str answer = Ok n ->
  let run := setup_menu PREFIX repos_found w in
  (n <= 0 \/ Z.of_nat (length repos_found) < n ->
   run =
     mkRun (acknowledged (stdin_readline w2).1) repos_found (stdin_readline w2).2
       (setup_lines ++
        [Prompt (number_prompt repos_found); Prompt "   Press Enter..."])%list) /\
  (forall target,
     1 <= n -> repos_found !! Z.to_nat (n - 1) = Some target ->
     let made := create_gitignore (path target) repos_found w2 in
     match res made with
     | Raise e => res run = Raise e /\ world run = world made
     | Ok _ =>
         world run = (stdin_readline (world made)).2 /\
         out run =
           (setup_lines ++ Prompt (number_prompt repos_found) :: out made ++
            [Prompt "   Press Enter..."])%list
     end).
Proof.
  intros Hsub Hanswer Hint. cbv zeta.
  rewrite setup_menu_run, Hsub. cbn [String.eqb Ascii.eqb Bool.eqb].
  rewrite Hanswer, Hint. cbv zeta. split.
  - intros Hout.
    assert (in_range (n - 1) repos_found = false) as ->; [|done].
    apply not_true_is_false. rewrite in_range_spec. lia.
  - intros target Hn Htarget.
    assert (in_range (n - 1) repos_found = true) as ->.
    { apply in_range_spec. apply lookup_lt_Some in Htarget. lia. }
    rewrite Htarget.
    by destruct (res (create_gitignore (path target) repos_found w2)) as [[]|e].
Qed.

(** X21. An answer to "Repo Number" that [int] rejects ends
    [main_dashboard] with the error of [int], after the prompts of the
    command, of the menu and of the number. *)
Theorem malformed_number_ends_dashboard {L} fuel (s : L) w typed w1 w2 answer w3 e :
  let scanned := scan PREFIX [] w in
  os_path_exists (ROOT_DIR PREFIX) w = true ->
  stdin_readline (world scanned) = (Ok typed, w1) ->
  str_lower typed = "s" ->
  stdin_readline w1 = (Ok "2", w2) ->
  stdin_readline w2 = (Ok answer, w3) ->
  int_of_str answer = Raise e ->
  let run := main_dashboard PREFIX (S fuel) s w in
  res run = Raise e /\ world run = w3 /\
  prompts (out run) =
    [command_prompt; "   Select >> "; number_prompt (store scanned)].
Proof.
  cbv zeta. intros Hroot Hline Hs Hsub Hanswer Hint.
  rewrite (main_dashboard_run _ _ _ _ Hroot), dashboard_loop_step, dashboard_turn_run.
  cbv zeta. rewrite Hline, Hs. cbn [String.eqb Ascii.eqb Bool.eqb].
  rewrite setup_menu_run, Hsub. cbn [String.eqb Ascii.eqb Bool.eqb].
  rewrite Hanswer, Hint. unfold then_go_on. cbn [res store world out].
  split; [done|]. split; [done|].
  rewrite prompts_app, prompts_turn_screen.
  destruct (scan_table PREFIX [] w) as (_ & _ & ->). done.
Qed.

(** X22. A command that [isdigit] accepts and [int] rejects ends
    [main_dashboard] with the error of [int], right after the screen of
    the turn. *)
Theorem digits_that_are_no_integer_end_dashboard {L} fuel (s : L) w typed w1 e :
  let scanned := scan PREFIX [] w in
  let choice := str_lower typed in
  os_path_exists (ROOT_DIR PREFIX) w = true ->
  stdin_readline (world scanned) = (Ok typed, w1) ->
  choice <> "q" -> choice <> "r" -> choice <> "s" -> choice <> "a" ->
  str_isdigit choice = true ->
  int_of_str choice = Raise e ->
  let run := main_dashboard PREFIX (S fuel) s w in
  res run = Raise e /\ world run = w1 /\
  out run = turn_screen PREFIX (out scanned) (store scanned).
Proof.
  cbv zeta. intros Hroot Hline Hq Hr Hs Ha Hdigit Hint.
  rewrite (main_dashboard_run _ _ _ _ Hroot), dashboard_loop_step, dashboard_turn_run.
  cbv zeta. rewrite Hline.
  apply String.eqb_neq in Hq, Hr, Hs, Ha. rewrite Hq, Hr, Hs, Ha, Hdigit.
  unfold then_go_on, manage_one, bind, query. rewrite Hint.
  cbn [res store world out]. by rewrite app_nil_r.
Qed.
End Menu.

Section ManageOne.
Context {W : Type} `{HostW : Host W}.

Local Arguments sync_repo : simpl never.
Local Arguments show_file_details : simpl never.

(** X23. When the operator picks a repository of the list and answers
    anything but [y] (in either case), nothing is called: the question and
    the last key press are all that is asked. *)
Theorem declined_sync_calls_nothing choice repos_found w n target answer w2 :
  int_of_str choice = Ok n ->
  1 <= n ->
  repos_found !! Z.to_nat (n - 1) = Some target ->
  (dirty target = true ->
   is_Ok (git_index_diff (repo target) w) /\
   is_Ok (git_untracked_files (repo target) w)) ->
  stdin_readline w = (Ok answer, w2) ->
  str_lower answer <> "y" ->
  let run := manage_one choice repos_found w in
  calls (out run) = [] /\
  world run = (stdin_readline w2).2 /\
  res run = acknowledged (stdin_readline w2).1 /\
  prompts (out run) = ["   Sync this repo? (y/n): "; nl +:+ "Done. Press Enter..."].
Proof.
  intros Hint Hn Htarget Hdetails Hline Hno. cbv zeta.
  destruct (manage_one_asks choice repos_found w n target Hint Hn Htarget Hdetails)
    as (shown & Hcalls & Hprompts & ->).
  rewrite Hline. apply String.eqb_neq in Hno. rewrite Hno.
  cbv zeta. cbn [res store world out].
  rewrite calls_app, prompts_app, Hcalls, Hprompts.
  unfold acknowledged. by destruct (stdin_readline w2).1.
Qed.

(** X24. When the operator picks a repository of the list and answers
    [y], [sync_repo] runs on its record with the message typed, or with
    "Update via Fleet Commander" when the line is empty: the calls are its
    calls, and every commit is for that repository with that message. *)
Theorem manage_one_commit_message choice repos_found w n target answer w2 typed w3 :
  int_of_str choice = Ok n ->
  1 <= n ->
  repos_found !! Z.to_nat (n - 1) = Some target ->
  (dirty target = true ->
   is_Ok (git_index_diff (repo target) w) /\
   is_Ok (git_untracked_files (repo target) w)) ->
  stdin_readline w = (Ok answer, w2) ->
  str_lower answer = "y" ->
  stdin_readline w2 = (Ok typed, w3) ->
  let message := if String.eqb typed "" then UPDATE_MESSAGE else typed in
  let synced := sync_repo target message repos_found w3 in
  let run := manage_one choice repos_found w in
  calls (out run) = calls (out synced) /\
  (calls (out run) `prefix_of` sync_sequence target message) /\
  (forall r m, Commit r m ∈ calls (out run) -> r = repo target /\ m = message) /\
  match res synced with
  | Raise e => res run = Raise e /\ world run = world synced
  | Ok _ =>
      res run = acknowledged (stdin_readline (world synced)).1 /\
      world run = (stdin_readline (world synced)).2
  end.
Proof.
  intros Hint Hn Htarget Hdetails Hline Hyes Htyped. cbv zeta.
  destruct (manage_one_asks choice repos_found w n target Hint Hn Htarget Hdetails)
    as (shown & Hcalls & Hprompts & ->).
  rewrite Hline, Hyes. cbn [String.eqb Ascii.eqb Bool.eqb]. rewrite Htyped.
  cbv zeta. cbn [res store world out].
  set (message := if String.eqb typed "" then UPDATE_MESSAGE else typed).
  pose proof (sync_repo_calls_prefix (L:=list status) target message repos_found w3)
    as Hprefix.
  assert (Hsame :
    calls (out (match res (sync_repo target message repos_found w3) with
                | Ok _ =>
                    mkRun (match (stdin_readline (world (sync_repo target message repos_found w3))).1 with
                           | Ok _ => Ok tt
                           | Raise e => Raise e
                           end)
                      repos_found
                      (stdin_readline (world (sync_repo target message repos_found w3))).2
                      (shown ++ Prompt "   Sync this repo? (y/n): "
                       :: (Prompt "   Enter commit message (or Enter for auto): "
                           :: out (sync_repo target message repos_found w3)) ++
                          [Prompt (nl +:+ "Done. Press Enter...")])%list
                | Raise e =>
                    mkRun (Raise e) repos_found
                      (world (sync_repo target message repos_found w3))
                      (shown ++ Prompt "   Sync this repo? (y/n): "
                       :: Prompt "   Enter commit message (or Enter for auto): "
                          :: out (sync_repo target message repos_found w3))%list
                end)) =
    calls (out (sync_repo target message repos_found w3))).
  { destruct (res (sync_repo target message repos_found w3)) as [[]|e];
      cbn [out]; rewrite calls_app, Hcalls; cbn [app];
      change (calls (Prompt ?t :: ?o)) with (calls o).
    - change (calls (Prompt ?t :: ?o)) with (calls o).
      rewrite calls_app. simpl. by rewrite app_nil_r.
    - done. }
  rewrite Hsame. split; [done|]. split; [exact Hprefix|]. split.
  - intros r m Hin.
    destruct Hprefix as [k Hk].
    assert (Hseq : Commit r m ∈ sync_sequence target message).
    { rewrite Hk. apply elem_of_app. by left. }
    unfold sync_sequence in Hseq.
    destruct (dirty target), (0 <? behind target), (0 <? ahead target); simpl in Hseq;
      repeat (apply elem_of_cons in Hseq as [Hseq|Hseq];
              [first [discriminate | by injection Hseq as -> ->]|]);
      by apply elem_of_nil in Hseq.
  - unfold acknowledged.
    by destruct (res (sync_repo target message repos_found w3)) as [[]|e].
Qed.
End ManageOne.

Section Display.
Context {W : Type} `{HostW : Host W}.

(** X25. The label of a row: unsaved work hides the counts, being ahead
    hides being behind, and "Synced" is shown exactly when [sync_repo] has
    nothing to do. *)
Theorem status_row_label n st message :
  (row_msg (status_row n st) = "Synced" <-> sync_sequence st message = []) /\
  (dirty st = true -> row_msg (status_row n st) = "Unsaved Work") /\
  (dirty st = false -> 0 < ahead st ->
   row_msg (status_row n st) = "Ahead (+" +:+ str_int (ahead st) +:+ ")" /\
   (0 < behind st -> Pull (origin_of (repo st)) ∈ sync_sequence st message)) /\
  (dirty st = false -> ahead st <= 0 -> 0 < behind st ->
   row_msg (status_row n st) = "Behind (-" +:+ str_int (behind st) +:+ ")") /\
  row_index (status_row n st) = n /\ row_name (status_row n st) = name st /\
  row_branch (status_row n st) = branch st.
Proof.
  unfold status_row, sync_sequence.
  split; [|split; [|split; [|split]]].
  - destruct (dirty st), (0 <? ahead st), (0 <? behind st); simpl; by split.
  - by intros ->.
  - intros -> Hahead. assert ((0 <? ahead st) = true) as -> by lia. simpl.
    split; [done|]. intros Hbehind.
    assert ((0 <? behind st) = true) as -> by lia. by left.
  - intros -> Hahead Hbehind.
    assert ((0 <? ahead st) = false) as -> by lia.
    assert ((0 <? behind st) = true) as -> by lia. done.
  - done.
Qed.
End Display.

Section Environment.
Context {W : Type} `{HostW : Host W}.

(** X26. The mode is the mobile one exactly when "com.termux" occurs in
    [PREFIX], and the test for the Termux hints agrees with it; either
    root ends with a separator, so that the path of a folder is the root
    followed by its name, and the base name of that path the name. *)
Theorem environment_detection PREFIX :
  (in_termux PREFIX = true <->
   exists pre post, PREFIX = pre +:+ "com.termux" +:+ post) /\
  (in_termux PREFIX = true ->
   DEVICE_NAME PREFIX = "Pixel 8a (Mobile)" /\
   ROOT_DIR PREFIX = "/storage/emulated/0/pixel8a/unexusi/") /\
  (in_termux PREFIX = false ->
   DEVICE_NAME PREFIX = "Laptop (Base)" /\ ROOT_DIR PREFIX = "/home/sauron/unexusi/") /\
  str_in "Mobile" (DEVICE_NAME PREFIX) = in_termux PREFIX /\
  endswith_sep (ROOT_DIR PREFIX) = true /\
  (forall folder_name,
     has_sep folder_name = false ->
     os_path_join (ROOT_DIR PREFIX) folder_name = ROOT_DIR PREFIX +:+ folder_name /\
     os_path_basename (os_path_join (ROOT_DIR PREFIX) folder_name) = folder_name).
Proof.
  split; [apply str_in_spec|].
  unfold DEVICE_NAME, ROOT_DIR.
  split; [by intros ->|]. split; [by intros ->|].
  split; [by destruct (in_termux PREFIX)|].
  split; [by destruct (in_termux PREFIX)|].
  intros folder_name Hplain. split; [|by apply basename_join].
  unfold os_path_join.
  assert (startswith_sep folder_name = false) as ->.
  { destruct folder_name as [|c rest]; [done|]. simpl in *.
    by apply orb_false_iff in Hplain as [-> _]. }
  by destruct (in_termux PREFIX).
Qed.
End Environment.

Section Closed.
Context {W : Type} `{HostW : Host W}.
Variable PREFIX : string.

(** X27. An [input] that raises at the command prompt (the end of the
    input, an interrupt) ends [main_dashboard] with that exception, after
    one scan and the screen of the turn. *)
Theorem closed_input_ends_dashboard {L} fuel (s : L) w e w1 :
  let scanned := scan PREFIX [] w in
  os_path_exists (ROOT_DIR PREFIX) w = true ->
  stdin_readline (world scanned) = (Raise e, w1) ->
  let run := main_dashboard PREFIX (S fuel) s w in
  res run = Raise e /\ store run = s /\ world run = w1 /\
  out run = turn_screen PREFIX (out scanned) (store scanned).
Proof.
  cbv zeta. intros Hroot Hline.
  rewrite (main_dashboard_run _ _ _ _ Hroot), dashboard_loop_step, dashboard_turn_run.
  cbv zeta. by rewrite Hline.
Qed.
End Closed.

(** ** The simulated disk obeys the laws of files *)

Section DiskLaws.

(** Two strings that [String.eqb] tells apart. *)
Lemma differ (a b : string) : String.eqb a b = false -> a <> b.
Proof. intros H. by apply String.eqb_neq. Qed.

Lemma disk_lookup_store p content files :
  disk_lookup p (disk_store p content files) = Some content.
Proof.
  induction files as [|[q old] files IH]; simpl.
  - by rewrite String.eqb_refl.
  - destruct (String.eqb q p) eqn:Hq; simpl; [by rewrite String.eqb_refl|].
    by rewrite Hq.
Qed.

(** The simulated disk obeys the laws of files. *)
Lemma disk_appends_are_read : appends_are_read (HostW := disk_host).
Proof.
  intros p text w w'. simpl. unfold disk_put.
  destruct (disk_isdir p w) eqn:Hdir; [done|].
  destruct (disk_parent p w); [|done].
  intros [= <-]. unfold disk_isdir in *. simpl. rewrite Hdir.
  rewrite disk_lookup_store. by destruct (disk_lookup p (disk_files w)).
Qed.

Lemma disk_writes_create : writes_create (HostW := disk_host).
Proof.
  intros p text w w'. simpl. unfold disk_put.
  destruct (disk_isdir p w) eqn:Hdir; [done|].
  destruct (disk_parent p w); [|done].
  intros [= <-]. simpl. rewrite disk_lookup_store. apply orb_true_r.
Qed.
End DiskLaws.

(** ** Scenarios on the simulated host *)

Section Scenarios.

(** C1, as amended, on a dirty repository that is behind and ahead, with a
    cooperating host: stage, commit, pull, push, each of which reaches the
    repository. *)
Lemma sync_repo_order_witness :
  let st := sim_status "alpha" true 1 2 in
  let run := sync_repo (HostW := sim_host []) st "Save work" tt (fresh []) in
  res run = Ok tt /\
  calls (out run) =
    [AddAll (repo st); Commit (repo st) "Save work";
     Pull (origin_of (repo st)); Push (origin_of (repo st))] /\
  sim_journal (world run) =
    [AddAll (repo st); Commit (repo st) "Save work";
     Pull (origin_of (repo st)); Push (origin_of (repo st))].
Proof.
  cbv zeta.
  destruct (proj1 (proj2 (proj2 (sync_repo_order (HostW := sim_host [])
                                   (sim_status "alpha" true 1 2) "Save work" tt
                                   (fresh [])))))
    as (_ & Hwith & _).
  { intros _. split; exact I. }
  destruct Hwith as (Hcalls & Hworld & Hres & _).
  { exact I. }
  { exists ["origin"]. split; [reflexivity | by left]. }
  rewrite Hcalls, Hworld, Hres. by repeat split.
Defined.

(** C1 fails on a dirty repository without a remote called [origin], as
    [get_git_status] records it: the changes are committed and, although
    the record is dirty, nothing is pushed. *)
Lemma dirty_repository_without_origin :
  let p := sim_root +:+ "alpha" in
  let host := sim_host [Dirty p; NoRemote p] in
  let st := sim_status "alpha" true 0 0 in
  let run := sync_repo (HostW := host) st AUTO_MESSAGE tt (fresh []) in
  res (get_git_status (HostW := host) p tt (fresh [])) = Ok (Some st) /\
  dirty st = true /\
  sync_sequence st AUTO_MESSAGE =
    [AddAll (repo st); Commit (repo st) AUTO_MESSAGE; Push (origin_of (repo st))] /\
  calls (out run) = [AddAll (repo st); Commit (repo st) AUTO_MESSAGE] /\
  sim_journal (world run) = [AddAll (repo st); Commit (repo st) AUTO_MESSAGE] /\
  bool_decide (Push (origin_of (repo st)) ∈ calls (out run)) = false /\
  res run = Ok tt /\
  out run =
    [Print (processing_line st);
     Print (nl +:+ "   📄 File Status for [alpha]:");
     Print "      ✏️  Modified: README.md";
     Print "      🆕 New File: todo.txt";
     Print "";
     Git (AddAll (repo st)); Git (Commit (repo st) AUTO_MESSAGE);
     Print "      ✅ Local changes saved.";
     Print (error_syncing_line no_origin_error)].
Proof. vm_compute. by repeat split. Qed.

(** C2 fails on a clean repository without a remote: nothing is called, and
    the report is the sync error, not "Already clean". *)
Lemma clean_repository_without_origin :
  let st := sim_status "alpha" false 0 0 in
  let host := sim_host [NoRemote (path st)] in
  let run := sync_repo (HostW := host) st AUTO_MESSAGE tt (fresh []) in
  res (get_git_status (HostW := host) (path st) tt (fresh [])) = Ok (Some st) /\
  dirty st = false /\ ahead st = 0 /\ behind st = 0 /\
  calls (out run) = [] /\
  out run = [Print (processing_line st);
             Print (error_syncing_line no_origin_error)] /\
  bool_decide (Print already_clean_line ∈ out run) = false.
Proof. vm_compute. by repeat split. Qed.

(** C2, as amended, on a clean repository with [origin]. *)
Lemma sync_repo_nothing_to_do_witness :
  let st := sim_status "alpha" false 0 0 in
  let run := sync_repo (HostW := sim_host []) st AUTO_MESSAGE tt (fresh []) in
  calls (out run) = [] /\ world run = fresh [] /\ res run = Ok tt /\
  out run = [Print (processing_line st); Print already_clean_line].
Proof.
  cbv zeta.
  destruct (sync_repo_nothing_to_do (HostW := sim_host [])
              (sim_status "alpha" false 0 0) AUTO_MESSAGE tt (fresh [])
              eq_refl eq_refl eq_refl) as (Hcalls & Hworld & Hclean & _).
  split; [exact Hcalls|]. split; [exact Hworld|].
  apply Hclean. exists ["origin"]. split; [reflexivity | by left].
Defined.



(** C4 fails when the dirty check raises: the path opens, the branch
    resolves, the fetch would go through, and yet no record is returned. *)
Lemma dirty_check_failure_hides_repository :
  let p := sim_root +:+ "alpha" in
  let r := {| working_dir := p |} in
  let host := sim_host [DirtyCheckFails p] in
  git_Repo (Host := host) p (fresh []) = Ok tt /\
  git_active_branch (Host := host) r (fresh []) = Ok "main" /\
  (git_fetch (Host := host) (origin_of r) (fresh [])).1 = Ok tt /\
  is_Raise (git_is_dirty (Host := host) r (fresh [])) /\
  res (get_git_status (HostW := host) p tt (fresh [])) = Ok None.
Proof. vm_compute. by repeat split. Qed.

(** C4, as amended, on a repository with a detached HEAD whose fetch fails:
    the record is there, with branch [DETACHED] and both counts zero. *)
Lemma get_git_status_fault_tolerance_witness :
  let p := sim_root +:+ "alpha" in
  let host := sim_host [Detached p; Dirty p; FetchFails p] in
  res (get_git_status (HostW := host) p tt (fresh [])) =
    Ok (Some (before_sync p "DETACHED" true)) /\
  exists st,
    res (get_git_status (HostW := host) p tt (fresh [])) = Ok (Some st) /\
    path st = p /\ name st = "alpha" /\ dirty st = true /\
    branch st = "DETACHED" /\ ahead st = 0 /\ behind st = 0.
Proof.
  cbv zeta.
  destruct (get_git_status_fault_tolerance
              (HostW := sim_host [Detached (sim_root +:+ "alpha");
                                  Dirty (sim_root +:+ "alpha");
                                  FetchFails (sim_root +:+ "alpha")])
              (sim_root +:+ "alpha") tt (fresh []) I)
    as ((st & Hres & Hpath & Hname & _ & Hdirty & Hbranch & _ & _ & Hzero)
        & _ & Hearly & _).
  split.
  - apply Hearly. right. right. left. exact I.
  - exists st. destruct (Hzero I) as [Hahead Hbehind].
    by repeat split.
Defined.

(** C5 on a laptop whose root is missing: the warning, one prompt, and the
    dashboard is over; the operator's next line is never read. *)
Lemma missing_root_stops_dashboard_witness :
  let run := main_dashboard (HostW := sim_host [NoRoot]) "" 3 tt (fresh [""; "a"]) in
  res run = Ok (Some tt) /\
  world run = fresh ["a"] /\
  out run =
    [Print "⚠️  WARNING: Cannot find directory: /home/sauron/unexusi/";
     Print "   Current Mode: Laptop (Base)";
     Prompt "Press Enter to exit..."].
Proof.
  cbv zeta.
  destruct (missing_root_stops_dashboard (HostW := sim_host [NoRoot]) ""
              3 tt (fresh [""; "a"]) eq_refl) as (_ & Hmain & _).
  rewrite (Hmain "" (fresh ["a"]) eq_refl). by repeat split.
Defined.

(** C6 on a repository whose fetch fails, next to the same repository with
    a working fetch and nothing to pull or push: the two records are equal. *)
Lemma get_git_status_swallows_sync_failures_witness :
  let p := sim_root +:+ "alpha" in
  let offline := get_git_status (HostW := sim_host [FetchFails p]) p tt (fresh []) in
  let level := get_git_status (HostW := sim_host [InSync p]) p tt (fresh []) in
  res offline = Ok (Some (before_sync p "main" false)) /\
  res level = res offline.
Proof.
  cbv zeta.
  destruct (get_git_status_swallows_sync_failures
              (HostW := sim_host [FetchFails (sim_root +:+ "alpha")])
              (sim_root +:+ "alpha") tt (fresh [])) as (_ & Hzero & _).
  destruct (Hzero (or_introl I)) as [_ Hrecord].
  rewrite (Hrecord I false eq_refl). split; [reflexivity|].
  destruct (get_git_status_swallows_sync_failures
              (HostW := sim_host [InSync (sim_root +:+ "alpha")])
              (sim_root +:+ "alpha") tt (fresh [])) as (_ & _ & Hlevel).
  apply (Hlevel (conj (ex_intro _ ["origin"] (conj eq_refl (list_elem_of_here _ _)))
                      (ex_intro _ _ (ex_intro _ "main" (ex_intro _ "origin/main"
                         (conj eq_refl (conj eq_refl (conj eq_refl
                            (conj eq_refl eq_refl))))))))
                I false eq_refl).
Defined.


(** C8 on a fleet whose [beta] has corrupt metadata: the scan ends
    normally and lists [alpha] only. *)
Lemma corrupt_repository_is_skipped_witness :
  let bad := sim_root +:+ "beta" in
  let run := scan (HostW := sim_host [Corrupt bad]) "" [] (fresh []) in
  res run = Ok tt /\
  (bad ∉ map path (store run)) /\
  get_git_status (HostW := sim_host [Corrupt bad]) bad (@nil status) (fresh []) =
    mkRun (Ok None) [] (fresh []) [Git (RepoOpen bad)].
Proof.
  cbv zeta.
  destruct (corrupt_repository_is_skipped
              (HostW := sim_host [Corrupt (sim_root +:+ "beta")]) "")
    as (Hnone & Hsafe & Hskipped).
  split; [apply Hsafe|]. split.
  - apply Hskipped. intros w. exact I.
  - apply Hnone. left. exact I.
Defined.

(** C9 on a repository whose only remote is called [upstream]: two commits
    behind and one ahead of it, reported as zero and zero, and synced with an
    error. *)
Lemma origin_is_hard_coded_witness :
  let p := sim_root +:+ "alpha" in
  let host := sim_host [OnlyRemote p "upstream"] in
  (exists st,
     res (get_git_status (HostW := host) p tt (fresh [])) = Ok (Some st) /\
     ahead st = 0 /\ behind st = 0) /\
  calls (out (get_git_status (HostW := host) p tt (fresh []))) = [RepoOpen p] /\
  let run := sync_repo (HostW := host) (sim_status "alpha" false 0 0) AUTO_MESSAGE tt (fresh []) in
  res run = Ok tt /\
  exists before,
    out run = (before ++ [Print (error_syncing_line no_origin_error)])%list.
Proof.
  cbv zeta.
  destruct (origin_is_hard_coded
              (HostW := sim_host [OnlyRemote (sim_root +:+ "alpha") "upstream"])
              (L := unit) {| working_dir := sim_root +:+ "alpha" |})
    as [Hstatus Hsync].
  { intros w. exists ["upstream"]. split; [reflexivity|].
    intros Hin. apply list_elem_of_singleton in Hin. discriminate Hin. }
  destruct (Hstatus tt (fresh [])) as (Hcalls & _ & Hrecord).
  split; [exact (Hrecord I I)|]. split; [exact Hcalls|].
  destruct (Hsync (sim_status "alpha" false 0 0) AUTO_MESSAGE tt (fresh []) eq_refl)
    as [_ Hreport].
  exact (Hreport I).
Defined.

(** C10 on a batch whose second repository cannot be staged: the first is
    pushed, the batch ends with the exception of the second, and the third
    is never announced. *)
Lemma save_failure_propagates_witness :
  let first := sim_status "alpha" false 1 0 in
  let second := sim_status "beta" true 0 0 in
  let third := sim_status "gamma" false 0 2 in
  let host := sim_host [AddFails (path second)] in
  let run := batch_sync (HostW := host) [first; second; third] tt (fresh []) in
  res run = Raise (git_error "add: unable to create index.lock") /\
  out run =
    [Print (processing_line first); Git (Push (origin_of (repo first)));
     Print "      ✅ Pushed up to Cloud.";
     Print (processing_line second);
     Print (nl +:+ "   📄 File Status for [beta]:");
     Print "      ✏️  Modified: README.md";
     Print "      🆕 New File: todo.txt";
     Print "";
     Git (AddAll (repo second))] /\
  sim_journal (world run) = [Push (origin_of (repo first))] /\
  bool_decide (Print (processing_line third) ∈ out run) = false.
Proof.
  cbv zeta.
  destruct (save_failure_propagates
              (HostW := sim_host [AddFails (path (sim_status "beta" true 0 0))])
              (L := unit)) as [_ Hbatch].
  destruct (Hbatch [sim_status "alpha" false 1 0] (sim_status "beta" true 0 0)
              [sim_status "gamma" false 0 2]
              tt (fresh []) (git_error "add: unable to create index.lock"))
    as (Hres & Hout & Hworld).
  { exact I. }
  { split; [reflexivity|]. split; [exact I|]. split; [exact I|]. by left. }
  change ([sim_status "alpha" false 1 0] ++
          sim_status "beta" true 0 0 :: [sim_status "gamma" false 0 2])%list
    with [sim_status "alpha" false 1 0; sim_status "beta" true 0 0;
          sim_status "gamma" false 0 2] in *.
  split; [exact Hres|]. rewrite Hout, Hworld. vm_compute. by repeat split.
Defined.

End Scenarios.

(** ** More scenarios *)

Section MoreScenarios.

(** The counts on the simulated fleet: two commits to pull, one to push. *)
Lemma get_git_status_counts_witness :
  let p := sim_root +:+ "alpha" in
  let run := get_git_status (HostW := sim_host []) p tt (fresh []) in
  calls (out run) = [RepoOpen p; Fetch (origin_of {| working_dir := p |})] /\
  res run = Ok (Some (sim_status "alpha" false 1 2)).
Proof.
  cbv zeta.
  destruct (get_git_status_counts (HostW := sim_host []) (sim_root +:+ "alpha") tt
              (fresh []) false
              (journal (Fetch (origin_of {| working_dir := sim_root +:+ "alpha" |}))
                 (fresh []))
              "main" "origin/main" I eq_refl
              (ex_intro _ ["origin"] (conj eq_refl (list_elem_of_here _ _)))
              eq_refl eq_refl eq_refl) as (_ & Hcalls & Hres).
  split; [exact Hcalls | exact Hres].
Defined.

(** A detached [alpha] with unsaved work. *)
Lemma detached_head_shows_no_counts_witness :
  let p := sim_root +:+ "alpha" in
  let st := before_sync p "DETACHED" true in
  res (get_git_status (HostW := sim_host [Detached p; Dirty p]) p tt (fresh [])) =
    Ok (Some st) /\
  branch st = "DETACHED" /\ ahead st = 0 /\ behind st = 0 /\
  row_msg (status_row 1 st) = "Unsaved Work".
Proof.
  cbv zeta. split; [reflexivity|].
  destruct (detached_head_shows_no_counts
              (HostW := sim_host [Detached (sim_root +:+ "alpha");
                                  Dirty (sim_root +:+ "alpha")])
              (sim_root +:+ "alpha") tt (fresh [])
              (before_sync (sim_root +:+ "alpha") "DETACHED" true)
              (fun w' => I) eq_refl) as (Hbranch & Hahead & Hbehind & Hlabel).
  split; [exact Hbranch|]. split; [exact Hahead|]. split; [exact Hbehind|].
  exact (Hlabel 1%nat).
Defined.

(** A dirty [alpha] that is behind, with a pull that fails: the commit is
    made, the push is not. *)
Lemma failed_pull_skips_push_witness :
  let st := sim_status "alpha" true 0 2 in
  let run := sync_repo (HostW := sim_host [PullFails (path st)]) st "Save work" tt
               (fresh []) in
  res run = Ok tt /\
  calls (out run) =
    [AddAll (repo st); Commit (repo st) "Save work"; Pull (origin_of (repo st))] /\
  sim_journal (world run) = [AddAll (repo st); Commit (repo st) "Save work"].
Proof.
  cbv zeta.
  destruct (failed_pull_skips_push
              (HostW := sim_host [PullFails (path (sim_status "alpha" true 0 2))])
              (sim_status "alpha" true 0 2) "Save work" tt (fresh [])
              (git_error "pull: merge conflict") I
              (ex_intro _ ["origin"] (conj eq_refl (list_elem_of_here _ _)))
              eq_refl eq_refl eq_refl) as (Hres & Hworld & Hcalls & _ & _).
  split; [exact Hres|]. split; [exact Hcalls|]. by rewrite Hworld.
Defined.

(** The operator interrupts the pull of [beta], the second repository of
    three: [alpha] was pushed, the third is not reached. *)
Lemma interrupt_is_not_swallowed_witness :
  let first := sim_status "alpha" false 1 0 in
  let second := sim_status "beta" false 0 2 in
  let third := sim_status "gamma" false 0 2 in
  let run := batch_sync (HostW := interrupting_host) [first; second; third] tt (fresh []) in
  res run = Raise interrupted /\
  out run =
    [Print (processing_line first); Git (Push (origin_of (repo first)));
     Print "      ✅ Pushed up to Cloud.";
     Print (processing_line second); Git (Pull (origin_of (repo second)))] /\
  sim_journal (world run) = [Push (origin_of (repo first))].
Proof.
  cbv zeta.
  destruct (interrupt_is_not_swallowed (HostW := interrupting_host)
              (sim_status "beta" false 0 2) AUTO_MESSAGE tt
              (journal (Push (origin_of (repo (sim_status "alpha" false 1 0)))) (fresh []))
              interrupted I eq_refl eq_refl) as [_ Hbatch].
  destruct (Hbatch eq_refl [sim_status "alpha" false 1 0] [sim_status "gamma" false 0 2]
              (fresh []) I eq_refl) as (Hres & Hout & Hworld).
  change ([sim_status "alpha" false 1 0] ++
          sim_status "beta" false 0 2 :: [sim_status "gamma" false 0 2])%list
    with [sim_status "alpha" false 1 0; sim_status "beta" false 0 2;
          sim_status "gamma" false 0 2] in *.
  split; [exact Hres|]. rewrite Hout, Hworld. vm_compute. by repeat split.
Defined.

(** A batch of two on a cooperating host. *)
Lemma batch_sync_in_list_order_witness :
  let first := sim_status "alpha" true 0 0 in
  let second := sim_status "beta" false 1 2 in
  let run := batch_sync (HostW := sim_host []) [first; second] tt (fresh []) in
  res run = Ok tt /\
  calls (out run) =
    [AddAll (repo first); Commit (repo first) AUTO_MESSAGE; Push (origin_of (repo first));
     Pull (origin_of (repo second)); Push (origin_of (repo second))].
Proof.
  cbv zeta.
  destruct (batch_sync_in_list_order (HostW := sim_host [])
              [sim_status "alpha" true 0 0; sim_status "beta" false 1 2] tt (fresh []))
    as (Hres & _ & Hcalls).
  { intros st Hst. split.
    - repeat split; intros; exact I.
    - split; [|split; intros; exact I].
      intros w. exists ["origin"]. split; [|by left].
      apply elem_of_cons in Hst as [->|Hst];
        [|apply list_elem_of_singleton in Hst as ->]; reflexivity. }
  split; [exact Hres | exact Hcalls].
Defined.

(** A root that may not be listed. *)
Lemma unlistable_root_is_reported_witness :
  scan (HostW := sim_host [ListingDenied]) "" [] (fresh []) =
    mkRun (Ok tt) [] (fresh [])
      [Print "❌ Error scanning: [Errno 13] Permission denied: '/home/sauron/unexusi/'"].
Proof.
  exact (proj1 (unlistable_root_is_reported (HostW := sim_host [ListingDenied]) "" []
                  (fresh []) "[Errno 13] Permission denied: '/home/sauron/unexusi/'"
                  eq_refl eq_refl)).
Defined.
End MoreScenarios.

Section MenuScenarios.


(** The operator quits at once, with a capital Q. *)
Lemma quit_ends_dashboard_witness :
  let run := main_dashboard (HostW := sim_host []) "" 1 tt (fresh ["Q"; "a"]) in
  res run = Ok (Some tt) /\
  sim_stdin (world run) = ["a"] /\
  calls (out run) =
    [RepoOpen (sim_root +:+ "alpha");
     Fetch (origin_of {| working_dir := sim_root +:+ "alpha" |});
     RepoOpen (sim_root +:+ "beta");
     Fetch (origin_of {| working_dir := sim_root +:+ "beta" |})] /\
  prompts (out run) = [command_prompt].
Proof.
  cbv zeta.
  destruct (quit_ends_dashboard (HostW := sim_host []) "" 0 tt (fresh ["Q"; "a"])
              "Q" (sim_scanned ["a"]) eq_refl eq_refl eq_refl)
    as (Hres & _ & Hworld & _ & Hcalls & Hprompts).
  split; [exact Hres|]. split; [by rewrite Hworld|].
  split; [exact Hcalls | exact Hprompts].
Defined.

(** The operator presses Enter: a new turn, with a new scan. *)
Lemma unknown_command_refreshes_witness :
  let turn := dashboard_turn (HostW := sim_host []) "" [] (fresh [""; "q"]) in
  res turn = Ok true /\ store turn = [sim_alpha; sim_beta] /\
  world turn = sim_scanned ["q"] /\
  length (calls (out (dashboard_loop (HostW := sim_host []) "" 2 [] (fresh [""; "q"])))) = 8%nat.
Proof.
  cbv zeta.
  destruct (unknown_command_refreshes (HostW := sim_host []) "" 1 [] (fresh [""; "q"])
              "" (sim_scanned ["q"]) eq_refl
              (or_intror (conj (differ "" "q" eq_refl)
                 (conj (differ "" "s" eq_refl) (conj (differ "" "a" eq_refl) eq_refl)))))
    as [Hturn Hloop].
  rewrite Hturn, Hloop. by repeat split.
Defined.

(** The operator types 0, then 3: neither is a row of the table of two. *)
Lemma out_of_range_number_is_ignored_witness :
  let zero := dashboard_turn (HostW := sim_host []) "" [] (fresh ["0"]) in
  let three := dashboard_turn (HostW := sim_host []) "" [] (fresh ["3"]) in
  res zero = Ok true /\ world zero = sim_scanned [] /\
  prompts (out zero) = [command_prompt] /\
  res three = Ok true /\ world three = sim_scanned [].
Proof.
  cbv zeta.
  rewrite (out_of_range_number_is_ignored (HostW := sim_host []) "" [] (fresh ["0"])
             "0" (sim_scanned []) 0 eq_refl
             (differ "0" "q" eq_refl) (differ "0" "r" eq_refl)
             (differ "0" "s" eq_refl) (differ "0" "a" eq_refl)
             eq_refl eq_refl (or_introl (Z.le_refl 0))).
  rewrite (out_of_range_number_is_ignored (HostW := sim_host []) "" [] (fresh ["3"])
             "3" (sim_scanned []) 3 eq_refl
             (differ "3" "q" eq_refl) (differ "3" "r" eq_refl)
             (differ "3" "s" eq_refl) (differ "3" "a" eq_refl)
             eq_refl eq_refl (or_intror eq_refl)).
  by repeat split.
Defined.

(** The operator syncs everything: the two repositories of the scan, in
    the order of the table. *)
Lemma sync_all_runs_on_the_scanned_list_witness :
  let alpha := {| working_dir := sim_root +:+ "alpha" |} in
  let beta := {| working_dir := sim_root +:+ "beta" |} in
  let turn := dashboard_turn (HostW := sim_host []) "" [] (fresh ["A"; ""]) in
  res turn = Ok true /\
  calls (out turn) =
    [RepoOpen (working_dir alpha); Fetch (origin_of alpha);
     RepoOpen (working_dir beta); Fetch (origin_of beta);
     Pull (origin_of alpha); Push (origin_of alpha);
     Pull (origin_of beta); Push (origin_of beta)] /\
  sim_stdin (world turn) = [].
Proof.
  cbv zeta.
  destruct (sync_all_runs_on_the_scanned_list (HostW := sim_host []) "" []
              (fresh ["A"; ""]) "A" (sim_scanned [""]) eq_refl eq_refl)
    as [Hcalls [Hworld Hres]].
  split; [exact (Hres I)|]. split; [exact Hcalls|]. by rewrite Hworld.
Defined.

(** The operator asks for a [.gitignore] and answers "abc" to the number. *)
Lemma malformed_number_ends_dashboard_witness :
  let run := main_dashboard (HostW := sim_host []) "" 3 tt (fresh ["s"; "2"; "abc"; "q"]) in
  res run = Raise (Exn ValueError "invalid literal for int()") /\
  sim_stdin (world run) = ["q"] /\
  prompts (out run) = [command_prompt; "   Select >> "; "   Repo Number (1-2): "].
Proof.
  cbv zeta.
  destruct (malformed_number_ends_dashboard (HostW := sim_host []) "" 2 tt
              (fresh ["s"; "2"; "abc"; "q"]) "s" (sim_scanned ["2"; "abc"; "q"])
              (sim_scanned ["abc"; "q"]) "abc" (sim_scanned ["q"])
              (Exn ValueError "invalid literal for int()")
              eq_refl eq_refl eq_refl eq_refl eq_refl eq_refl)
    as (Hres & Hworld & Hprompts).
  split; [exact Hres|]. split; [by rewrite Hworld | exact Hprompts].
Defined.

(** The operator picks [alpha], which is behind and ahead, and answers n. *)
Lemma declined_sync_calls_nothing_witness :
  let run := manage_one (HostW := sim_host []) "1" [sim_alpha; sim_beta]
               (fresh ["n"; ""]) in
  res run = Ok tt /\ calls (out run) = [] /\ world run = fresh [] /\
  prompts (out run) = ["   Sync this repo? (y/n): "; nl +:+ "Done. Press Enter..."].
Proof.
  cbv zeta.
  destruct (declined_sync_calls_nothing (HostW := sim_host []) "1"
              [sim_alpha; sim_beta] (fresh ["n"; ""]) 1 sim_alpha "n" (fresh [""])
              eq_refl (Z.le_refl 1) eq_refl (fun _ => conj I I) eq_refl
              (differ "n" "y" eq_refl))
    as (Hcalls & Hworld & Hres & Hprompts).
  split; [exact Hres|]. split; [exact Hcalls|]. split; [exact Hworld | exact Hprompts].
Defined.

(** The operator picks a dirty [beta], answers Y and presses Enter at the
    message: the commit carries the default message of a single sync. *)
Lemma manage_one_commit_message_witness :
  let beta := sim_status "beta" true 0 0 in
  let run := manage_one (HostW := sim_host [Dirty (path beta)]) "2" [sim_alpha; beta]
               (fresh ["Y"; ""; ""]) in
  res run = Ok tt /\
  calls (out run) =
    [AddAll (repo beta); Commit (repo beta) "Update via Fleet Commander";
     Push (origin_of (repo beta))] /\
  sim_stdin (world run) = [].
Proof.
  cbv zeta.
  destruct (manage_one_commit_message
              (HostW := sim_host [Dirty (path (sim_status "beta" true 0 0))]) "2"
              [sim_alpha; sim_status "beta" true 0 0] (fresh ["Y"; ""; ""]) 2
              (sim_status "beta" true 0 0) "Y" (fresh [""; ""]) "" (fresh [""])
              eq_refl (Z.le_succ_diag_r 1) eq_refl (fun _ => conj I I)
              eq_refl eq_refl eq_refl)
    as (Hcalls & _ & _ & Hres & Hworld).
  split; [exact Hres|]. split; [exact Hcalls|]. by rewrite Hworld.
Defined.

(** On the simulated disk the operator asks for a [.gitignore] for
    repository 1, then for repository 5 of two. *)
Lemma setup_gitignore_for_numbered_repository_witness :
  let repos_found := [disk_status "alpha"; disk_status "beta"] in
  let first := setup_menu (HostW := disk_host) "" repos_found (laptop [] ["2"; "1"; ""]) in
  let fifth := setup_menu (HostW := disk_host) "" repos_found (laptop [] ["2"; "5"; ""]) in
  res (scan (HostW := disk_host) "" [] (laptop [] [])) = Ok tt /\
  store (scan (HostW := disk_host) "" [] (laptop [] [])) = repos_found /\
  disk_files (world first) = [("/home/sauron/unexusi/alpha/.gitignore", DEFAULT_IGNORE)] /\
  disk_files (world fifth) = [].
Proof.
  cbv zeta. split; [reflexivity|]. split; [reflexivity|].
  destruct (setup_gitignore_for_numbered_repository (HostW := disk_host) ""
              [disk_status "alpha"; disk_status "beta"] (laptop [] ["2"; "1"; ""])
              (laptop [] ["1"; ""]) "1" (laptop [] [""]) 1
              eq_refl eq_refl eq_refl) as [_ Hfirst].
  destruct (Hfirst (disk_status "alpha") (Z.le_refl 1) eq_refl) as [Hworld _].
  destruct (setup_gitignore_for_numbered_repository (HostW := disk_host) ""
              [disk_status "alpha"; disk_status "beta"] (laptop [] ["2"; "5"; ""])
              (laptop [] ["5"; ""]) "5" (laptop [] [""]) 5
              eq_refl eq_refl eq_refl) as [Hfifth _].
  rewrite Hworld, (Hfifth (or_intror eq_refl)). by split.
Defined.

(** The operator types a superscript two: a digit for [isdigit], no number
    for [int]. *)
Lemma digits_that_are_no_integer_end_dashboard_witness :
  let run := main_dashboard (HostW := disk_host) "" 2 tt (laptop [] ["²"; "q"]) in
  res run = Raise (Exn ValueError "invalid literal for int()") /\
  disk_stdin (world run) = ["q"].
Proof.
  cbv zeta.
  destruct (digits_that_are_no_integer_end_dashboard (HostW := disk_host) "" 1 tt
              (laptop [] ["²"; "q"]) "²" (laptop [] ["q"])
              (Exn ValueError "invalid literal for int()")
              eq_refl eq_refl (differ "²" "q" eq_refl) (differ "²" "r" eq_refl)
              (differ "²" "s" eq_refl) (differ "²" "a" eq_refl) eq_refl eq_refl)
    as (Hres & Hworld & _).
  split; [exact Hres | by rewrite Hworld].
Defined.

(** On a laptop without [.bashrc], [setup_alias] creates it; a second run
    finds the alias. *)
Lemma setup_alias_appends_once_witness :
  let first := setup_alias (HostW := disk_host) "" tt (laptop [] []) in
  disk_files (world first) =
    [("/home/sauron/.bashrc",
      nl +:+ "alias fleet=" +:+ dquote +:+ "python /home/sauron/fleet_ops.py" +:+ dquote
      +:+ nl)] /\
  setup_alias (HostW := disk_host) "" tt (world first) =
    mkRun (Ok tt) tt (world first)
      [Print (configuring_line ""); Print "   ✅ 'fleet' alias is already active!"].
Proof.
  cbv zeta. split; [reflexivity|].
  destruct (setup_alias_appends_once (HostW := disk_host) "" tt (laptop [] []))
    as (_ & _ & Hagain).
  exact (Hagain disk_appends_are_read I).
Defined.

(** A [.bashrc] that is a directory. *)
Lemma setup_alias_unreadable_witness :
  let w := {| disk_dirs := ["/home/sauron"; "/home/sauron/.bashrc"];
              disk_files := []; disk_stdin := [] |} in
  setup_alias (HostW := disk_host) "" tt w =
    mkRun (Raise (is_a_directory "/home/sauron/.bashrc")) tt w
      [Print (configuring_line "")].
Proof.
  cbv zeta.
  destruct (setup_alias_unreadable (HostW := disk_host) "" tt
              {| disk_dirs := ["/home/sauron"; "/home/sauron/.bashrc"];
                 disk_files := []; disk_stdin := [] |}
              (is_a_directory "/home/sauron/.bashrc") eq_refl) as [Hother _].
  exact (Hother eq_refl).
Defined.

(** A repository with a [.gitignore] of its own keeps it; one without gets
    the default, once. *)
Lemma create_gitignore_keeps_existing_witness :
  let p := sim_root +:+ "alpha" in
  let own := laptop [(p +:+ "/.gitignore", "node_modules/")] [] in
  world (create_gitignore (HostW := disk_host) p tt own) = own /\
  let made := create_gitignore (HostW := disk_host) p tt (laptop [] []) in
  disk_files (world made) = [(p +:+ "/.gitignore", DEFAULT_IGNORE)] /\
  world (create_gitignore (HostW := disk_host) p tt (world made)) = world made.
Proof.
  cbv zeta.
  destruct (create_gitignore_keeps_existing (HostW := disk_host) (sim_root +:+ "alpha")
              tt (laptop [((sim_root +:+ "alpha") +:+ "/.gitignore", "node_modules/")] []))
    as (Hkeep & _ & _).
  rewrite (Hkeep eq_refl). split; [reflexivity|]. split; [reflexivity|].
  destruct (create_gitignore_keeps_existing (HostW := disk_host) (sim_root +:+ "alpha")
              tt (laptop [] [])) as (_ & _ & Hagain).
  by rewrite (Hagain disk_writes_create I).
Defined.
End MenuScenarios.

Section ClosedScenario.
(** The input ends after a refresh. *)
Lemma closed_input_ends_dashboard_witness :
  let run := main_dashboard (HostW := sim_host []) "" 1 tt (fresh []) in
  res run = Raise (Exn EOFError "EOF when reading a line") /\
  prompts (out run) = [command_prompt].
Proof.
  cbv zeta.
  destruct (closed_input_ends_dashboard (HostW := sim_host []) "" 0 tt (fresh [])
              (Exn EOFError "EOF when reading a line") (sim_scanned [])
              eq_refl eq_refl) as (Hres & _ & _ & Hout).
  split; [exact Hres|]. by rewrite Hout.
Defined.
End ClosedScenario.
